(** * AI Project Manager: the task reducers, the completion adapter and the
      storage file, embedded from [ai_project_manager/app.py] and
      [ai_project_manager/gemini_client.py].

    Python text is modelled by [string]: a character is a code point below 256
    (Latin-1), which is what the 256 values of [ascii] stand for here.  Values
    that Python keeps in dictionaries and lists and hands to the [json] module
    are modelled by [pyval].  The session state of the Streamlit script, the
    storage file and the requests made to the completion backend are threaded
    explicitly through the handlers. *)

From Stdlib Require Import Bool Arith NArith ZArith Lia List Sorted Ascii String.
From Stdlib Require Import Decimal DecimalString.
From Stdlib Require DecimalFacts DecimalPos DecimalN DecimalZ.
Import ListNotations.
Open Scope string_scope.
Set Warnings "-register-all".

(* ================================================================= *)
(** ** Python text operations *)

Definition code (c : ascii) : N := N_of_ascii c.

Definition between (lo hi : N) (c : ascii) : bool :=
  (lo <=? code c)%N && (code c <=? hi)%N.

(** The characters that need a name because they cannot stand in a literal. *)
Definition DQ : ascii := "034"%char.
Definition NL : ascii := "010"%char.
Definition CR : ascii := "013"%char.
Definition TAB : ascii := "009"%char.
Definition BS : ascii := "008"%char.
Definition FF : ascii := "012"%char.
Definition BSL : ascii := "092"%char.
Definition dq : string := String DQ "".
Definition nl : string := String NL "".

(** [str.lower] on one code point: A-Z, and the Latin-1 capitals U+00C0 to
    U+00DE without the multiplication sign U+00D7. *)
Definition lower_char (c : ascii) : ascii :=
  if between 65 90 c || (between 192 222 c && negb (code c =? 215)%N)
  then ascii_of_N (code c + 32)
  else c.

(** [s.lower()] *)
Fixpoint lower (s : string) : string :=
  match s with
  | EmptyString => EmptyString
  | String c s' => String (lower_char c) (lower s')
  end.

(** [str.isspace] on one code point: TAB to CR, FS to US, space, NEL and
    the no-break space. *)
Definition isspace (c : ascii) : bool :=
  between 9 13 c || between 28 32 c || (code c =? 133)%N || (code c =? 160)%N.

(** [s.lstrip()] *)
Fixpoint lstrip (s : string) : string :=
  match s with
  | EmptyString => EmptyString
  | String c s' => if isspace c then lstrip s' else s
  end.

(** [s.rstrip()] *)
Fixpoint rstrip (s : string) : string :=
  match s with
  | EmptyString => EmptyString
  | String c s' =>
      match rstrip s' with
      | EmptyString => if isspace c then EmptyString else String c EmptyString
      | r => String c r
      end
  end.

(** [s.strip()] *)
Definition strip (s : string) : string := rstrip (lstrip s).

(** [s.startswith(p)] *)
Definition startswith (p s : string) : bool := prefix p s.

(** [sub in s] *)
Fixpoint contains (sub s : string) : bool :=
  prefix sub s ||
  match s with
  | EmptyString => false
  | String _ s' => contains sub s'
  end.

(** The scan of [s.replace(old, new)] for a non-empty [old]: left to right,
    occurrences do not overlap; [skip] counts the characters of the current
    occurrence still to be dropped. *)
Fixpoint replace_from (old new : string) (skip : nat) (s : string) : string :=
  match s with
  | EmptyString => EmptyString
  | String c s' =>
      match skip with
      | S k => replace_from old new k s'
      | O =>
          if prefix old s
          then new ++ replace_from old new (pred (length old)) s'
          else String c (replace_from old new 0 s')
      end
  end.

Fixpoint interleave (new s : string) : string :=
  match s with
  | EmptyString => new
  | String c s' => new ++ String c (interleave new s')
  end.

(** [s.replace(old, new)] *)
Definition replace (old new s : string) : string :=
  match old with
  | EmptyString => interleave new s
  | _ => replace_from old new 0 s
  end.

(** [str.count] and the position arithmetic of an error message. *)
Fixpoint count_char (c : ascii) (s : string) : nat :=
  match s with
  | EmptyString => 0
  | String c' s' => (if Ascii.eqb c c' then 1 else 0) + count_char c s'
  end.

(** Length of the part of [s] after its last [c] (all of [s] without one). *)
Fixpoint after_last (c : ascii) (s : string) : nat :=
  match s with
  | EmptyString => 0
  | String c' s' =>
      if (count_char c s' =? 0)%nat
      then (if Ascii.eqb c c' then length s' else S (length s'))
      else after_last c s'
  end.

Fixpoint take (n : nat) (s : string) : string :=
  match n, s with
  | S k, String c s' => String c (take k s')
  | _, _ => EmptyString
  end.

Definition str_of_nat (n : nat) : string := NilZero.string_of_uint (Nat.to_uint n).
Definition str_of_Z (z : Z) : string := NilZero.string_of_int (Z.to_int z).

Definition hex_digit (n : N) : ascii :=
  if (n <? 10)%N then ascii_of_N (48 + n) else ascii_of_N (87 + n).

(** Two lower-case hexadecimal digits of a code point. *)
Definition hex2 (c : ascii) : string :=
  String (hex_digit (code c / 16)) (String (hex_digit (code c mod 16)) "").

(* ================================================================= *)
(** ** Python values *)

(** A float is kept as the decimal literal that denotes it: sign, integer
    digits, fraction digits and exponent, which is what [repr] prints and what
    the [json] scanner reads.  For a float made by [time.time()] the literal is
    its shortest representation; rounding to binary64 is outside the model. *)
Inductive pyfloat : Type :=
| FNaN
| FInf (neg : bool)
| FLit (neg : bool) (int_part : string) (frac : option string)
       (exp : option (bool * string)).

(** The values the program stores and serialises: what [json.loads] builds.
    A dictionary keeps its keys in insertion order. *)
Inductive pyval : Type :=
| PNone
| PBool (b : bool)
| PInt (z : Z)
| PFloat (f : pyfloat)
| PStr (s : string)
| PList (l : list pyval)
| PDict (d : list (string * pyval)).

(** The exceptions the modelled code raises. *)
Inductive exn : Type :=
| JSONDecodeError (msg : string)
| KeyError (key : string)
| TypeError (msg : string)
| AttributeError (msg : string)
| ValueError (msg : string)
| RecursionError.

Inductive result (A : Type) : Type :=
| Ok (a : A)
| Err (e : exn).
Arguments Ok {A} a.
Arguments Err {A} e.

Definition bind {A B : Type} (r : result A) (k : A -> result B) : result B :=
  match r with
  | Ok a => k a
  | Err e => Err e
  end.

Notation "x <- r ;; k" := (bind r (fun x => k))
  (at level 61, r at next level, right associativity).

(** [d.get(k)] on the pairs of a dictionary. *)
Fixpoint dict_get (k : string) (d : list (string * pyval)) : option pyval :=
  match d with
  | [] => None
  | (k', v) :: d' => if String.eqb k k' then Some v else dict_get k d'
  end.

(** [d[k] = v]: an existing key keeps its place. *)
Fixpoint dict_set (k : string) (v : pyval) (d : list (string * pyval))
  : list (string * pyval) :=
  match d with
  | [] => [(k, v)]
  | (k', v') :: d' =>
      if String.eqb k k' then (k, v) :: d' else (k', v') :: dict_set k v d'
  end.

(** [dict(pairs)] *)
Definition dict_of_pairs (pairs : list (string * pyval)) : list (string * pyval) :=
  fold_left (fun d kv => dict_set (fst kv) (snd kv) d) pairs [].

Definition is_digit (c : ascii) : bool := between 48 57 c.

Fixpoint all_chars (p : ascii -> bool) (s : string) : bool :=
  match s with
  | EmptyString => true
  | String c s' => p c && all_chars p s'
  end.

Definition is_zero_digit (c : ascii) : bool := Ascii.eqb c "0".

(** Truth value of a float: zero is false. *)
Definition float_truthy (f : pyfloat) : bool :=
  match f with
  | FNaN => true
  | FInf _ => true
  | FLit _ i fr _ =>
      negb (all_chars is_zero_digit i &&
            match fr with Some d => all_chars is_zero_digit d | None => true end)
  end.

(** [bool(v)] *)
Definition truthy (v : pyval) : bool :=
  match v with
  | PNone => false
  | PBool b => b
  | PInt z => negb (z =? 0)%Z
  | PFloat f => float_truthy f
  | PStr s => negb (String.eqb s "")
  | PList l => match l with [] => false | _ => true end
  | PDict d => match d with [] => false | _ => true end
  end.

Definition float_digits (neg : bool) (i : string) (fr : option string)
  (ex : option (bool * string)) : string :=
  (if neg then "-" else "") ++ i ++
  match fr with Some d => "." ++ d | None => "" end ++
  match ex with
  | Some (eneg, d) => "e" ++ (if eneg then "-" else "+") ++ d
  | None => ""
  end.

(** [float.__repr__] *)
Definition float_repr (f : pyfloat) : string :=
  match f with
  | FNaN => "nan"
  | FInf neg => if neg then "-inf" else "inf"
  | FLit neg i fr ex => float_digits neg i fr ex
  end.

Definition repr_char (q c : ascii) : string :=
  if Ascii.eqb c q || Ascii.eqb c BSL then String BSL (String c "")
  else if Ascii.eqb c TAB then "\t"
  else if Ascii.eqb c NL then "\n"
  else if Ascii.eqb c CR then "\r"
  else if (code c <? 32)%N || (code c =? 127)%N then "\x" ++ hex2 c
  else if (code c <? 127)%N then String c ""
  else if between 128 160 c || (code c =? 173)%N then "\x" ++ hex2 c
  else String c "".

Fixpoint repr_body (q : ascii) (s : string) : string :=
  match s with
  | EmptyString => EmptyString
  | String c s' => repr_char q c ++ repr_body q s'
  end.

(** [repr] of a [str]: single quotes unless the text has one and no double
    quote. *)
Definition str_repr (s : string) : string :=
  let q := if contains "'" s && negb (contains dq s) then DQ else "'"%char in
  String q (repr_body q s ++ String q "").

(** [repr(v)] *)
Fixpoint py_repr (v : pyval) : string :=
  match v with
  | PNone => "None"
  | PBool b => if b then "True" else "False"
  | PInt z => str_of_Z z
  | PFloat f => float_repr f
  | PStr s => str_repr s
  | PList l => "[" ++ concat ", " (map py_repr l) ++ "]"
  | PDict d =>
      "{" ++ concat ", "
        (map (fun kv => match kv with
                        | (k, x) => str_repr k ++ ": " ++ py_repr x
                        end) d) ++ "}"
  end.

(** [str(v)], which is what an f-string field prints. *)
Definition py_str (v : pyval) : string :=
  match v with
  | PStr s => s
  | _ => py_repr v
  end.

(** [str(e)] *)
Definition exn_str (e : exn) : string :=
  match e with
  | JSONDecodeError m => m
  | KeyError k => str_repr k
  | TypeError m => m
  | AttributeError m => m
  | ValueError m => m
  | RecursionError => "maximum recursion depth exceeded"
  end.

(* ================================================================= *)
(** ** The [json] module: encoder *)

(** [ESCAPE_ASCII] and [ESCAPE_DCT] of [json.encoder] ([ensure_ascii] is on):
    printable ASCII stands for itself, the rest is escaped. *)
Definition escape_char (c : ascii) : string :=
  if Ascii.eqb c DQ then String BSL dq
  else if Ascii.eqb c BSL then "\\"
  else if Ascii.eqb c NL then "\n"
  else if Ascii.eqb c CR then "\r"
  else if Ascii.eqb c TAB then "\t"
  else if Ascii.eqb c BS then "\b"
  else if Ascii.eqb c FF then "\f"
  else if between 32 126 c then String c ""
  else "\u00" ++ hex2 c.

Fixpoint escape_body (s : string) : string :=
  match s with
  | EmptyString => EmptyString
  | String c s' => escape_char c ++ escape_body s'
  end.

Definition encode_basestring_ascii (s : string) : string :=
  dq ++ escape_body s ++ dq.

(** [floatstr] of [json.encoder] ([allow_nan] is on). *)
Definition floatstr (f : pyfloat) : string :=
  match f with
  | FNaN => "NaN"
  | FInf neg => if neg then "-Infinity" else "Infinity"
  | FLit neg i fr ex => float_digits neg i fr ex
  end.

Fixpoint spaces (n : nat) : string :=
  match n with
  | O => EmptyString
  | S k => String " " (spaces k)
  end.

(** [newline_indent]: nothing without [indent], else a line break and the
    indentation of the level. *)
Definition newline_indent (indent : option nat) (level : nat) : string :=
  match indent with
  | None => EmptyString
  | Some k => nl ++ spaces (k * level)
  end.

(** The default [separators]: [(', ', ': ')] without [indent], [(',', ': ')]
    with it. *)
Definition item_separator (indent : option nat) : string :=
  match indent with
  | None => ", "
  | Some _ => ","
  end.

Definition key_separator : string := ": ".

(** The chunks of a container, each after the first preceded by [sep]. *)
Fixpoint join_items (sep : string) (items : list string) : string :=
  match items with
  | [] => EmptyString
  | [x] => x
  | x :: rest => x ++ sep ++ join_items sep rest
  end.

(** [_iterencode], with the chunks concatenated. *)
Fixpoint iterencode (indent : option nat) (level : nat) (v : pyval) : string :=
  match v with
  | PNone => "null"
  | PBool b => if b then "true" else "false"
  | PInt z => str_of_Z z
  | PFloat f => floatstr f
  | PStr s => encode_basestring_ascii s
  | PList l =>
      match l with
      | [] => "[]"
      | _ =>
          "[" ++ newline_indent indent (S level) ++
          join_items (item_separator indent ++ newline_indent indent (S level))
            (map (iterencode indent (S level)) l) ++
          newline_indent indent level ++ "]"
      end
  | PDict d =>
      match d with
      | [] => "{}"
      | _ =>
          "{" ++ newline_indent indent (S level) ++
          join_items (item_separator indent ++ newline_indent indent (S level))
            (map (fun kv => match kv with
                            | (k, x) =>
                                encode_basestring_ascii k ++ key_separator ++
                                iterencode indent (S level) x
                            end) d) ++
          newline_indent indent level ++ "}"
      end
  end.

(** [json.dumps(obj)] *)
Definition json_dumps (v : pyval) : string := iterencode None 0 v.

(** The text [json.dump(obj, f, indent=4)] writes to [f]. *)
Definition json_dump_indent4 (v : pyval) : string := iterencode (Some 4) 0 v.

(* ================================================================= *)
(** ** The [json] module: decoder *)

(** A scan either yields a value and the text after it, or stops at a
    position (the text from there on) with a message. *)
Inductive scan (A : Type) : Type :=
| Scanned (a : A) (rest : string)
| ScanError (msg : string) (at_ : string)
| OutOfFuel.
Arguments Scanned {A} a rest.
Arguments ScanError {A} msg at_.
Arguments OutOfFuel {A}.

(** [WHITESPACE]: space, tab, line feed, carriage return. *)
Definition is_ws (c : ascii) : bool :=
  Ascii.eqb c " " || Ascii.eqb c TAB || Ascii.eqb c NL || Ascii.eqb c CR.

Fixpoint skip_ws (s : string) : string :=
  match s with
  | EmptyString => EmptyString
  | String c s' => if is_ws c then skip_ws s' else s
  end.

(** The text after the character [c] when [s] starts with it. *)
Definition head_is (c : ascii) (s : string) : option string :=
  match s with
  | EmptyString => None
  | String c' s' => if Ascii.eqb c c' then Some s' else None
  end.

(** The text after [p] when [s] starts with [p]. *)
Fixpoint drop_prefix (p s : string) : option string :=
  match p with
  | EmptyString => Some s
  | String a p' =>
      match s with
      | EmptyString => None
      | String b s' => if Ascii.eqb a b then drop_prefix p' s' else None
      end
  end.

Definition hex_value (c : ascii) : option N :=
  if between 48 57 c then Some (code c - 48)%N
  else if between 97 102 c then Some (code c - 87)%N
  else if between 65 70 c then Some (code c - 55)%N
  else None.

Definition hex4 (a b c d : ascii) : option N :=
  match hex_value a, hex_value b, hex_value c, hex_value d with
  | Some x, Some y, Some z, Some w => Some (((x * 16 + y) * 16 + z) * 16 + w)%N
  | _, _, _, _ => None
  end.

(** [BACKSLASH] of [json.decoder] *)
Definition backslash (e : ascii) : option ascii :=
  if Ascii.eqb e DQ then Some DQ
  else if Ascii.eqb e BSL then Some BSL
  else if Ascii.eqb e "/" then Some "/"%char
  else if Ascii.eqb e "b" then Some BS
  else if Ascii.eqb e "f" then Some FF
  else if Ascii.eqb e "n" then Some NL
  else if Ascii.eqb e "r" then Some CR
  else if Ascii.eqb e "t" then Some TAB
  else None.

Definition cons_scanned (c : ascii) (r : scan string) : scan string :=
  match r with
  | Scanned s rest => Scanned (String c s) rest
  | ScanError m a => ScanError m a
  | OutOfFuel => OutOfFuel
  end.

(** [scanstring] (strict), as the C scanner of [_json] has it: [s] is the
    text after the opening quote, [start] the text from the opening quote
    on.  Four hexadecimal digits that end the text are an invalid escape
    ([end >= len]).  An escape above U+00FF has no character in the model
    and is reported apart; see [within_limits]. *)
Fixpoint scanstring (start s : string) : scan string :=
  match s with
  | EmptyString => ScanError "Unterminated string starting at" start
  | String c rest =>
      if Ascii.eqb c DQ then Scanned EmptyString rest
      else if Ascii.eqb c BSL then
        match rest with
        | EmptyString => ScanError "Unterminated string starting at" start
        | String e rest' =>
            if Ascii.eqb e "u" then
              match rest' with
              | String h1 (String h2 (String h3 (String h4 rest''))) =>
                  match rest'' with
                  | EmptyString => ScanError "Invalid \uXXXX escape" rest
                  | _ =>
                      match hex4 h1 h2 h3 h4 with
                      | Some n =>
                          if (n <? 256)%N
                          then cons_scanned (ascii_of_N n)
                                 (scanstring start rest'')
                          else ScanError "Code point above U+00FF" rest
                      | None => ScanError "Invalid \uXXXX escape" rest
                      end
                  end
              | _ => ScanError "Invalid \uXXXX escape" rest
              end
            else
              match backslash e with
              | Some x => cons_scanned x (scanstring start rest')
              | None => ScanError "Invalid \escape" s
              end
        end
      else if (code c <? 32)%N then ScanError "Invalid control character at" s
      else cons_scanned c (scanstring start rest)
  end.

(** The longest run of digits at the head of [s], and the rest. *)
Fixpoint span_digits (s : string) : string * string :=
  match s with
  | EmptyString => (EmptyString, EmptyString)
  | String c s' =>
      if is_digit c
      then let (d, r) := span_digits s' in (String c d, r)
      else (EmptyString, s)
  end.

(** The three groups of [NUMBER_RE]: an optional minus sign with a zero or
    a run of digits that starts with a non-zero one; a point with digits; an
    exponent mark with an optional sign and digits. *)
Definition match_int (s : string) : option (string * string) :=
  match s with
  | EmptyString => None
  | String c s' =>
      if Ascii.eqb c "0" then Some ("0", s')
      else if between 49 57 c
      then let (d, r) := span_digits s' in Some (String c d, r)
      else None
  end.

Definition match_frac (s : string) : option (string * string) :=
  match head_is "." s with
  | Some s' =>
      match span_digits s' with
      | (EmptyString, _) => None
      | (d, r) => Some (d, r)
      end
  | None => None
  end.

Definition match_exp (s : string) : option ((bool * string) * string) :=
  match s with
  | EmptyString => None
  | String c s' =>
      if Ascii.eqb c "e" || Ascii.eqb c "E" then
        let (eneg, s'') :=
          match head_is "-" s', head_is "+" s' with
          | Some t, _ => (true, t)
          | None, Some t => (false, t)
          | None, None => (false, s')
          end in
        match span_digits s'' with
        | (EmptyString, _) => None
        | (d, r) => Some ((eneg, d), r)
        end
      else None
  end.

(** [int(integer)] for a run of digits, of any length: CPython raises
    [ValueError] on more than 4300 digits.  See [within_limits]. *)
Definition int_of_digits (neg : bool) (digits : string) : Z :=
  match NilEmpty.uint_of_string digits with
  | Some u => if neg then Z.opp (Z.of_N (N.of_uint u)) else Z.of_N (N.of_uint u)
  | None => 0%Z
  end.

Definition match_number (s : string) : option (pyval * string) :=
  let (neg, s1) :=
    match head_is "-" s with
    | Some t => (true, t)
    | None => (false, s)
    end in
  match match_int s1 with
  | None => None
  | Some (ip, s2) =>
      let (fr, s3) :=
        match match_frac s2 with
        | Some (d, r) => (Some d, r)
        | None => (None, s2)
        end in
      let (ex, s4) :=
        match match_exp s3 with
        | Some (e, r) => (Some e, r)
        | None => (None, s3)
        end in
      match fr, ex with
      | None, None => Some (PInt (int_of_digits neg ip), s4)
      | _, _ => Some (PFloat (FLit neg ip fr ex), s4)
      end
  end.

Definition expecting_value {A : Type} (s : string) : scan A :=
  ScanError "Expecting value" s.

(** The constants and numbers of [scan_once]. *)
Definition scan_atom (s : string) : scan pyval :=
  match drop_prefix "null" s, drop_prefix "true" s, drop_prefix "false" s with
  | Some rest, _, _ => Scanned PNone rest
  | None, Some rest, _ => Scanned (PBool true) rest
  | None, None, Some rest => Scanned (PBool false) rest
  | None, None, None =>
      match match_number s with
      | Some (v, rest) => Scanned v rest
      | None =>
          match drop_prefix "NaN" s, drop_prefix "Infinity" s,
                drop_prefix "-Infinity" s with
          | Some rest, _, _ => Scanned (PFloat FNaN) rest
          | None, Some rest, _ => Scanned (PFloat (FInf false)) rest
          | None, None, Some rest => Scanned (PFloat (FInf true)) rest
          | None, None, None => expecting_value s
          end
      end
  end.

(** [scan_once] with [JSONArray] and [JSONObject]; the recursion of the
    decoder is counted by [fuel], one unit for each value and each item. *)
Fixpoint scan_once (fuel : nat) (s : string) : scan pyval :=
  match fuel with
  | O => OutOfFuel
  | S fuel' =>
      match s with
      | EmptyString => expecting_value s
      | String c s' =>
          if Ascii.eqb c DQ then
            match scanstring s s' with
            | Scanned str rest => Scanned (PStr str) rest
            | ScanError m a => ScanError m a
            | OutOfFuel => OutOfFuel
            end
          else if Ascii.eqb c "{" then
            match head_is "}" (skip_ws s') with
            | Some rest => Scanned (PDict []) rest
            | None => JSONObject_pairs fuel' (skip_ws s') []
            end
          else if Ascii.eqb c "[" then
            match head_is "]" (skip_ws s') with
            | Some rest => Scanned (PList []) rest
            | None => JSONArray_values fuel' (skip_ws s') []
            end
          else scan_atom s
      end
  end

with JSONArray_values (fuel : nat) (s : string) (values : list pyval)
  : scan pyval :=
  match fuel with
  | O => OutOfFuel
  | S fuel' =>
      match scan_once fuel' s with
      | Scanned v rest =>
          match head_is "]" (skip_ws rest), head_is "," (skip_ws rest) with
          | Some rest', _ => Scanned (PList (values ++ [v])) rest'
          | None, Some rest' =>
              JSONArray_values fuel' (skip_ws rest') (values ++ [v])
          | None, None => ScanError "Expecting ',' delimiter" (skip_ws rest)
          end
      | ScanError m a => ScanError m a
      | OutOfFuel => OutOfFuel
      end
  end

with JSONObject_pairs (fuel : nat) (s : string) (pairs : list (string * pyval))
  : scan pyval :=
  match fuel with
  | O => OutOfFuel
  | S fuel' =>
      match s with
      | EmptyString =>
          ScanError "Expecting property name enclosed in double quotes" s
      | String c s' =>
          if negb (Ascii.eqb c DQ)
          then ScanError "Expecting property name enclosed in double quotes" s
          else
            match scanstring s s' with
            | Scanned key rest =>
                match head_is ":" (skip_ws rest) with
                | Some rest' =>
                    match scan_once fuel' (skip_ws rest') with
                    | Scanned v rest'' =>
                        match head_is "}" (skip_ws rest''),
                              head_is "," (skip_ws rest'') with
                        | Some r, _ =>
                            Scanned (PDict (dict_of_pairs (pairs ++ [(key, v)]))) r
                        | None, Some r =>
                            JSONObject_pairs fuel' (skip_ws r) (pairs ++ [(key, v)])
                        | None, None =>
                            ScanError "Expecting ',' delimiter" (skip_ws rest'')
                        end
                    | ScanError m a => ScanError m a
                    | OutOfFuel => OutOfFuel
                    end
                | None => ScanError "Expecting ':' delimiter" (skip_ws rest)
                end
            | ScanError m a => ScanError m a
            | OutOfFuel => OutOfFuel
            end
      end
  end.

(** [JSONDecodeError.__str__]: the message with line, column and offset of
    the position [pos] in [doc]. *)
Definition errmsg (msg doc : string) (pos : nat) : string :=
  let before := take pos doc in
  msg ++ ": line " ++ str_of_nat (S (count_char NL before)) ++
  " column " ++ str_of_nat (S (after_last NL before)) ++
  " (char " ++ str_of_nat pos ++ ")".

(** [json.loads(s)]; the fuel is more than a text of this length can
    spend, so the decoder of the file has no recursion limit: CPython
    raises [RecursionError] on a nesting that its recursion limit does not
    allow.  See [within_limits]. *)
Definition json_loads (s : string) : result pyval :=
  match scan_once (S (2 * length s)) (skip_ws s) with
  | Scanned v rest =>
      match skip_ws rest with
      | EmptyString => Ok v
      | r => Err (JSONDecodeError (errmsg "Extra data" s (length s - length r)))
      end
  | ScanError m a => Err (JSONDecodeError (errmsg m s (length s - length a)))
  | OutOfFuel => Err RecursionError
  end.

(* ================================================================= *)
(** ** gemini_client.py *)

Definition PLACEHOLDER_KEY : string := "YOUR_GEMINI_API_KEY".
Definition DUMMY_KEY : string := "DUMMY_KEY_FOR_TESTING".

(** The remote model behind [generate_content]: for a prompt, the text of
    the response or the message of the exception it raised. *)
Definition backend : Type := string -> string + string.

(** A [GeminiClient] object: [model] is set only outside mock mode. *)
Record GeminiClient : Type := mkClient {
  api_key : string;
  model : option backend
}.

(** [GeminiClient.__init__]; [genai] stands for [genai.configure] followed by
    [genai.GenerativeModel('gemini-pro')]. *)
Definition GeminiClient_init (genai : string -> backend) (key : string)
  : result GeminiClient :=
  if (String.eqb key "" || String.eqb key PLACEHOLDER_KEY) &&
     negb (String.eqb key DUMMY_KEY)
  then Err (ValueError "Gemini API key is not configured.")
  else
    Ok (mkClient key
          (if negb (String.eqb key DUMMY_KEY) then Some (genai key) else None)).

(** [GeminiClient._get_mock_response] *)
Definition _get_mock_response (prompt : string) : string :=
  if contains "generate the next logical task" prompt then
    json_dumps (PDict
      [("task_description", PStr "Mock task: Implement the user login page.");
       ("coding_prompt",
        PStr "Create a new Streamlit page for user login with username and password fields.")])
  else if contains "A task was marked as completed" prompt then
    json_dumps (PDict
      [("verified", PBool true);
       ("feedback", PStr "This looks great. Well done.")])
  else "This is a generic mock response for other queries.".

(** [GeminiClient.generate_response]: the response text, and the prompts that
    went over the network to produce it. *)
Definition generate_response (self : GeminiClient) (prompt : string)
  : string * list string :=
  if String.eqb (api_key self) DUMMY_KEY then (_get_mock_response prompt, [])
  else
    match model self with
    | Some generate_content =>
        (match generate_content prompt with
         | inl text => text
         | inr e =>
             "An error occurred while communicating with the Gemini API: " ++ e
         end, [prompt])
    | None =>
        ("An error occurred while communicating with the Gemini API: " ++
         "'GeminiClient' object has no attribute 'model'", [])
    end.

(** Truth value of an optional text: [None] and the empty text are false. *)
Definition key_given (k : option string) : option string :=
  match k with
  | Some s => if String.eqb s "" then None else Some s
  | None => None
  end.

(** [get_gemini_client]; [getenv] is the value of [GEMINI_API_KEY]. *)
Definition get_gemini_client (genai : string -> backend)
  (getenv : option string) (key : option string) : result GeminiClient :=
  match key_given key with
  | Some k => GeminiClient_init genai k
  | None =>
      match key_given getenv with
      | Some k => GeminiClient_init genai k
      | None => Err (ValueError "API Key for Gemini not found or provided.")
      end
  end.

(* ================================================================= *)
(** ** app.py: state *)

(** A task dictionary, with its keys [id], [description], [prompt], [status]
    and [timestamp]. *)
Record Task : Type := mkTask {
  t_id : Z;
  t_description : pyval;
  t_prompt : pyval;
  t_status : string;
  t_timestamp : pyfloat
}.

(** A log entry dictionary, with its keys [timestamp], [event], [details]. *)
Record LogEntry : Type := mkLog {
  l_timestamp : string;
  l_event : string;
  l_details : pyval
}.

(** What a handler does outside the session state. *)
Inductive effect : Type :=
| GenerateResponse (prompt : string)
| NetworkRequest (prompt : string)
| SaveJson (filepath text : string).

(** [st.session_state] with the storage file and the record of effects. *)
Record state : Type := mkState {
  chat_history : list (string * string);
  tasks : list Task;
  logs : list LogEntry;
  notification : option string;
  storage_file : option string;
  effects : list effect
}.

(** How a handler ends: it returns, [st.rerun()] stops the script, or an
    exception leaves it. *)
Inductive outcome : Type :=
| Returned
| Rerun
| Raised (e : exn).

(** One reading of the clock: [time.time()] and
    [time.strftime('%Y-%m-%d %H:%M:%S')]. *)
Record clock : Type := mkClock {
  time_time : pyfloat;
  time_strftime : string
}.

Definition STORAGE_PATH : string := "ai_project_manager/storage.json".

Definition task_to_py (t : Task) : pyval :=
  PDict [("id", PInt (t_id t)); ("description", t_description t);
         ("prompt", t_prompt t); ("status", PStr (t_status t));
         ("timestamp", PFloat (t_timestamp t))].

Definition log_to_py (l : LogEntry) : pyval :=
  PDict [("timestamp", PStr (l_timestamp l)); ("event", PStr (l_event l));
         ("details", l_details l)].

Definition tasks_py (ts : list Task) : pyval := PList (map task_to_py ts).
Definition logs_py (ls : list LogEntry) : pyval := PList (map log_to_py ls).

Definition append_chat (author message : string) (s : state) : state :=
  mkState (chat_history s ++ [(author, message)]) (tasks s) (logs s)
          (notification s) (storage_file s) (effects s).

Definition set_tasks (ts : list Task) (s : state) : state :=
  mkState (chat_history s) ts (logs s) (notification s) (storage_file s)
          (effects s).

Definition set_notification (n : string) (s : state) : state :=
  mkState (chat_history s) (tasks s) (logs s) (Some n) (storage_file s)
          (effects s).

Definition add_effects (es : list effect) (s : state) : state :=
  mkState (chat_history s) (tasks s) (logs s) (notification s)
          (storage_file s) (effects s ++ es).

(** [gemini_client.generate_response(prompt)] as a handler calls it. *)
Definition ask (gemini_client : GeminiClient) (prompt : string) (s : state)
  : string * state :=
  let (text, sent) := generate_response gemini_client prompt in
  (text, add_effects (GenerateResponse prompt :: map NetworkRequest sent) s).

(** [log_event] *)
Definition log_event (clk : clock) (event_type : string) (details : pyval)
  (s : state) : state :=
  mkState (chat_history s) (tasks s)
          (logs s ++ [mkLog (time_strftime clk) event_type details])
          (notification s) (storage_file s) (effects s).

Definition storage_data (s : state) : pyval :=
  PDict [("tasks", tasks_py (tasks s)); ("logs", logs_py (logs s))].

(** [save_json(data, filepath)] on the storage file. *)
Definition save_json (data : pyval) (filepath : string) (s : state) : state :=
  let text := json_dump_indent4 data in
  mkState (chat_history s) (tasks s) (logs s) (notification s) (Some text)
          (effects s ++ [SaveJson filepath text]).

(** [save_project_data] *)
Definition save_project_data (s : state) : state :=
  save_json (storage_data s) STORAGE_PATH s.

(** [load_json(filepath)] on the content of the file, [None] when it does
    not exist. *)
Definition load_json (file : option string) : result pyval :=
  match file with
  | None => Ok (PDict [])
  | Some text =>
      match json_loads text with
      | Ok v => Ok v
      | Err (JSONDecodeError _) => Ok (PDict [])
      | Err e => Err e
      end
  end.

(** [storage.get(key, [])] *)
Definition storage_get (storage : pyval) (key : string) : pyval :=
  match storage with
  | PDict d => match dict_get key d with Some v => v | None => PList [] end
  | _ => PList []
  end.

(** [v[key]] for a text key. *)
Definition getitem (v : pyval) (key : string) : result pyval :=
  match v with
  | PDict d =>
      match dict_get key d with
      | Some x => Ok x
      | None => Err (KeyError key)
      end
  | PList _ => Err (TypeError "list indices must be integers or slices, not str")
  | PStr _ => Err (TypeError "string indices must be integers, not 'str'")
  | PNone => Err (TypeError "'NoneType' object is not subscriptable")
  | PBool _ => Err (TypeError "'bool' object is not subscriptable")
  | PInt _ => Err (TypeError "'int' object is not subscriptable")
  | PFloat _ => Err (TypeError "'float' object is not subscriptable")
  end.

(** [v.get(key, default)] *)
Definition get_method (v : pyval) (key : string) (default : pyval)
  : result pyval :=
  match v with
  | PDict d =>
      match dict_get key d with
      | Some x => Ok x
      | None => Ok default
      end
  | PList _ => Err (AttributeError "'list' object has no attribute 'get'")
  | PStr _ => Err (AttributeError "'str' object has no attribute 'get'")
  | PNone => Err (AttributeError "'NoneType' object has no attribute 'get'")
  | PBool _ => Err (AttributeError "'bool' object has no attribute 'get'")
  | PInt _ => Err (AttributeError "'int' object has no attribute 'get'")
  | PFloat _ => Err (AttributeError "'float' object has no attribute 'get'")
  end.

(** What [except (json.JSONDecodeError, KeyError)] catches. *)
Definition caught (e : exn) : bool :=
  match e with
  | JSONDecodeError _ => true
  | KeyError _ => true
  | _ => false
  end.

(** [ai_response.strip().replace('```json', '').replace('```', '')] *)
Definition clean_response (ai_response : string) : string :=
  replace "```" "" (replace "```json" "" (strip ai_response)).

Definition is_pending (t : Task) : bool := String.eqb (t_status t) "pending".

(** [next((task for task in tasks if task['status'] == 'pending'), None)] *)
Fixpoint current_pending (ts : list Task) : option Task :=
  match ts with
  | [] => None
  | t :: ts' => if is_pending t then Some t else current_pending ts'
  end.

(** [current_task['status'] = 'verified']: [current_task] is the first pending
    dictionary of the list itself, so the list sees the assignment. *)
Fixpoint mark_verified (ts : list Task) : list Task :=
  match ts with
  | [] => []
  | t :: ts' =>
      if is_pending t
      then mkTask (t_id t) (t_description t) (t_prompt t) "verified"
                  (t_timestamp t) :: ts'
      else t :: mark_verified ts'
  end.

(* ================================================================= *)
(** ** app.py: handle_task_generation *)

Definition line (text : string) : string := "    " ++ text ++ nl.

Definition generation_prompt (ts : list Task) : string :=
  nl ++
  line "Based on the following project state (tasks and their status), generate the next logical task." ++
  line ("Project history: " ++ py_repr (tasks_py ts)) ++
  nl ++
  line "Return a JSON object with two keys:" ++
  line ("- " ++ dq ++ "task_description" ++ dq ++
        ": A clear and concise description of the new task.") ++
  line ("- " ++ dq ++ "coding_prompt" ++ dq ++
        ": A detailed, actionable prompt for an executor AI to complete the task.") ++
  "    ".

Definition generation_error_message (e : exn) (ai_response : string) : string :=
  "Failed to parse AI response for task generation: " ++ exn_str e ++
  nl ++ nl ++ "Raw response:" ++ nl ++ ai_response.

Definition generation_response_text (t : Task) : string :=
  "**New Task Generated:** " ++ py_str (t_description t) ++ nl ++ nl ++
  "**Prompt for Executor AI:**" ++ nl ++ "```" ++ nl ++
  py_str (t_prompt t) ++ nl ++ "```".

Definition handle_task_generation (clk : clock) (gemini_client : GeminiClient)
  (s : state) : state * outcome :=
  let prompt := generation_prompt (tasks s) in
  let (ai_response, s1) := ask gemini_client prompt s in
  let json_response_str := clean_response ai_response in
  match (task_data <- json_loads json_response_str ;;
         d <- getitem task_data "task_description" ;;
         p <- getitem task_data "coding_prompt" ;;
         Ok (d, p)) with
  | Ok (d, p) =>
      let new_task :=
        mkTask (Z.of_nat (List.length (tasks s1)) + 1) d p "pending"
               (time_time clk) in
      let s2 := set_tasks (tasks s1 ++ [new_task]) s1 in
      let s3 := log_event clk "Task Generated"
                  (PDict [("task_id", PInt (t_id new_task));
                          ("description", t_description new_task)]) s2 in
      let s4 := save_project_data s3 in
      let s5 := append_chat "assistant" (generation_response_text new_task) s4 in
      (set_notification "New task generated!" s5, Rerun)
  | Err e =>
      if caught e
      then (append_chat "assistant" (generation_error_message e ai_response) s1,
            Returned)
      else (s1, Raised e)
  end.

(* ================================================================= *)
(** ** app.py: handle_task_verification *)

Definition NOTHING_TO_VERIFY : string := "There are no pending tasks to verify.".
Definition SUMMARY_PLACEHOLDER : string :=
  "User marked task as done without providing a summary.".

(** [user_input.replace("done", "").strip()] *)
Definition trimmed_summary (user_input : string) : string :=
  strip (replace "done" "" user_input).

Definition user_summary_of (user_input : string) : string :=
  let user_summary := trimmed_summary user_input in
  if String.eqb user_summary "" then SUMMARY_PLACEHOLDER else user_summary.

Definition verification_prompt (current_task : Task) (user_summary : string)
  : string :=
  nl ++
  line "A task was marked as completed. Verify if the user's summary indicates successful completion." ++
  nl ++
  line ("Task Description: " ++ py_str (t_description current_task)) ++
  line ("Original Coding Prompt: " ++ py_str (t_prompt current_task)) ++
  line ("User's Summary of Work: " ++ user_summary) ++
  nl ++
  line ("Return a JSON object with " ++ dq ++ "verified" ++ dq ++
        " (boolean) and " ++ dq ++ "feedback" ++ dq ++ " (string).") ++
  line "If not verified, provide a follow-up question or suggestion." ++
  "    ".

Definition verification_error_message (e : exn) (ai_response : string)
  : string :=
  "Failed to parse AI verification response: " ++ exn_str e ++
  nl ++ nl ++ "Raw response:" ++ nl ++ ai_response.

Definition verification_failed_text (feedback : pyval) : string :=
  "**Verification Failed:** " ++ py_str feedback ++ nl ++
  "Please address the feedback and mark the task as 'done' again with more details.".

Definition handle_task_verification (clk : clock) (user_input : string)
  (gemini_client : GeminiClient) (s : state) : state * outcome :=
  match current_pending (tasks s) with
  | None => (append_chat "assistant" NOTHING_TO_VERIFY s, Returned)
  | Some current_task =>
      let user_summary := user_summary_of user_input in
      let prompt := verification_prompt current_task user_summary in
      let (ai_response, s1) := ask gemini_client prompt s in
      let json_response_str := clean_response ai_response in
      let handler (e : exn) (s' : state) : state * outcome :=
        if caught e
        then (append_chat "assistant"
                (verification_error_message e ai_response) s', Returned)
        else (s', Raised e) in
      match json_loads json_response_str with
      | Err e => handler e s1
      | Ok verification_data =>
          match get_method verification_data "verified" PNone with
          | Err e => handler e s1
          | Ok verified =>
              if truthy verified then
                let s2 := set_tasks (mark_verified (tasks s1)) s1 in
                let s3 := log_event clk "Task Verified"
                            (PDict [("task_id", PInt (t_id current_task));
                                    ("summary", PStr user_summary)]) s2 in
                let s4 := save_project_data s3 in
                let s5 := set_notification
                            ("Task '" ++ py_str (t_description current_task) ++
                             "' verified!") s4 in
                match getitem verification_data "feedback" with
                | Ok feedback =>
                    (append_chat "assistant"
                       ("Great job! Task verified: " ++ py_str feedback) s5,
                     Rerun)
                | Err e => handler e s5
                end
              else
                match get_method verification_data "feedback"
                        (PStr "No specific feedback provided.") with
                | Err e => handler e s1
                | Ok feedback =>
                    let s2 := log_event clk "Verification Failed"
                                (PDict [("task_id", PInt (t_id current_task));
                                        ("summary", PStr user_summary);
                                        ("feedback", feedback)]) s1 in
                    let s3 := save_project_data s2 in
                    (append_chat "assistant"
                       (verification_failed_text feedback) s3, Returned)
                end
          end
      end
  end.

(* ================================================================= *)
(** ** app.py: the chat part of main *)

Definition NOT_CONFIGURED : string :=
  "AI is not configured. Please enter your API key in the sidebar.".

Definition generic_prompt (user_input : string) (ts : list Task) : string :=
  "User query: '" ++ user_input ++ "'. Previous context: " ++
  py_repr (tasks_py ts).

(** [main] from [if user_input:] on; [gemini_client] is [None] when
    [get_gemini_client] raised. *)
Definition main_chat (clk : clock) (gemini_client : option GeminiClient)
  (user_input : string) (s : state) : state * outcome :=
  if String.eqb user_input "" then (s, Returned)
  else
    let s0 := append_chat "user" user_input s in
    match gemini_client with
    | Some client =>
        if contains "what's next" (lower user_input)
        then handle_task_generation clk client s0
        else if startswith "done" (lower user_input)
        then handle_task_verification clk user_input client s0
        else
          let prompt := generic_prompt user_input (tasks s0) in
          let (ai_response, s1) := ask client prompt s0 in
          (append_chat "assistant" ai_response s1, Returned)
    | None => (append_chat "assistant" NOT_CONFIGURED s0, Returned)
    end.

(* ================================================================= *)
(** ** app.py: the dashboard of main *)

(** [next((task for task in reversed(tasks) if task['status'] == 'verified'),
    None)] *)
Definition is_verified (t : Task) : bool := String.eqb (t_status t) "verified".

Definition last_completed_task (ts : list Task) : option Task :=
  List.find is_verified (List.rev ts).

(* ================================================================= *)
(** ** repo_monitor.py *)

(** An event object of watchdog, as far as [on_any_event] reads it. *)
Record FileSystemEvent : Type := mkFsEvent {
  fs_event_type : string;
  fs_src_path : string;
  fs_is_directory : bool
}.

(** The dictionary [event_data], with its keys [event_type], [src_path],
    [is_directory] and [timestamp]. *)
Record EventData : Type := mkEvent {
  event_type : string;
  src_path : string;
  is_directory : bool;
  timestamp : pyfloat
}.

Definition event_to_py (e : EventData) : pyval :=
  PDict [("event_type", PStr (event_type e)); ("src_path", PStr (src_path e));
         ("is_directory", PBool (is_directory e));
         ("timestamp", PFloat (timestamp e))].

(** [RepoChangeHandler.on_any_event]: [Queue.put] appends at the tail of the
    queue. *)
Definition on_any_event (clk : clock) (event : FileSystemEvent)
  (event_queue : list EventData) : list EventData :=
  event_queue ++
  [mkEvent (fs_event_type event) (fs_src_path event) (fs_is_directory event)
           (time_time clk)].

(** An observer thread: the path it is scheduled on and whether it runs.
    The observers that were ever created are kept in a list, and an observer
    object is its position in that list. *)
Record Observer : Type := mkObserver {
  watched_path : string;
  alive : bool
}.

Definition is_alive (observer : nat) (observers : list Observer) : bool :=
  match nth_error observers observer with
  | Some o => alive o
  | None => false
  end.

(** [observer.stop()] followed by [observer.join()] *)
Fixpoint stop_join (observer : nat) (observers : list Observer)
  : list Observer :=
  match observers, observer with
  | [], _ => []
  | o :: os, O => mkObserver (watched_path o) false :: os
  | o :: os, S k => o :: stop_join k os
  end.

(** [start_monitoring]: [schedule] and [start] raise when the path cannot be
    watched, which [can_watch] decides; no thread runs then.  The handler
    of the new observer puts its events on the queue of the session, see
    [on_any_event]. *)
Definition start_monitoring (can_watch : string -> bool) (path : string)
  (observers : list Observer) : option (nat * list Observer) :=
  if can_watch path
  then Some (List.length observers,
             (observers ++ [mkObserver path true])%list)
  else None.

(** [stop_monitoring]; [None] is the Python [None]. *)
Definition stop_monitoring (observer : option nat) (observers : list Observer)
  : list Observer :=
  match observer with
  | Some h => if is_alive h observers then stop_join h observers else observers
  | None => observers
  end.

(* ================================================================= *)
(** ** app.py: main *)

(** [os.path.basename] of [posixpath]: what follows the last slash. *)
Fixpoint basename (p : string) : string :=
  match p with
  | EmptyString => EmptyString
  | String c p' =>
      if (count_char "/" p' =? 0)%nat
      then (if Ascii.eqb c "/" then p' else p)
      else basename p'
  end.

(** [st.session_state] with what lives outside it: the observer threads, the
    configuration file and the toasts shown so far.  [app_state] holds the chat
    history, the tasks, the logs and the notification. *)
Record session : Type := mkSession {
  app_state : state;
  repo_event_queue : list EventData;
  repo_observer : option nat;
  monitoring_path : option string;
  observers : list Observer;
  config_file : option string;
  toasts : list string
}.

(** What one run of the script reads from its widgets and its environment:
    the two text inputs, the button, the chat input ([None] when nothing was
    submitted), the variable [GEMINI_API_KEY], the [genai] library, the file
    system, and the clock at the three places that read it. *)
Record inputs : Type := mkInputs {
  in_repo_path : string;
  in_api_key : string;
  in_save : bool;
  in_user_input : option string;
  env_getenv : option string;
  env_genai : string -> backend;
  env_isdir : string -> bool;
  env_can_watch : string -> bool;
  at_setup : clock;
  at_event : clock;
  at_chat : clock
}.

Definition CONFIG_PATH : string := "ai_project_manager/config.json".

Definition with_app (a : state) (x : session) : session :=
  mkSession a (repo_event_queue x) (repo_observer x) (monitoring_path x)
            (observers x) (config_file x) (toasts x).

(** Lines 44, 63 and 64: the configuration is loaded and [config.get] is
    called on it twice. *)
Definition load_config (x : session) : result pyval :=
  config <- load_json (config_file x) ;;
  _ <- get_method config "repo_path" (PStr "") ;;
  _ <- get_method config "api_key" (PStr "") ;;
  Ok config.

(** [config[key] = value] *)
Definition setitem (v : pyval) (key : string) (value : pyval) : result pyval :=
  match v with
  | PDict d => Ok (PDict (dict_set key value d))
  | PList _ => Err (TypeError "list indices must be integers or slices, not str")
  | PStr _ => Err (TypeError "'str' object does not support item assignment")
  | PNone => Err (TypeError "'NoneType' object does not support item assignment")
  | PBool _ => Err (TypeError "'bool' object does not support item assignment")
  | PInt _ => Err (TypeError "'int' object does not support item assignment")
  | PFloat _ => Err (TypeError "'float' object does not support item assignment")
  end.

(** The body of [if st.sidebar.button("Save Configuration"):] *)
Definition save_configuration (config : pyval) (i : inputs) (x : session)
  : session * outcome :=
  match (c1 <- setitem config "repo_path" (PStr (in_repo_path i)) ;;
         setitem c1 "api_key" (PStr (in_api_key i))) with
  | Ok config' =>
      let text := json_dump_indent4 config' in
      (mkSession (add_effects [SaveJson CONFIG_PATH text] (app_state x))
                 (repo_event_queue x) (repo_observer x) (monitoring_path x)
                 (observers x) (Some text) (toasts x),
       Rerun)
  | Err e => (x, Raised e)
  end.

(** Lines 75 to 79: [gemini_client] stays [None] when [get_gemini_client]
    raises [ValueError]. *)
Definition main_client (i : inputs) : result (option GeminiClient) :=
  match get_gemini_client (env_genai i) (env_getenv i) (Some (in_api_key i)) with
  | Ok client => Ok (Some client)
  | Err (ValueError _) => Ok None
  | Err e => Err e
  end.

Definition optional_eqb (o : option string) (s : string) : bool :=
  match o with
  | Some s' => String.eqb s' s
  | None => false
  end.

(** Lines 83 to 102, the repository monitoring setup.  [stop_monitoring]
    tests its argument for [None] itself, as line 90 does before the
    call. *)
Definition setup_monitoring (i : inputs) (x : session) : session :=
  let repo_path := in_repo_path i in
  if negb (String.eqb repo_path "") && env_isdir i repo_path then
    if negb (optional_eqb (monitoring_path x) repo_path) then
      let stopped := stop_monitoring (repo_observer x) (observers x) in
      match start_monitoring (env_can_watch i) repo_path stopped with
      | Some (observer, started) =>
          mkSession
            (log_event (at_setup i) "Repo Monitoring Started"
               (PDict [("path", PStr repo_path)]) (app_state x))
            (repo_event_queue x) (Some observer) (Some repo_path) started
            (config_file x) (toasts x)
      | None =>
          mkSession (app_state x) (repo_event_queue x) (repo_observer x)
                    (monitoring_path x) stopped (config_file x) (toasts x)
      end
    else x
  else x.

Definition repo_change_text (event : EventData) : string :=
  "Repo change: " ++ event_type event ++ " on " ++ basename (src_path event).

(** Lines 107 to 111: the first turn of the loop ends the run. *)
Definition process_repo_events (i : inputs) (x : session)
  : session * outcome :=
  match repo_event_queue x with
  | [] => (x, Returned)
  | event :: rest =>
      (mkSession
         (set_notification (repo_change_text event)
            (log_event (at_event i) "Repo Change Detected" (event_to_py event)
               (app_state x)))
         rest (repo_observer x) (monitoring_path x) (observers x)
         (config_file x) (toasts x),
       Rerun)
  end.

(** Lines 141 to 143: the notification is shown as a toast and cleared. *)
Definition show_notification (x : session) : session :=
  match notification (app_state x) with
  | Some n =>
      if String.eqb n "" then x
      else
        mkSession
          (mkState (chat_history (app_state x)) (tasks (app_state x)) (logs (app_state x)) None
                   (storage_file (app_state x)) (effects (app_state x)))
          (repo_event_queue x) (repo_observer x) (monitoring_path x)
          (observers x) (config_file x) (toasts x ++ [n])%list
  | None => x
  end.

(** Lines 158 to 182 *)
Definition chat (gemini_client : option GeminiClient) (i : inputs)
  (x : session) : session * outcome :=
  match in_user_input i with
  | Some user_input =>
      let (a, o) := main_chat (at_chat i) gemini_client user_input (app_state x) in
      (with_app a x, o)
  | None => (x, Returned)
  end.

(** One run of [main] in a session that exists: the session state is
    initialised (lines 48 to 58), so the storage file loaded at line 45 is
    not read again.  The page, the dashboard and the chat history are
    rendered from the state and change nothing; of the rendering only the
    toasts are kept. *)
Definition main (i : inputs) (x : session) : session * outcome :=
  match load_config x with
  | Err e => (x, Raised e)
  | Ok config =>
      if in_save i then save_configuration config i x
      else
        match main_client i with
        | Err e => (x, Raised e)
        | Ok gemini_client =>
            let x1 := setup_monitoring i x in
            match process_repo_events i x1 with
            | (x2, Returned) => chat gemini_client i (show_notification x2)
            | stopped => stopped
            end
        end
  end.

(* ================================================================= *)
(** ** Vocabulary of the properties *)

(** [sub] occurs somewhere in [s]. *)
Definition occurs (sub s : string) : Prop := exists a b, s = a ++ sub ++ b.

(** [s] begins with [p]. *)
Definition begins_with (p s : string) : Prop := exists r, s = p ++ r.

(** The two payloads and the generic text of mock mode, as they are written
    out by [json.dumps]. *)
Definition MOCK_TASK_JSON : string :=
  "{" ++ dq ++ "task_description" ++ dq ++ ": " ++
  dq ++ "Mock task: Implement the user login page." ++ dq ++ ", " ++
  dq ++ "coding_prompt" ++ dq ++ ": " ++
  dq ++ "Create a new Streamlit page for user login with username and password fields." ++
  dq ++ "}".

Definition MOCK_VERIFIED_JSON : string :=
  "{" ++ dq ++ "verified" ++ dq ++ ": true, " ++
  dq ++ "feedback" ++ dq ++ ": " ++
  dq ++ "This looks great. Well done." ++ dq ++ "}".

Definition MOCK_GENERIC : string :=
  "This is a generic mock response for other queries.".

(** The key [get_gemini_client] hands to the constructor: the explicit one
    when it is given, else the one of the environment. *)
Definition selected_key (getenv key : option string) : option string :=
  match key_given key with
  | Some k => Some k
  | None => key_given getenv
  end.

(** A key the constructor accepts. *)
Definition usable (k : string) : bool :=
  negb (String.eqb k "") && negb (String.eqb k PLACEHOLDER_KEY).

Definition failed {A : Type} (r : result A) : Prop := exists e, r = Err e.

Definition count_pending (ts : list Task) : nat :=
  List.length (filter is_pending ts).

(** One call of a reducer, with any clock, client and input. *)
Inductive reducer_step : state -> state -> Prop :=
| step_generate clk client s :
    reducer_step s (fst (handle_task_generation clk client s))
| step_verify clk user_input client s :
    reducer_step s (fst (handle_task_verification clk user_input client s)).

Inductive reducer_steps : state -> state -> Prop :=
| steps_refl s : reducer_steps s s
| steps_snoc s s' s'' :
    reducer_steps s s' -> reducer_step s' s'' -> reducer_steps s s''.

(** The states reached from an empty task list. *)
Definition reachable (s : state) : Prop :=
  exists s0, tasks s0 = [] /\ reducer_steps s0 s.

(** One call of a reducer by a caller that asks for a new task only while
    no task is pending. *)
Inductive disciplined_step : state -> state -> Prop :=
| dstep_generate clk client s :
    current_pending (tasks s) = None ->
    disciplined_step s (fst (handle_task_generation clk client s))
| dstep_verify clk user_input client s :
    disciplined_step s (fst (handle_task_verification clk user_input client s)).

Inductive disciplined_steps : state -> state -> Prop :=
| dsteps_refl s : disciplined_steps s s
| dsteps_snoc s s' s'' :
    disciplined_steps s s' -> disciplined_step s' s'' ->
    disciplined_steps s s''.

(** The ids [first], [first + 1], ... of [n] consecutive tasks. *)
Definition ids_from (first n : nat) : list Z := map Z.of_nat (seq first n).

(** The response a client gives to the prompt of a handler. *)
Definition response_to (client : GeminiClient) (prompt : string) : string :=
  fst (generate_response client prompt).

(** The effects of one call of [generate_response]. *)
Definition call_effects (client : GeminiClient) (prompt : string) : list effect :=
  GenerateResponse prompt ::
  map NetworkRequest (snd (generate_response client prompt)).

(** A client whose backend always answers [text]. *)
Definition scripted_client (text : string) : GeminiClient :=
  mkClient "a-real-key" (Some (fun _ => inl text)).

(** *** The texts on which the decoder of the file is that of CPython *)






(** *** Values of the storage schema *)

Definition digits_ok (s : string) : bool :=
  negb (String.eqb s "") && all_chars is_digit s.

Definition int_part_ok (s : string) : bool :=
  digits_ok s && (String.eqb s "0" || negb (prefix "0" s)).

Definition opt_ok {A : Type} (p : A -> bool) (o : option A) : bool :=
  match o with
  | Some a => p a
  | None => true
  end.

(** A float that equals itself and whose literal is a number of JSON. *)
Definition float_ok (f : pyfloat) : bool :=
  match f with
  | FNaN => false
  | FInf _ => true
  | FLit _ i fr ex =>
      int_part_ok i && opt_ok digits_ok fr &&
      opt_ok (fun e => digits_ok (snd e)) ex &&
      match fr, ex with
      | None, None => false
      | _, _ => true
      end
  end.

Fixpoint keys_unique (ks : list string) : bool :=
  match ks with
  | [] => true
  | k :: ks' => negb (existsb (String.eqb k) ks') && keys_unique ks'
  end.

(** The values of the schema: every float is [float_ok], and the keys of a
    dictionary are distinct, as they are in a Python [dict]. *)
Fixpoint value_ok (v : pyval) : bool :=
  match v with
  | PFloat f => float_ok f
  | PList l => forallb value_ok l
  | PDict d =>
      keys_unique (map fst d) &&
      forallb (fun kv => match kv with (_, x) => value_ok x end) d
  | _ => true
  end.

Definition task_ok (t : Task) : bool :=
  value_ok (t_description t) && value_ok (t_prompt t) &&
  float_ok (t_timestamp t).

Definition log_ok (l : LogEntry) : bool := value_ok (l_details l).

(** The units of [fuel] the decoder spends on a value. *)
Fixpoint weight (v : pyval) : nat :=
  match v with
  | PList l => S (fold_right (fun x a => S (weight x) + a) 0 l)
  | PDict d =>
      S (fold_right (fun kv a => match kv with (_, x) => S (weight x) + a end)
           0 d)
  | _ => 1
  end.

(** A character a number cannot go on with. *)
Definition stops_number (rest : string) : bool :=
  match rest with
  | EmptyString => true
  | String c _ =>
      negb (is_digit c || Ascii.eqb c "." || Ascii.eqb c "e" || Ascii.eqb c "E")
  end.

(** A character an encoded value starts with. *)
Definition value_start (c : ascii) : bool :=
  is_digit c || Ascii.eqb c "-" || Ascii.eqb c DQ || Ascii.eqb c "[" ||
  Ascii.eqb c "{" || Ascii.eqb c "n" || Ascii.eqb c "t" || Ascii.eqb c "f" ||
  Ascii.eqb c "N" || Ascii.eqb c "I".

Definition starts_with (p : ascii -> bool) (s : string) : bool :=
  match s with
  | EmptyString => false
  | String c _ => p c
  end.

(** Induction on values through their lists and dictionaries. *)
Fixpoint pyval_induction (P : pyval -> Prop)
  (HNone : P PNone) (HBool : forall b, P (PBool b)) (HInt : forall z, P (PInt z))
  (HFloat : forall f, P (PFloat f)) (HStr : forall s, P (PStr s))
  (HList : forall l, Forall P l -> P (PList l))
  (HDict : forall d, Forall (fun kv => P (snd kv)) d -> P (PDict d))
  (v : pyval) {struct v} : P v :=
  match v with
  | PNone => HNone
  | PBool b => HBool b
  | PInt z => HInt z
  | PFloat f => HFloat f
  | PStr s => HStr s
  | PList l =>
      HList l
        ((fix all (l : list pyval) : Forall P l :=
            match l with
            | [] => Forall_nil P
            | x :: l' =>
                Forall_cons x
                  (pyval_induction P HNone HBool HInt HFloat HStr HList HDict x)
                  (all l')
            end) l)
  | PDict d =>
      HDict d
        ((fix all (d : list (string * pyval))
            : Forall (fun kv => P (snd kv)) d :=
            match d with
            | [] => Forall_nil _
            | (k, x) :: d' =>
                Forall_cons (k, x)
                  (pyval_induction P HNone HBool HInt HFloat HStr HList HDict x)
                  (all d')
            end) d)
  end.

(** The body of the [try] of [handle_task_generation] up to the two fields
    of the new task. *)
Definition task_fields (ai_response : string) : result (pyval * pyval) :=
  task_data <- json_loads (clean_response ai_response) ;;
  d <- getitem task_data "task_description" ;;
  p <- getitem task_data "coding_prompt" ;;
  Ok (d, p).

(** The task [handle_task_generation] appends, and its log entry. *)
Definition generated_task (clk : clock) (s : state) (d p : pyval) : Task :=
  mkTask (Z.of_nat (List.length (tasks s)) + 1) d p "pending" (time_time clk).

Definition generated_log (clk : clock) (t : Task) : LogEntry :=
  mkLog (time_strftime clk) "Task Generated"
        (PDict [("task_id", PInt (t_id t)); ("description", t_description t)]).

(** The log entries of [handle_task_verification]. *)
Definition verified_log (clk : clock) (t : Task) (user_summary : string)
  : LogEntry :=
  mkLog (time_strftime clk) "Task Verified"
        (PDict [("task_id", PInt (t_id t)); ("summary", PStr user_summary)]).

Definition failed_log (clk : clock) (t : Task) (user_summary : string)
  (feedback : pyval) : LogEntry :=
  mkLog (time_strftime clk) "Verification Failed"
        (PDict [("task_id", PInt (t_id t)); ("summary", PStr user_summary);
                ("feedback", feedback)]).

(** The text of the storage file for a task list and a log list. *)
Definition storage_text (ts : list Task) (ls : list LogEntry) : string :=
  json_dump_indent4 (PDict [("tasks", tasks_py ts); ("logs", logs_py ls)]).


(** [s'] is [s] with the effects [extra] recorded and one assistant message
    appended to the chat history, and nothing else changed. *)
Definition only_chat_added (s s' : state) (extra : list effect)
  (message : string) : Prop :=
  tasks s' = tasks s /\
  logs s' = logs s /\
  notification s' = notification s /\
  storage_file s' = storage_file s /\
  effects s' = (effects s ++ extra)%list /\
  chat_history s' = (chat_history s ++ [("assistant", message)])%list.

(** The task [t] with its status set to verified. *)
Definition verified_copy (t : Task) : Task :=
  mkTask (t_id t) (t_description t) (t_prompt t) "verified" (t_timestamp t).

(** A state with one pending task, as the mock backend makes it. *)
Definition pending_task : Task :=
  mkTask 1 (PStr "Implement login page") (PStr "Create the login form.")
         "pending" (FLit false "1730650000" (Some "5") None).
Definition pending_state : state := mkState [] [pending_task] [] None None [].

(** *** Vocabulary of the decoding proof *)

(** The fraction and the exponent of a float literal as they are printed. *)
Definition frac_text (fr : option string) : string :=
  match fr with Some d => "." ++ d | None => "" end.

Definition exp_text (ex : option (bool * string)) : string :=
  match ex with
  | Some (eneg, d) => "e" ++ (if eneg then "-" else "+") ++ d
  | None => ""
  end.

(** The chunk of one dictionary item. *)
Definition encode_pair (indent : option nat) (level : nat)
  (kv : string * pyval) : string :=
  match kv with
  | (k, x) =>
      encode_basestring_ascii k ++ key_separator ++ iterencode indent level x
  end.

Definition items_weight (l : list pyval) : nat :=
  fold_right (fun x a => S (weight x) + a) 0 l.

Definition pairs_weight (d : list (string * pyval)) : nat :=
  fold_right (fun kv a => match kv with (_, x) => S (weight x) + a end) 0 d.

(** The scanner reads the value back from its encoding, followed by any text
    a number cannot go on with, at any indentation, given fuel for its
    weight. *)
Definition decodes (v : pyval) : Prop :=
  value_ok v = true ->
  forall indent level fuel rest,
    weight v <= fuel ->
    stops_number rest = true ->
    scan_once fuel (iterencode indent level v ++ rest) = Scanned v rest.

(** The encoding is at least as long as the weight. *)
Definition fits (v : pyval) : Prop :=
  value_ok v = true ->
  forall indent level, weight v <= length (iterencode indent level v).

(** The dummy-key client, a state with nothing in it and one clock reading. *)
Definition mock_client : GeminiClient := mkClient DUMMY_KEY None.
Definition empty_state : state := mkState [] [] [] None None [].
Definition clock0 : clock :=
  mkClock (FLit false "1730650000" (Some "5") None) "2024-11-03 16:06:40".

(** *** Vocabulary of the whole program *)

(** The store and the storage file agree. *)
Definition in_sync (s : state) : Prop :=
  storage_file s = Some (storage_text (tasks s) (logs s)).

(** What happens to a session: the watchdog thread puts an event on the
    queue, or the script runs once. *)
Inductive action : Type :=
| Put (clk : clock) (event : FileSystemEvent)
| Run (i : inputs).

Definition act (a : action) (x : session) : session :=
  match a with
  | Put clk event =>
      mkSession (app_state x) (on_any_event clk event (repo_event_queue x))
                (repo_observer x) (monitoring_path x) (observers x)
                (config_file x) (toasts x)
  | Run i => fst (main i x)
  end.

Definition run (acts : list action) (x : session) : session :=
  fold_left (fun x a => act a x) acts x.

(** The events the actions put on the queue, in their order. *)
Definition put_events (acts : list action) : list EventData :=
  flat_map (fun a => match a with
                     | Put clk event => on_any_event clk event []
                     | Run _ => []
                     end) acts.

Definition is_change (l : LogEntry) : bool :=
  String.eqb (l_event l) "Repo Change Detected".

(** The repository events a log list records. *)
Definition logged_events (ls : list LogEntry) : list pyval :=
  map l_details (filter is_change ls).

(** A session at its start: nothing queued, nothing watched, nothing shown. *)
Definition fresh_session (a : state) (config : option string) : session :=
  mkSession a [] None None [] config [].

(** What [generate_response] returns when the library raises, before the
    text of the exception; and the message of the decoder for a text that
    starts with no value. *)
Definition TRANSPORT_ERROR : string :=
  "An error occurred while communicating with the Gemini API: ".
Definition NO_VALUE : string := "Expecting value: line 1 column 1 (char 0)".

(** The trigger phrases of the mock backend. *)
Definition GENERATION_TRIGGER : string := "generate the next logical task".
Definition VERIFICATION_TRIGGER : string := "A task was marked as completed".

Definition MOCK_DESCRIPTION : pyval :=
  PStr "Mock task: Implement the user login page.".
Definition MOCK_PROMPT : pyval :=
  PStr "Create a new Streamlit page for user login with username and password fields.".
Definition MOCK_FEEDBACK : pyval := PStr "This looks great. Well done.".
Definition NO_FEEDBACK : pyval := PStr "No specific feedback provided.".

(** Every observer thread that runs is the one the session holds, and it
    watches the path the session records. *)
Definition monitored (x : session) : Prop :=
  forall h o,
    nth_error (observers x) h = Some o -> alive o = true ->
    repo_observer x = Some h /\ monitoring_path x = Some (watched_path o).

(** A run in which nothing is typed or clicked, and an event of watchdog. *)
Definition idle_inputs : inputs :=
  mkInputs "" "" false None None (fun _ _ => inl "") (fun _ => true)
           (fun _ => true) clock0 clock0 clock0.

Definition modified_event : EventData :=
  mkEvent "modified" "/repo/src/app.py" false (time_time clock0).

Definition created_event : EventData :=
  mkEvent "created" "/repo/notes/todo.txt" false (time_time clock0).

(** The order of a task list: the verified tasks come first, the pending
    ones after them, and the ids count from 1. *)
Definition in_order (ts : list Task) : Prop :=
  (exists done todo,
     ts = (done ++ todo)%list /\
     Forall (fun t => t_status t = "verified") done /\
     Forall (fun t => t_status t = "pending") todo) /\
  map t_id ts = ids_from 1 (List.length ts).

(** [l] begins with [l0]. *)
Definition extends {A : Type} (l0 l : list A) : Prop :=
  exists new, l = (l0 ++ new)%list.

(** From [s] to [s'] the logs and the chat history only grow at their end,
    the tasks keep their ids and new ones get the next ids, and a verified
    task stays in the list as it is. *)
Definition state_grows (s s' : state) : Prop :=
  extends (logs s) (logs s') /\
  extends (chat_history s) (chat_history s') /\
  (exists k,
     map t_id (tasks s') =
     (map t_id (tasks s) ++ ids_from (S (List.length (tasks s))) k)%list) /\
  (forall t, In t (tasks s) -> t_status t = "verified" -> In t (tasks s')).

(** A text as a model wraps it in a Markdown fence, and a text without a
    backquote. *)
Definition fenced (text : string) : string :=
  "```json" ++ nl ++ text ++ nl ++ "```".

Definition no_backquote (s : string) : bool :=
  all_chars (fun c => negb (Ascii.eqb c "`")) s.

(** The log accounts for the tasks: one "Task Generated" entry for each
    task, one "Task Verified" entry for each verified task. *)
Definition count_event (e : string) (ls : list LogEntry) : nat :=
  List.length (filter (fun l => String.eqb (l_event l) e) ls).

Definition count_verified (ts : list Task) : nat :=
  List.length (filter is_verified ts).

Definition accounted (ts : list Task) (ls : list LogEntry) : Prop :=
  count_event "Task Generated" ls = List.length ts /\
  count_event "Task Verified" ls = count_verified ts.

(* ================================================================= *)
(** * Properties *)

(** ** Text *)

Lemma append_assoc (a b c : string) : (a ++ b) ++ c = a ++ (b ++ c).
Proof. induction a as [|x a IH]; simpl; [reflexivity | now rewrite IH]. Qed.

Lemma append_nil_r (a : string) : a ++ "" = a.
Proof. induction a as [|x a IH]; simpl; [reflexivity | now rewrite IH]. Qed.

Lemma length_append (a b : string) : length (a ++ b) = length a + length b.
Proof. induction a as [|x a IH]; simpl; [reflexivity | now rewrite IH]. Qed.

Lemma prefix_nil (s : string) : prefix "" s = true.
Proof. destruct s; reflexivity. Qed.

Lemma prefix_append (p r : string) : prefix p (p ++ r) = true.
Proof.
  induction p as [|c p IH]; simpl.
  - apply prefix_nil.
  - destruct (ascii_dec c c) as [_|n]; [exact IH | now elim n].
Qed.

Lemma prefix_begins (p s : string) : prefix p s = true <-> begins_with p s.
Proof.
  split.
  - revert s. induction p as [|c p IH]; intros s H.
    + exists s. reflexivity.
    + destruct s as [|c' s]; simpl in H; [discriminate|].
      destruct (ascii_dec c c') as [->|]; [|discriminate].
      destruct (IH s H) as [r ->]. exists r. reflexivity.
  - intros [r ->]. apply prefix_append.
Qed.

Lemma contains_occurs (sub s : string) : contains sub s = true <-> occurs sub s.
Proof.
  split.
  - induction s as [|c s IH]; cbn [contains]; intros H;
      apply orb_true_iff in H; destruct H as [H|H].
    + apply prefix_begins in H. destruct H as [r Hr]. exists "", r. exact Hr.
    + discriminate.
    + apply prefix_begins in H. destruct H as [r Hr]. exists "", r. exact Hr.
    + destruct (IH H) as (a & b & ->). exists (String c a), b. reflexivity.
  - intros (a & b & ->). induction a as [|c a IH].
    + change ("" ++ sub ++ b) with (sub ++ b).
      destruct (sub ++ b) eqn:E; cbn [contains]; rewrite <- E;
        rewrite prefix_append; reflexivity.
    + change (String c a ++ sub ++ b) with (String c (a ++ sub ++ b)).
      cbn [contains]. rewrite IH. apply orb_true_r.
Qed.

Lemma startswith_begins (p s : string) :
  startswith p s = true <-> begins_with p s.
Proof. apply prefix_begins. Qed.

Lemma occurs_dec_false (sub s : string) :
  ~ occurs sub s -> contains sub s = false.
Proof.
  intros H. destruct (contains sub s) eqn:E; [|reflexivity].
  elim H. now apply contains_occurs.
Qed.

Lemma begins_dec_false (p s : string) :
  ~ begins_with p s -> startswith p s = false.
Proof.
  intros H. destruct (startswith p s) eqn:E; [|reflexivity].
  elim H. now apply startswith_begins.
Qed.

Lemma eqb_false_of_neq (a b : string) : a <> b -> String.eqb a b = false.
Proof. intros H. now apply String.eqb_neq. Qed.

(** ** The completion adapter *)

Lemma ask_eq (client : GeminiClient) (prompt : string) (s : state) :
  ask client prompt s =
  (response_to client prompt, add_effects (call_effects client prompt) s).
Proof.
  unfold ask, response_to, call_effects.
  destruct (generate_response client prompt) as [text sent]. reflexivity.
Qed.

Lemma mock_task_json_eq :
  json_dumps (PDict
    [("task_description", PStr "Mock task: Implement the user login page.");
     ("coding_prompt",
      PStr "Create a new Streamlit page for user login with username and password fields.")])
  = MOCK_TASK_JSON.
Proof. vm_compute. reflexivity. Qed.

Lemma mock_verified_json_eq :
  json_dumps (PDict [("verified", PBool true);
                     ("feedback", PStr "This looks great. Well done.")])
  = MOCK_VERIFIED_JSON.
Proof. vm_compute. reflexivity. Qed.

Lemma dummy_client_response (c : GeminiClient) (prompt : string) :
  api_key c = DUMMY_KEY ->
  generate_response c prompt = (_get_mock_response prompt, []).
Proof. intros H. unfold generate_response. rewrite H. reflexivity. Qed.

Lemma init_fails_iff (genai : string -> backend) (k : string) :
  failed (GeminiClient_init genai k) <-> k = "" \/ k = PLACEHOLDER_KEY.
Proof.
  unfold GeminiClient_init, failed.
  destruct (String.eqb_spec k "") as [->|H0].
  - cbn. split; [now left | intros _; eexists; reflexivity].
  - destruct (String.eqb_spec k PLACEHOLDER_KEY) as [->|H1].
    + cbn. split; [now right | intros _; eexists; reflexivity].
    + cbn [orb andb]. split.
      * intros [e He]. discriminate He.
      * intros [H|H]; contradiction.
Qed.

Lemma init_api_key (genai : string -> backend) (k : string) (c : GeminiClient) :
  GeminiClient_init genai k = Ok c -> api_key c = k.
Proof.
  unfold GeminiClient_init.
  destruct (_ && _); intros H; inversion H; reflexivity.
Qed.

Lemma get_client_selected (genai : string -> backend) (getenv key : option string) :
  get_gemini_client genai getenv key =
  match selected_key getenv key with
  | Some k => GeminiClient_init genai k
  | None => Err (ValueError "API Key for Gemini not found or provided.")
  end.
Proof.
  unfold get_gemini_client, selected_key.
  destruct (key_given key); [reflexivity|].
  destruct (key_given getenv); reflexivity.
Qed.

Lemma key_given_nonempty (k : option string) (s : string) :
  key_given k = Some s -> k = Some s /\ s <> "".
Proof.
  destruct k as [x|]; cbn; [|discriminate].
  destruct (String.eqb_spec x ""); [discriminate|].
  intros H. inversion H. subst. now split.
Qed.

(** ** The reducers, case by case *)

Lemma app_assoc3 {A : Type} (a b c : list A) :
  ((a ++ b) ++ c = a ++ b ++ c)%list.
Proof. symmetry. apply app_assoc. Qed.

(** Unfolds the state updates down to the record fields. *)
Ltac state_simpl :=
  unfold set_notification, append_chat, save_project_data, save_json,
    storage_data, log_event, set_tasks, add_effects in *;
  cbn [chat_history tasks logs notification storage_file effects fst snd] in *.

Lemma generation_unfold (clk : clock) (client : GeminiClient) (s : state) :
  let prompt := generation_prompt (tasks s) in
  let ai := response_to client prompt in
  let s1 := add_effects (call_effects client prompt) s in
  handle_task_generation clk client s =
  match task_fields ai with
  | Ok (d, p) =>
      let t := generated_task clk s d p in
      (mkState (chat_history s ++ [("assistant", generation_response_text t)])
               (tasks s ++ [t]) (logs s ++ [generated_log clk t])
               (Some "New task generated!")
               (Some (storage_text (tasks s ++ [t])
                                   (logs s ++ [generated_log clk t])))
               (effects s ++ call_effects client prompt ++
                [SaveJson STORAGE_PATH
                   (storage_text (tasks s ++ [t])
                                 (logs s ++ [generated_log clk t]))]),
       Rerun)
  | Err e =>
      if caught e
      then (append_chat "assistant" (generation_error_message e ai) s1, Returned)
      else (s1, Raised e)
  end.
Proof.
  intros prompt ai s1. unfold handle_task_generation.
  rewrite ask_eq. fold prompt ai s1.
  change (bind (json_loads (clean_response ai)) _) with (task_fields ai).
  destruct (task_fields ai) as [[d p]|e]; [|reflexivity].
  subst s1. state_simpl.
  unfold storage_text, generated_log, generated_task. cbn [t_id t_description].
  rewrite app_assoc3. reflexivity.
Qed.

Lemma verification_unfold (clk : clock) (user_input : string)
  (client : GeminiClient) (s : state) (t : Task) :
  current_pending (tasks s) = Some t ->
  let summary := user_summary_of user_input in
  let prompt := verification_prompt t summary in
  let ai := response_to client prompt in
  let s1 := add_effects (call_effects client prompt) s in
  let handler := fun (e : exn) (s' : state) =>
    if caught e
    then (append_chat "assistant" (verification_error_message e ai) s', Returned)
    else (s', Raised e) in
  handle_task_verification clk user_input client s =
  match json_loads (clean_response ai) with
  | Err e => handler e s1
  | Ok data =>
      match get_method data "verified" PNone with
      | Err e => handler e s1
      | Ok verified =>
          if truthy verified then
            let ts := mark_verified (tasks s) in
            let ls := (logs s ++ [verified_log clk t summary])%list in
            let s5 :=
              mkState (chat_history s) ts ls
                (Some ("Task '" ++ py_str (t_description t) ++ "' verified!"))
                (Some (storage_text ts ls))
                (effects s ++ call_effects client prompt ++
                 [SaveJson STORAGE_PATH (storage_text ts ls)]) in
            match getitem data "feedback" with
            | Ok feedback =>
                (append_chat "assistant"
                   ("Great job! Task verified: " ++ py_str feedback) s5, Rerun)
            | Err e => handler e s5
            end
          else
            match get_method data "feedback"
                    (PStr "No specific feedback provided.") with
            | Err e => handler e s1
            | Ok feedback =>
                let ls := (logs s ++ [failed_log clk t summary feedback])%list in
                (mkState
                   (chat_history s ++
                    [("assistant", verification_failed_text feedback)])
                   (tasks s) ls (notification s)
                   (Some (storage_text (tasks s) ls))
                   (effects s ++ call_effects client prompt ++
                    [SaveJson STORAGE_PATH (storage_text (tasks s) ls)]),
                 Returned)
            end
      end
  end.
Proof.
  intros Hp summary prompt ai s1 handler. unfold handle_task_verification.
  rewrite Hp. fold summary prompt. rewrite ask_eq. fold ai s1.
  destruct (json_loads (clean_response ai)) as [data|e]; [|reflexivity].
  destruct (get_method data "verified" PNone) as [verified|e]; [|reflexivity].
  destruct (truthy verified).
  - subst s1. state_simpl. unfold storage_text, verified_log.
    rewrite app_assoc3.
    destruct (getitem data "feedback"); reflexivity.
  - destruct (get_method data "feedback" _) as [feedback|e]; [|reflexivity].
    subst s1. state_simpl. unfold storage_text, failed_log.
    rewrite app_assoc3. reflexivity.
Qed.

Lemma current_pending_none (ts : list Task) :
  (forall t, In t ts -> t_status t <> "pending") -> current_pending ts = None.
Proof.
  induction ts as [|t ts IH]; intros H; [reflexivity|].
  cbn. unfold is_pending.
  rewrite (eqb_false_of_neq _ _ (H t (or_introl eq_refl))).
  apply IH. intros t' Ht'. apply H. now right.
Qed.

(** ** Dispatch of the chat input *)

Lemma generation_prompt_head (ts : list Task) :
  take 6 (generation_prompt ts) = nl ++ "    B".
Proof. reflexivity. Qed.

Lemma verification_prompt_head (t : Task) (summary : string) :
  take 6 (verification_prompt t summary) = nl ++ "    A".
Proof. reflexivity. Qed.

Lemma prompts_differ (ts : list Task) (t : Task) (summary : string) :
  generation_prompt ts <> verification_prompt t summary.
Proof.
  intros H. apply (f_equal (take 6)) in H.
  rewrite generation_prompt_head, verification_prompt_head in H.
  discriminate H.
Qed.

Lemma call_effects_prompt (client : GeminiClient) (q p : string) :
  In (GenerateResponse p) (call_effects client q) -> p = q.
Proof.
  unfold call_effects. intros [H|H].
  - now inversion H.
  - apply in_map_iff in H. destruct H as (x & Hx & _). discriminate Hx.
Qed.

Lemma generation_effects (clk : clock) (client : GeminiClient) (s : state) :
  exists saved,
    effects (fst (handle_task_generation clk client s)) =
      (effects s ++ call_effects client (generation_prompt (tasks s)) ++ saved)%list /\
    forall e, In e saved -> exists text, e = SaveJson STORAGE_PATH text.
Proof.
  rewrite generation_unfold.
  destruct (task_fields _) as [[d p]|e].
  - eexists. split; [reflexivity|].
    intros e [<-|[]]. eexists. reflexivity.
  - exists []. split; [|intros e' []].
    destruct (caught e); state_simpl; now rewrite List.app_nil_r.
Qed.

Lemma occurs_nonempty (sub s : string) :
  sub <> "" -> occurs sub (lower s) -> s <> "".
Proof.
  intros Hsub (a & b & H) ->. cbn in H.
  destruct a; cbn in H; [|discriminate H].
  destruct sub; [now elim Hsub | discriminate H].
Qed.

Lemma dispatch_by_text (clk : clock) (client : GeminiClient)
  (user_input : string) (s : state) :
  user_input <> "" ->
  (occurs "what's next" (lower user_input) ->
   main_chat clk (Some client) user_input s =
   handle_task_generation clk client (append_chat "user" user_input s)) /\
  (~ occurs "what's next" (lower user_input) ->
   begins_with "done" (lower user_input) ->
   main_chat clk (Some client) user_input s =
   handle_task_verification clk user_input client
     (append_chat "user" user_input s)).
Proof.
  intros Hne. unfold main_chat. rewrite (eqb_false_of_neq _ _ Hne). split.
  - intros H. apply contains_occurs in H. now rewrite H.
  - intros H1 H2. apply occurs_dec_false in H1.
    apply startswith_begins in H2. now rewrite H1, H2.
Qed.

(** ** Malformed backend output *)



(** ** The pending task *)

Lemma count_pending_app (ts us : list Task) :
  count_pending (ts ++ us) = count_pending ts + count_pending us.
Proof. unfold count_pending. now rewrite filter_app, length_app. Qed.

Lemma current_pending_count (ts : list Task) :
  current_pending ts = None <-> count_pending ts = 0.
Proof.
  unfold count_pending.
  induction ts as [|t ts IH]; cbn; [tauto|].
  destruct (is_pending t); cbn; [split; discriminate | exact IH].
Qed.

Lemma mark_verified_split (ts : list Task) (t : Task) :
  current_pending ts = Some t ->
  exists before after,
    ts = (before ++ t :: after)%list /\
    Forall (fun x => is_pending x = false) before /\
    is_pending t = true /\
    mark_verified ts = (before ++ verified_copy t :: after)%list.
Proof.
  induction ts as [|x ts IH]; cbn; [discriminate|].
  destruct (is_pending x) eqn:E.
  - intros H. inversion H. subst x. exists [], ts. repeat split; auto.
  - intros H. destruct (IH H) as (before & after & -> & Hb & Ht & Hm).
    exists (x :: before), after. rewrite Hm. repeat split; auto.
Qed.

Lemma mark_verified_count (ts : list Task) :
  count_pending (mark_verified ts) = pred (count_pending ts).
Proof.
  unfold count_pending.
  induction ts as [|t ts IH]; cbn; [reflexivity|].
  destruct (is_pending t) eqn:E; cbn.
  - reflexivity.
  - rewrite E. exact IH.
Qed.

Lemma mark_verified_ids (ts : list Task) :
  map t_id (mark_verified ts) = map t_id ts.
Proof.
  induction ts as [|t ts IH]; cbn; [reflexivity|].
  destruct (is_pending t); cbn; [reflexivity | now rewrite IH].
Qed.

Lemma generation_tasks (clk : clock) (client : GeminiClient) (s : state) :
  tasks (fst (handle_task_generation clk client s)) = tasks s \/
  exists d p,
    tasks (fst (handle_task_generation clk client s)) =
    (tasks s ++ [generated_task clk s d p])%list.
Proof.
  rewrite generation_unfold.
  destruct (task_fields _) as [[d p]|e].
  - right. exists d, p. reflexivity.
  - left. destruct (caught e); reflexivity.
Qed.

Lemma verification_tasks (clk : clock) (user_input : string)
  (client : GeminiClient) (s : state) :
  tasks (fst (handle_task_verification clk user_input client s)) = tasks s \/
  tasks (fst (handle_task_verification clk user_input client s)) =
    mark_verified (tasks s).
Proof.
  destruct (current_pending (tasks s)) as [t|] eqn:Hp.
  - rewrite (verification_unfold clk user_input client s t Hp).
    destruct (json_loads _) as [data|e].
    + destruct (get_method data "verified" PNone) as [v|e].
      * destruct (truthy v).
        -- right. destruct (getitem data "feedback") as [fb|e];
             [reflexivity | destruct (caught e); reflexivity].
        -- left. destruct (get_method data "feedback" _) as [fb|e];
             [reflexivity | destruct (caught e); reflexivity].
      * left. destruct (caught e); reflexivity.
    + left. destruct (caught e); reflexivity.
  - left. unfold handle_task_verification. rewrite Hp. reflexivity.
Qed.

Lemma disciplined_invariant (s0 s : state) :
  tasks s0 = [] -> disciplined_steps s0 s -> count_pending (tasks s) <= 1.
Proof.
  intros H0 Hs. induction Hs as [s | s s' s'' Hs IH Hstep].
  - rewrite H0. cbn. lia.
  - specialize (IH H0). destruct Hstep as [clk client s' Hp | clk ui client s'].
    + apply current_pending_count in Hp.
      destruct (generation_tasks clk client s') as [-> | (d & p & ->)].
      * exact IH.
      * rewrite count_pending_app, Hp. cbn. lia.
    + destruct (verification_tasks clk ui client s') as [-> | ->].
      * exact IH.
      * rewrite mark_verified_count. lia.
Qed.

(** ** Generation of the next task *)

Lemma task_fields_present (ai : string) (data : list (string * pyval))
  (d p : pyval) :
  json_loads (clean_response ai) = Ok (PDict data) ->
  dict_get "task_description" data = Some d ->
  dict_get "coding_prompt" data = Some p ->
  task_fields ai = Ok (d, p).
Proof.
  intros Hj Hd Hp. unfold task_fields. rewrite Hj. cbn [bind getitem].
  rewrite Hd. cbn [bind]. rewrite Hp. reflexivity.
Qed.

Lemma ids_from_snoc (first n : nat) :
  ids_from first (S n) = (ids_from first n ++ [Z.of_nat (first + n)])%list.
Proof. unfold ids_from. now rewrite seq_S, map_app. Qed.


Lemma step_ids (s s' : state) :
  reducer_step s s' ->
  map t_id (tasks s') = map t_id (tasks s) \/
  map t_id (tasks s') =
    (map t_id (tasks s) ++ [Z.of_nat (S (List.length (tasks s)))])%list.
Proof.
  intros [clk client s0 | clk ui client s0].
  - destruct (generation_tasks clk client s0) as [-> | (d & p & ->)];
      [now left|].
    right. rewrite map_app. cbn. f_equal. f_equal. lia.
  - destruct (verification_tasks clk ui client s0) as [-> | ->];
      [now left|].
    left. apply mark_verified_ids.
Qed.

Lemma steps_ids (s s' : state) :
  reducer_steps s s' ->
  exists k,
    map t_id (tasks s') =
      (map t_id (tasks s) ++ ids_from (S (List.length (tasks s))) k)%list.
Proof.
  intros Hs. induction Hs as [s | s s' s'' Hs IH Hstep].
  - exists 0. cbn. now rewrite List.app_nil_r.
  - destruct IH as [k Hk].
    assert (Hlen : List.length (tasks s') = List.length (tasks s) + k).
    { rewrite <- (length_map t_id (tasks s')), Hk, length_app, length_map.
      unfold ids_from. now rewrite length_map, length_seq. }
    destruct (step_ids s' s'' Hstep) as [H|H].
    + exists k. now rewrite H.
    + exists (S k). rewrite H, Hk, ids_from_snoc, <- app_assoc.
      do 3 f_equal. lia.
Qed.

(** ** The verification prompt *)

Lemma occurs_line (a b rest1 rest2 : string) :
  occurs (a ++ b) (rest1 ++ line (a ++ b) ++ rest2).
Proof.
  exists (rest1 ++ "    "), (nl ++ rest2). unfold line.
  rewrite !append_assoc. reflexivity.
Qed.

Lemma verification_effects (clk : clock) (user_input : string)
  (client : GeminiClient) (s : state) (t : Task) :
  current_pending (tasks s) = Some t ->
  exists saved,
    effects (fst (handle_task_verification clk user_input client s)) =
      (effects s ++
       call_effects client (verification_prompt t (user_summary_of user_input))
       ++ saved)%list.
Proof.
  intros Hp. rewrite (verification_unfold clk user_input client s t Hp).
  destruct (json_loads _) as [data|e].
  - destruct (get_method data "verified" PNone) as [v|e].
    + destruct (truthy v).
      * destruct (getitem data "feedback") as [fb|e];
          [|destruct (caught e)]; eexists; reflexivity.
      * destruct (get_method data "feedback" _) as [fb|e];
          [eexists; reflexivity|].
        exists []. destruct (caught e); state_simpl; now rewrite List.app_nil_r.
    + exists []. destruct (caught e); state_simpl; now rewrite List.app_nil_r.
  - exists []. destruct (caught e); state_simpl; now rewrite List.app_nil_r.
Qed.

Section JsonText.

(** ** The storage file: decoding what the encoder wrote *)

Lemma scanstring_escape_char (c a : ascii) (start t : string) :
  scanstring start (escape_char c ++ String a t) =
  cons_scanned c (scanstring start (String a t)).
Proof.
  destruct c as [[] [] [] [] [] [] [] []]; reflexivity.
Qed.

Lemma escape_body_quote (s rest : string) :
  exists a t, escape_body s ++ String DQ rest = String a t.
Proof. destruct (escape_body s) as [|a t]; eexists; eexists; reflexivity. Qed.

Lemma scanstring_escape_body (s start rest : string) :
  scanstring start (escape_body s ++ String DQ rest) = Scanned s rest.
Proof.
  induction s as [|c s IH].
  - reflexivity.
  - cbn [escape_body]. rewrite append_assoc.
    destruct (escape_body_quote s rest) as (a & t & E).
    rewrite E, scanstring_escape_char, <- E, IH. reflexivity.
Qed.

Ltac char_cases c := destruct c as [[] [] [] [] [] [] [] []].

#[local] Arguments Ascii.eqb : simpl never.

(** Evaluates the comparisons of two character literals. *)
Ltac eval_chars :=
  repeat match goal with
  | |- context [Ascii.eqb ?a ?b] =>
      let v := eval vm_compute in (Ascii.eqb a b) in
      lazymatch v with
      | true => change (Ascii.eqb a b) with true
      | false => change (Ascii.eqb a b) with false
      end
  | |- context [is_ws ?a] =>
      let v := eval vm_compute in (is_ws a) in
      lazymatch v with
      | true => change (is_ws a) with true
      | false => change (is_ws a) with false
      end
  end.

Lemma digit_char (c : ascii) :
  is_digit c = true ->
  Ascii.eqb "-" c = false /\ Ascii.eqb "." c = false /\
  Ascii.eqb "+" c = false /\ Ascii.eqb c "e" = false /\
  Ascii.eqb c "E" = false /\ is_ws c = false /\ value_start c = true /\
  (Ascii.eqb c "0" = false -> between 49 57 c = true).
Proof.
  intros H. char_cases c; vm_compute in H; try discriminate H;
    vm_compute; repeat split; intros; congruence.
Qed.

Lemma nonzero_digit_char (c : ascii) :
  between 49 57 c = true -> Ascii.eqb c "0" = false /\ is_digit c = true.
Proof.
  intros H. char_cases c; vm_compute in H; try discriminate H;
    vm_compute; split; reflexivity.
Qed.

Lemma value_start_char (c : ascii) :
  value_start c = true ->
  is_ws c = false /\ Ascii.eqb "]" c = false /\ Ascii.eqb "}" c = false /\
  Ascii.eqb "," c = false /\ Ascii.eqb ":" c = false.
Proof.
  intros H. char_cases c; vm_compute in H; try discriminate H;
    vm_compute; repeat split.
Qed.

Lemma span_digits_app (d rest : string) :
  all_chars is_digit d = true ->
  starts_with is_digit rest = false ->
  span_digits (d ++ rest) = (d, rest).
Proof.
  intros Hd Hr. induction d as [|c d IH].
  - destruct rest as [|c t]; [reflexivity|].
    cbn in Hr |- *. now rewrite Hr.
  - cbn in Hd. apply andb_true_iff in Hd. destruct Hd as [Hc Hd].
    cbn. rewrite Hc, (IH Hd). reflexivity.
Qed.

Lemma digits_lead (i : string) :
  digits_ok i = true ->
  exists c t, i = String c t /\ is_digit c = true /\
              all_chars is_digit t = true.
Proof.
  unfold digits_ok. intros H. apply andb_true_iff in H. destruct H as [Hn Ha].
  destruct i as [|c t]; [discriminate Hn|].
  cbn in Ha. apply andb_true_iff in Ha. destruct Ha as [Hc Ht].
  now exists c, t.
Qed.

Lemma match_int_digits (i rest : string) :
  int_part_ok i = true ->
  starts_with is_digit rest = false ->
  match_int (i ++ rest) = Some (i, rest).
Proof.
  unfold int_part_ok. intros H Hr.
  apply andb_true_iff in H. destruct H as [Hd Hz].
  destruct (digits_lead i Hd) as (c & t & -> & Hc & Ht).
  apply orb_true_iff in Hz. destruct Hz as [Hz|Hz].
  - apply String.eqb_eq in Hz. inversion Hz. reflexivity.
  - cbn in Hz. destruct (ascii_dec "0" c) as [<-|Hn].
    + rewrite prefix_nil in Hz. discriminate Hz.
    + assert (Hc0 : Ascii.eqb c "0" = false).
      { apply Ascii.eqb_neq. congruence. }
      destruct (digit_char c Hc) as (_ & _ & _ & _ & _ & _ & _ & Hb).
      cbn. rewrite Hc0, (Hb Hc0), (span_digits_app t rest Ht Hr). reflexivity.
Qed.

Lemma stops_number_facts (rest : string) :
  stops_number rest = true ->
  starts_with is_digit rest = false /\
  head_is "." rest = None /\
  match_frac rest = None /\
  match_exp rest = None.
Proof.
  destruct rest as [|c t]; [repeat split|].
  cbn. intros H. apply negb_true_iff in H.
  apply orb_false_iff in H. destruct H as [H HE].
  apply orb_false_iff in H. destruct H as [H He].
  apply orb_false_iff in H. destruct H as [Hd Hp].
  unfold match_frac. cbn. rewrite Ascii.eqb_sym, Hp, He, HE. repeat split; auto.
Qed.

Lemma match_exp_text (ex : option (bool * string)) (rest : string) :
  opt_ok (fun e => digits_ok (snd e)) ex = true ->
  stops_number rest = true ->
  match_exp (exp_text ex ++ rest) =
  match ex with
  | Some e => Some (e, rest)
  | None => None
  end /\
  starts_with is_digit (exp_text ex ++ rest) = false /\
  head_is "." (exp_text ex ++ rest) = None.
Proof.
  intros Hex Hr.
  destruct (stops_number_facts rest Hr) as (Hr1 & Hr2 & _ & Hr4).
  destruct ex as [[eneg d]|]; [|cbn; auto].
  cbn in Hex. destruct (digits_lead d Hex) as (c & t & -> & Hc & Ht).
  destruct (digit_char c Hc) as (Hm & _ & Hp & _).
  split; [|split; reflexivity].
  destruct eneg; cbn; eval_chars; cbn;
    rewrite Hc, (span_digits_app t rest Ht Hr1); reflexivity.
Qed.

Lemma match_frac_text (fr : option string) (rest : string) :
  opt_ok digits_ok fr = true ->
  starts_with is_digit rest = false ->
  head_is "." rest = None ->
  match_frac (frac_text fr ++ rest) =
  match fr with
  | Some d => Some (d, rest)
  | None => None
  end /\
  starts_with is_digit (frac_text fr ++ rest) = false.
Proof.
  intros Hfr Hr Hp. destruct fr as [d|].
  - cbn in Hfr. destruct (digits_lead d Hfr) as (c & t & -> & Hc & Ht).
    split; [|reflexivity].
    unfold match_frac. cbn. eval_chars. cbn.
    rewrite Hc, (span_digits_app t rest Ht Hr). reflexivity.
  - cbn. unfold match_frac. rewrite Hp. auto.
Qed.

Lemma float_digits_eq (neg : bool) (i : string) (fr : option string)
  (ex : option (bool * string)) (rest : string) :
  float_digits neg i fr ex ++ rest =
  (if neg then "-" else "") ++ i ++ frac_text fr ++ exp_text ex ++ rest.
Proof.
  unfold float_digits, frac_text, exp_text.
  destruct ex as [[eneg d]|]; rewrite !append_assoc; reflexivity.
Qed.

Lemma match_number_literal (neg : bool) (i : string) (fr : option string)
  (ex : option (bool * string)) (rest : string) :
  int_part_ok i = true ->
  opt_ok digits_ok fr = true ->
  opt_ok (fun e => digits_ok (snd e)) ex = true ->
  stops_number rest = true ->
  match_number (float_digits neg i fr ex ++ rest) =
  Some (match fr, ex with
        | None, None => PInt (int_of_digits neg i)
        | _, _ => PFloat (FLit neg i fr ex)
        end, rest).
Proof.
  intros Hi Hfr Hex Hr. rewrite float_digits_eq.
  destruct (match_exp_text ex rest Hex Hr) as (He1 & He2 & He3).
  destruct (match_frac_text fr (exp_text ex ++ rest) Hfr He2 He3) as (Hf1 & Hf2).
  pose proof (match_int_digits i (frac_text fr ++ exp_text ex ++ rest) Hi Hf2)
    as Hint.
  assert (Hhead : head_is "-" (i ++ frac_text fr ++ exp_text ex ++ rest) = None).
  { unfold int_part_ok in Hi. apply andb_true_iff in Hi. destruct Hi as [Hd _].
    destruct (digits_lead i Hd) as (c & t & -> & Hc & _).
    destruct (digit_char c Hc) as (Hm & _). cbn. now rewrite Hm. }
  unfold match_number. destruct neg.
  - cbn [append head_is]. rewrite Ascii.eqb_refl, Hint, Hf1.
    destruct fr as [d|]; cbn [frac_text append]; rewrite He1;
      destruct ex as [e|]; reflexivity.
  - cbn [append]. rewrite Hhead, Hint, Hf1.
    destruct fr as [d|]; cbn [frac_text append]; rewrite He1;
      destruct ex as [e|]; reflexivity.
Qed.

Lemma all_digits_uint (d : uint) :
  all_chars is_digit (NilEmpty.string_of_uint d) = true.
Proof.
  induction d; cbn [NilEmpty.string_of_uint all_chars]; rewrite ?IHd;
    reflexivity.
Qed.

Lemma nzhead_no_D0 (d : uint) :
  match nzhead d with
  | D0 _ => False
  | _ => True
  end.
Proof. induction d; cbn; auto. Qed.

Lemma unorm_D0_nil (d y : uint) : unorm d = D0 y -> y = Nil.
Proof.
  unfold unorm. pose proof (nzhead_no_D0 d) as H.
  destruct (nzhead d); try discriminate; [now intros [= <-] | contradiction].
Qed.

Lemma pos_digits_ok (p : positive) :
  int_part_ok (NilEmpty.string_of_uint (Pos.to_uint p)) = true.
Proof.
  pose proof (DecimalPos.Unsigned.to_of (Pos.to_uint p)) as Hn.
  rewrite DecimalPos.Unsigned.of_to in Hn. cbn [N.to_uint] in Hn.
  pose proof (DecimalPos.Unsigned.to_uint_nonzero p) as Hz.
  pose proof (DecimalPos.Unsigned.to_uint_nonnil p) as Hnil.
  destruct (Pos.to_uint p) as [|d|d|d|d|d|d|d|d|d|d] eqn:E;
    [now elim Hnil | | | | | | | | | |];
    try (unfold int_part_ok, digits_ok; cbn; eval_chars; cbn;
         rewrite all_digits_uint; reflexivity).
  symmetry in Hn. apply unorm_D0_nil in Hn. subst d. now elim Hz.
Qed.

Lemma pos_digits_value (neg : bool) (p : positive) :
  int_of_digits neg (NilEmpty.string_of_uint (Pos.to_uint p)) =
  if neg then Zneg p else Zpos p.
Proof.
  unfold int_of_digits. rewrite NilEmpty.usu.
  unfold N.of_uint. rewrite DecimalPos.Unsigned.of_to.
  destruct neg; reflexivity.
Qed.

Lemma str_of_Z_literal (z : Z) :
  exists neg i,
    str_of_Z z = float_digits neg i None None /\
    int_part_ok i = true /\
    int_of_digits neg i = z.
Proof.
  destruct z as [|p|p].
  - exists false, "0". repeat split.
  - exists false, (NilEmpty.string_of_uint (Pos.to_uint p)).
    split; [|split; [apply pos_digits_ok | apply (pos_digits_value false)]].
    unfold str_of_Z, float_digits. cbn [Z.to_int NilZero.string_of_int append].
    rewrite append_nil_r. unfold NilZero.string_of_uint.
    pose proof (DecimalPos.Unsigned.to_uint_nonnil p) as Hnil.
    destruct (Pos.to_uint p); [now elim Hnil | reflexivity ..].
  - exists true, (NilEmpty.string_of_uint (Pos.to_uint p)).
    split; [|split; [apply pos_digits_ok | apply (pos_digits_value true)]].
    unfold str_of_Z, float_digits. cbn [Z.to_int NilZero.string_of_int append].
    rewrite append_nil_r. unfold NilZero.string_of_uint.
    pose proof (DecimalPos.Unsigned.to_uint_nonnil p) as Hnil.
    destruct (Pos.to_uint p); [now elim Hnil | reflexivity ..].
Qed.

Lemma match_number_int (z : Z) (rest : string) :
  stops_number rest = true ->
  match_number (str_of_Z z ++ rest) = Some (PInt z, rest).
Proof.
  intros Hr. destruct (str_of_Z_literal z) as (neg & i & -> & Hi & <-).
  now rewrite (match_number_literal neg i None None rest Hi eq_refl eq_refl Hr).
Qed.

Lemma match_number_float (neg : bool) (i : string) (fr : option string)
  (ex : option (bool * string)) (rest : string) :
  float_ok (FLit neg i fr ex) = true ->
  stops_number rest = true ->
  match_number (float_digits neg i fr ex ++ rest) =
  Some (PFloat (FLit neg i fr ex), rest).
Proof.
  cbn [float_ok]. intros H Hr.
  apply andb_true_iff in H. destruct H as [H Hp].
  apply andb_true_iff in H. destruct H as [H Hex].
  apply andb_true_iff in H. destruct H as [Hi Hfr].
  rewrite (match_number_literal neg i fr ex rest Hi Hfr Hex Hr).
  destruct fr, ex; try reflexivity. discriminate Hp.
Qed.

(** What an encoded number starts with. *)
Lemma literal_start (neg : bool) (i : string) (fr : option string)
  (ex : option (bool * string)) (rest : string) :
  int_part_ok i = true ->
  exists c t,
    float_digits neg i fr ex ++ rest = String c t /\
    (is_digit c = true \/ c = "-"%char).
Proof.
  intros Hi. rewrite float_digits_eq.
  unfold int_part_ok in Hi. apply andb_true_iff in Hi. destruct Hi as [Hd _].
  destruct (digits_lead i Hd) as (c & t & -> & Hc & _).
  destruct neg; cbn [append]; eexists _, _; split; try reflexivity; auto.
Qed.

Lemma scan_once_number (fuel : nat) (c : ascii) (t : string) (v : pyval)
  (rest : string) :
  is_digit c = true \/ c = "-"%char ->
  match_number (String c t) = Some (v, rest) ->
  scan_once (S fuel) (String c t) = Scanned v rest.
Proof.
  intros Hc Hm.
  assert (Hs : scan_once (S fuel) (String c t) = scan_atom (String c t)).
  { destruct Hc as [Hc| ->]; [|reflexivity].
    char_cases c; vm_compute in Hc; try discriminate Hc; reflexivity. }
  assert (Ha : scan_atom (String c t) =
               match match_number (String c t) with
               | Some (v, rest) => Scanned v rest
               | None => expecting_value (String c t)
               end).
  { unfold scan_atom. destruct Hc as [Hc| ->].
    - char_cases c; vm_compute in Hc; try discriminate Hc;
        cbn [drop_prefix]; eval_chars;
        destruct (match_number _) as [[? ?]|]; reflexivity.
    - cbn [drop_prefix]. eval_chars.
      destruct (match_number _) as [[? ?]|] eqn:E; [reflexivity|].
      exfalso. congruence. }
  rewrite Hs, Ha, Hm. reflexivity.
Qed.

Lemma ws_char (c : ascii) :
  is_ws c = true ->
  is_digit c = false /\ Ascii.eqb c "." = false /\ Ascii.eqb c "e" = false /\
  Ascii.eqb c "E" = false /\ Ascii.eqb "]" c = false /\
  Ascii.eqb "}" c = false /\ Ascii.eqb "," c = false /\
  Ascii.eqb ":" c = false.
Proof.
  intros H. char_cases c; vm_compute in H; try discriminate H;
    vm_compute; repeat split.
Qed.

Lemma skip_ws_ws (w s : string) :
  all_chars is_ws w = true -> skip_ws (w ++ s) = skip_ws s.
Proof.
  induction w as [|c w IH]; [reflexivity|].
  cbn [all_chars append skip_ws]. intros H.
  apply andb_true_iff in H. destruct H as [Hc Hw]. rewrite Hc. now apply IH.
Qed.

Lemma skip_ws_start (p : ascii -> bool) (s : string) :
  (forall c, p c = true -> is_ws c = false) ->
  starts_with p s = true -> skip_ws s = s.
Proof.
  intros Hp Hs. destruct s as [|c t]; [reflexivity|].
  cbn in Hs |- *. now rewrite (Hp c Hs).
Qed.

Lemma skip_ws_value (s : string) :
  starts_with value_start s = true -> skip_ws s = s.
Proof.
  apply skip_ws_start. intros c Hc. now apply value_start_char.
Qed.

Lemma spaces_ws (n : nat) : all_chars is_ws (spaces n) = true.
Proof. induction n as [|n IH]; [reflexivity | exact IH]. Qed.

Lemma newline_indent_ws (indent : option nat) (level : nat) :
  all_chars is_ws (newline_indent indent level) = true.
Proof.
  destruct indent as [k|]; [|reflexivity].
  cbn [newline_indent nl append all_chars]. apply spaces_ws.
Qed.

Lemma separator_form (indent : option nat) (level : nat) :
  exists w,
    item_separator indent ++ newline_indent indent level = String "," w /\
    all_chars is_ws w = true.
Proof.
  destruct indent as [k|].
  - eexists. split; [reflexivity|]. apply (newline_indent_ws (Some k)).
  - exists " ". split; reflexivity.
Qed.

(** After white space and a closing bracket no number goes on. *)
Lemma stops_before (w : string) (c : ascii) (rest : string) :
  all_chars is_ws w = true ->
  stops_number (String c rest) = true ->
  stops_number (w ++ String c rest) = true.
Proof.
  intros Hw Hc. destruct w as [|x w]; [exact Hc|].
  cbn in Hw. apply andb_true_iff in Hw. destruct Hw as [Hx _].
  destruct (ws_char x Hx) as (H1 & H2 & H3 & H4 & _).
  cbn. now rewrite H1, H2, H3, H4.
Qed.

Lemma encode_start (v : pyval) (indent : option nat) (level : nat)
  (rest : string) :
  value_ok v = true ->
  starts_with value_start (iterencode indent level v ++ rest) = true.
Proof.
  intros Hv. destruct v as [|b|z|f|s|l|d].
  - reflexivity.
  - destruct b; reflexivity.
  - cbn [iterencode]. destruct (str_of_Z_literal z) as (neg & i & -> & Hi & _).
    destruct (literal_start neg i None None rest Hi) as (c & t & -> & [Hc| ->]).
    + cbn. now apply digit_char.
    + reflexivity.
  - destruct f as [|neg|neg i fr ex].
    + reflexivity.
    + destruct neg; reflexivity.
    + cbn [iterencode floatstr]. cbn [value_ok float_ok] in Hv.
      apply andb_true_iff in Hv. destruct Hv as [Hv _].
      apply andb_true_iff in Hv. destruct Hv as [Hv _].
      apply andb_true_iff in Hv. destruct Hv as [Hi _].
      destruct (literal_start neg i fr ex rest Hi) as (c & t & -> & [Hc| ->]).
      * cbn. now apply digit_char.
      * reflexivity.
  - reflexivity.
  - destruct l; reflexivity.
  - destruct d; reflexivity.
Qed.

Lemma scan_once_string (fuel : nat) (s rest : string) :
  scan_once (S fuel) (encode_basestring_ascii s ++ rest) = Scanned (PStr s) rest.
Proof.
  unfold encode_basestring_ascii, dq.
  rewrite !append_assoc. cbn [append].
  change (scan_once (S fuel) (String DQ ?x)) with
    (match scanstring (String DQ x) x with
     | Scanned str r => Scanned (PStr str) r
     | ScanError m a => ScanError m a
     | OutOfFuel => OutOfFuel
     end).
  now rewrite scanstring_escape_body.
Qed.

Lemma join_items_cons (sep x y : string) (l : list string) :
  join_items sep (x :: y :: l) = x ++ sep ++ join_items sep (y :: l).
Proof. reflexivity. Qed.

Lemma join_start (sep : string) (indent : option nat) (level : nat)
  (x : pyval) (l : list pyval) (rest : string) :
  value_ok x = true ->
  starts_with value_start
    (join_items sep (map (iterencode indent level) (x :: l)) ++ rest) = true.
Proof.
  intros Hx. destruct l as [|y l]; cbn [map join_items].
  - now apply encode_start.
  - rewrite append_assoc. now apply encode_start.
Qed.

Lemma array_values_encoded (indent : option nat) (level : nat)
  (w1 w2 : string) (items : list pyval) :
  Forall decodes items ->
  forallb value_ok items = true ->
  all_chars is_ws w1 = true ->
  all_chars is_ws w2 = true ->
  items <> [] ->
  forall fuel values rest,
    items_weight items <= fuel ->
    JSONArray_values fuel
      (join_items (String "," w1) (map (iterencode indent level) items) ++
       w2 ++ String "]" rest) values
    = Scanned (PList (values ++ items)) rest.
Proof.
  intros HP Hok Hw1 Hw2. induction items as [|x items IH]; [congruence|].
  intros _ fuel values rest Hfuel.
  inversion HP as [|? ? Hx HP']; subst.
  cbn [forallb] in Hok. apply andb_true_iff in Hok. destruct Hok as [Hxok Hok].
  cbn [items_weight fold_right] in Hfuel. fold (items_weight items) in Hfuel.
  destruct fuel as [|fuel]; [lia|].
  change (JSONArray_values (S fuel) ?s ?vs) with
    (match scan_once fuel s with
     | Scanned v r =>
         match head_is "]" (skip_ws r), head_is "," (skip_ws r) with
         | Some r', _ => Scanned (PList (vs ++ [v])) r'
         | None, Some r' => JSONArray_values fuel (skip_ws r') (vs ++ [v])
         | None, None => ScanError "Expecting ',' delimiter" (skip_ws r)
         end
     | ScanError m a => ScanError m a
     | OutOfFuel => OutOfFuel
     end).
  destruct items as [|y items].
  - cbn [map join_items].
    rewrite (Hx Hxok indent level fuel (w2 ++ String "]" rest));
      [|lia|now apply stops_before].
    rewrite (skip_ws_ws w2 _ Hw2). cbn [skip_ws]. eval_chars. cbn.
    eval_chars. reflexivity.
  - cbn [map]. rewrite join_items_cons.
    change (iterencode indent level y :: map (iterencode indent level) items)
      with (map (iterencode indent level) (y :: items)).
    rewrite append_assoc. cbn [append]. rewrite append_assoc.
    rewrite (Hx Hxok indent level fuel); [|lia|reflexivity].
    cbn [skip_ws]. eval_chars. cbn [head_is]. eval_chars. cbv beta iota.
    rewrite (skip_ws_ws w1 _ Hw1).
    cbn [forallb] in Hok. pose proof Hok as Hok'.
    apply andb_true_iff in Hok'. destruct Hok' as [Hyok _].
    rewrite skip_ws_value by (now apply (join_start _ indent level y items)).
    rewrite (IH HP' Hok); [|discriminate|lia].
    now rewrite <- app_assoc.
Qed.

Lemma value_start_heads (s : string) :
  starts_with value_start s = true ->
  head_is "]" s = None /\ head_is "}" s = None.
Proof.
  destruct s as [|c t]; [discriminate|]. cbn [starts_with head_is]. intros H.
  destruct (value_start_char c H) as (_ & H1 & H2 & _). now rewrite H1, H2.
Qed.

Lemma object_pairs_encoded (indent : option nat) (level : nat)
  (w1 w2 : string) (d : list (string * pyval)) :
  Forall (fun kv => decodes (snd kv)) d ->
  forallb (fun kv => match kv with (_, x) => value_ok x end) d = true ->
  all_chars is_ws w1 = true ->
  all_chars is_ws w2 = true ->
  d <> [] ->
  forall fuel pairs rest,
    pairs_weight d <= fuel ->
    JSONObject_pairs fuel
      (join_items (String "," w1) (map (encode_pair indent level) d) ++
       w2 ++ String "}" rest) pairs
    = Scanned (PDict (dict_of_pairs (pairs ++ d))) rest.
Proof.
  intros HP Hok Hw1 Hw2. induction d as [|[k x] d IH]; [congruence|].
  intros _ fuel pairs rest Hfuel.
  inversion HP as [|? ? Hx HP']; subst. cbn [snd] in Hx.
  cbn [forallb] in Hok. apply andb_true_iff in Hok. destruct Hok as [Hxok Hok].
  cbn [pairs_weight fold_right] in Hfuel. fold (pairs_weight d) in Hfuel.
  destruct fuel as [|fuel]; [lia|].
  assert (Hpair : forall R,
    stops_number R = true ->
    JSONObject_pairs (S fuel) (encode_pair indent level (k, x) ++ R) pairs =
    match head_is "}" (skip_ws R), head_is "," (skip_ws R) with
    | Some r, _ => Scanned (PDict (dict_of_pairs (pairs ++ [(k, x)]))) r
    | None, Some r => JSONObject_pairs fuel (skip_ws r) (pairs ++ [(k, x)])
    | None, None => ScanError "Expecting ',' delimiter" (skip_ws R)
    end).
  { intros R HR.
    unfold encode_pair, encode_basestring_ascii, key_separator, dq.
    rewrite !append_assoc. cbn [append].
    change (JSONObject_pairs (S fuel) (String DQ ?s') ?ps) with
      (match scanstring (String DQ s') s' with
       | Scanned key r0 =>
           match head_is ":" (skip_ws r0) with
           | Some r1 =>
               match scan_once fuel (skip_ws r1) with
               | Scanned v r2 =>
                   match head_is "}" (skip_ws r2), head_is "," (skip_ws r2) with
                   | Some r, _ =>
                       Scanned (PDict (dict_of_pairs (ps ++ [(key, v)]))) r
                   | None, Some r =>
                       JSONObject_pairs fuel (skip_ws r) (ps ++ [(key, v)])
                   | None, None =>
                       ScanError "Expecting ',' delimiter" (skip_ws r2)
                   end
               | ScanError m a => ScanError m a
               | OutOfFuel => OutOfFuel
               end
           | None => ScanError "Expecting ':' delimiter" (skip_ws r0)
           end
       | ScanError m a => ScanError m a
       | OutOfFuel => OutOfFuel
       end).
    rewrite scanstring_escape_body.
    cbn [skip_ws]. eval_chars. cbn [head_is]. eval_chars. cbv beta iota.
    cbn [skip_ws]. eval_chars. cbv beta iota.
    rewrite skip_ws_value by (now apply encode_start).
    rewrite (Hx Hxok indent level fuel R); [reflexivity | lia | exact HR]. }
  destruct d as [|kv d].
  - cbn [map join_items].
    rewrite Hpair by (now apply stops_before).
    rewrite (skip_ws_ws w2 _ Hw2). cbn [skip_ws]. eval_chars. cbn [head_is].
    eval_chars. reflexivity.
  - cbn [map]. rewrite join_items_cons.
    change (encode_pair indent level kv :: map (encode_pair indent level) d)
      with (map (encode_pair indent level) (kv :: d)).
    rewrite append_assoc. cbn [append]. rewrite append_assoc.
    rewrite Hpair by reflexivity.
    cbn [skip_ws]. eval_chars. cbn [head_is]. eval_chars. cbv beta iota.
    rewrite (skip_ws_ws w1 _ Hw1).
    assert (Hstart : forall Z,
      starts_with (fun c => Ascii.eqb c DQ)
        (join_items (String "," w1) (map (encode_pair indent level) (kv :: d))
         ++ Z) = true).
    { intros Z. destruct kv as [k' x']. destruct d as [|kv' d'];
        cbn [map join_items]; [|rewrite append_assoc]; reflexivity. }
    rewrite (skip_ws_start (fun c => Ascii.eqb c DQ)); [| |apply Hstart].
    + rewrite (IH HP' Hok); [|discriminate|lia].
      now rewrite <- app_assoc.
    + intros c Hc. apply Ascii.eqb_eq in Hc. subst c. reflexivity.
Qed.

Lemma existsb_fresh (k : string) (l1 l2 : list string) :
  keys_unique (l1 ++ k :: l2) = true -> existsb (String.eqb k) l1 = false.
Proof.
  induction l1 as [|a l1 IH]; [reflexivity|].
  cbn [app keys_unique existsb]. intros H.
  apply andb_true_iff in H. destruct H as [Ha Hu].
  apply negb_true_iff in Ha. rewrite existsb_app in Ha.
  apply orb_false_iff in Ha. destruct Ha as [_ Ha].
  cbn [existsb] in Ha. apply orb_false_iff in Ha. destruct Ha as [Ha _].
  rewrite String.eqb_sym, Ha. now apply IH.
Qed.

Lemma dict_set_fresh (k : string) (v : pyval) (acc : list (string * pyval)) :
  existsb (String.eqb k) (map fst acc) = false ->
  dict_set k v acc = (acc ++ [(k, v)])%list.
Proof.
  induction acc as [|[k' v'] acc IH]; [reflexivity|].
  cbn [map fst existsb dict_set app]. intros H.
  apply orb_false_iff in H. destruct H as [Hk H].
  rewrite Hk. now rewrite IH.
Qed.

Lemma fold_dict_set (d acc : list (string * pyval)) :
  keys_unique (map fst (acc ++ d)) = true ->
  fold_left (fun m kv => dict_set (fst kv) (snd kv) m) d acc = (acc ++ d)%list.
Proof.
  revert acc. induction d as [|[k v] d IH]; intros acc H.
  - now rewrite List.app_nil_r.
  - cbn [fold_left fst snd]. rewrite map_app in H. cbn [map fst] in H.
    rewrite (dict_set_fresh k v acc (existsb_fresh _ _ _ H)).
    rewrite IH; [now rewrite <- app_assoc|].
    rewrite <- app_assoc, map_app. exact H.
Qed.

Lemma dict_of_pairs_unique (d : list (string * pyval)) :
  keys_unique (map fst d) = true -> dict_of_pairs d = d.
Proof. intros H. unfold dict_of_pairs. now rewrite fold_dict_set. Qed.

(** Every value of the schema is decoded from its encoding, at any
    indentation, given the fuel of its weight. *)
Lemma all_decode (v : pyval) : decodes v.
Proof.
  induction v as [| b | z | f | s | l IH | d IH] using pyval_induction;
    intros Hok indent level fuel rest Hfuel Hr.
  - destruct fuel; [cbn in Hfuel; lia | reflexivity].
  - destruct fuel; [cbn in Hfuel; lia | destruct b; reflexivity].
  - destruct fuel as [|fuel]; [cbn in Hfuel; lia|]. cbn [iterencode].
    pose proof (match_number_int z rest Hr) as Hm.
    destruct (str_of_Z_literal z) as (neg & i & E & Hi & _).
    destruct (literal_start neg i None None rest Hi) as (c & t & Hct & Hc).
    rewrite E in *. rewrite Hct in *.
    now apply scan_once_number.
  - destruct fuel as [|fuel]; [cbn in Hfuel; lia|].
    destruct f as [|neg|neg i fr ex].
    + discriminate Hok.
    + destruct neg; reflexivity.
    + cbn [iterencode floatstr].
      pose proof (match_number_float neg i fr ex rest Hok Hr) as Hm.
      cbn [value_ok float_ok] in Hok.
      apply andb_true_iff in Hok. destruct Hok as [Hok _].
      apply andb_true_iff in Hok. destruct Hok as [Hok _].
      apply andb_true_iff in Hok. destruct Hok as [Hi _].
      destruct (literal_start neg i fr ex rest Hi) as (c & t & Hct & Hc).
      rewrite Hct in *. now apply scan_once_number.
  - destruct fuel as [|fuel]; [cbn in Hfuel; lia|]. apply scan_once_string.
  - change (weight (PList l)) with (S (items_weight l)) in Hfuel.
    destruct fuel as [|fuel]; [lia|].
    destruct l as [|x l]; [reflexivity|].
    change (value_ok (PList (x :: l))) with (forallb value_ok (x :: l)) in Hok.
    cbn [iterencode].
    destruct (separator_form indent (S level)) as (w1 & -> & Hw1).
    rewrite !append_assoc. cbn [append].
    change (scan_once (S fuel) (String "[" ?s')) with
      (match head_is "]" (skip_ws s') with
       | Some r => Scanned (PList []) r
       | None => JSONArray_values fuel (skip_ws s') []
       end).
    rewrite (skip_ws_ws _ _ (newline_indent_ws indent (S level))).
    pose proof Hok as Hok'. cbn [forallb] in Hok'.
    apply andb_true_iff in Hok'. destruct Hok' as [Hx _].
    assert (Hst := fun Z => join_start (String "," w1) indent (S level) x l Z Hx).
    rewrite skip_ws_value by apply Hst.
    rewrite (proj1 (value_start_heads _ (Hst _))).
    rewrite (array_values_encoded indent (S level) w1
               (newline_indent indent level) (x :: l) IH Hok Hw1
               (newline_indent_ws indent level)); [reflexivity|discriminate|lia].
  - change (weight (PDict d)) with (S (pairs_weight d)) in Hfuel.
    destruct fuel as [|fuel]; [lia|].
    destruct d as [|kv d]; [reflexivity|].
    change (value_ok (PDict (kv :: d))) with
      (keys_unique (map fst (kv :: d)) &&
       forallb (fun kv => match kv with (_, x) => value_ok x end) (kv :: d))
      in Hok.
    apply andb_true_iff in Hok. destruct Hok as [Hkeys Hok].
    cbn [iterencode].
    change (map (fun kv0 => match kv0 with
                            | (k, x) =>
                                encode_basestring_ascii k ++ key_separator ++
                                iterencode indent (S level) x
                            end) (kv :: d))
      with (map (encode_pair indent (S level)) (kv :: d)).
    destruct (separator_form indent (S level)) as (w1 & -> & Hw1).
    rewrite !append_assoc. cbn [append].
    change (scan_once (S fuel) (String "{" ?s')) with
      (match head_is "}" (skip_ws s') with
       | Some r => Scanned (PDict []) r
       | None => JSONObject_pairs fuel (skip_ws s') []
       end).
    rewrite (skip_ws_ws _ _ (newline_indent_ws indent (S level))).
    assert (Hstart : forall Z,
      starts_with (fun c => Ascii.eqb c DQ)
        (join_items (String "," w1) (map (encode_pair indent (S level)) (kv :: d))
         ++ Z) = true).
    { intros Z. destruct kv as [k' x']. destruct d as [|kv' d'];
        cbn [map join_items]; [|rewrite append_assoc]; reflexivity. }
    assert (Hq : forall c, Ascii.eqb c DQ = true -> is_ws c = false).
    { intros c Hc. apply Ascii.eqb_eq in Hc. subst c. reflexivity. }
    rewrite (skip_ws_start _ _ Hq (Hstart _)).
    assert (Hhead : forall Z, head_is "}"
        (join_items (String "," w1) (map (encode_pair indent (S level)) (kv :: d))
         ++ Z) = None).
    { intros Z. specialize (Hstart Z).
      destruct (join_items _ _ ++ Z) as [|c t]; [reflexivity|].
      cbn [starts_with] in Hstart. apply Ascii.eqb_eq in Hstart. subst c.
      reflexivity. }
    rewrite Hhead.
    rewrite (object_pairs_encoded indent (S level) w1
               (newline_indent indent level) (kv :: d) IH Hok Hw1
               (newline_indent_ws indent level)); [|discriminate|lia].
    cbn [app]. now rewrite dict_of_pairs_unique.
Qed.

Lemma encode_nonempty (v : pyval) (indent : option nat) (level : nat) :
  value_ok v = true -> 1 <= length (iterencode indent level v).
Proof.
  intros Hv. pose proof (encode_start v indent level "" Hv) as H.
  rewrite append_nil_r in H.
  destruct (iterencode indent level v); [discriminate H | cbn; lia].
Qed.

Lemma items_fit (sep : string) (indent : option nat) (level : nat)
  (items : list pyval) :
  1 <= length sep ->
  Forall fits items ->
  forallb value_ok items = true ->
  items <> [] ->
  items_weight items <=
  S (length (join_items sep (map (iterencode indent level) items))).
Proof.
  intros Hsep HP Hok. induction items as [|x items IH]; [congruence|].
  intros _. inversion HP as [|? ? Hx HP']; subst.
  cbn [forallb] in Hok. apply andb_true_iff in Hok. destruct Hok as [Hxok Hok].
  specialize (Hx Hxok indent level).
  cbn [items_weight fold_right]. fold (items_weight items).
  destruct items as [|y items].
  - cbn [map join_items items_weight fold_right]. lia.
  - cbn [map]. rewrite join_items_cons.
    change (iterencode indent level y :: map (iterencode indent level) items)
      with (map (iterencode indent level) (y :: items)).
    rewrite !length_append.
    assert (H := IH HP' Hok). specialize (H ltac:(discriminate)). lia.
Qed.

Lemma pairs_fit (sep : string) (indent : option nat) (level : nat)
  (d : list (string * pyval)) :
  1 <= length sep ->
  Forall (fun kv => fits (snd kv)) d ->
  forallb (fun kv => match kv with (_, x) => value_ok x end) d = true ->
  d <> [] ->
  pairs_weight d <=
  S (length (join_items sep (map (encode_pair indent level) d))).
Proof.
  intros Hsep HP Hok. induction d as [|[k x] d IH]; [congruence|].
  intros _. inversion HP as [|? ? Hx HP']; subst. cbn [snd] in Hx.
  cbn [forallb] in Hok. apply andb_true_iff in Hok. destruct Hok as [Hxok Hok].
  specialize (Hx Hxok indent level).
  cbn [pairs_weight fold_right]. fold (pairs_weight d).
  assert (Hp : weight x <= length (encode_pair indent level (k, x))).
  { unfold encode_pair. rewrite !length_append. lia. }
  destruct d as [|kv d].
  - cbn [map join_items pairs_weight fold_right]. lia.
  - cbn [map]. rewrite join_items_cons.
    change (encode_pair indent level kv :: map (encode_pair indent level) d)
      with (map (encode_pair indent level) (kv :: d)).
    rewrite !length_append.
    assert (H := IH HP' Hok). specialize (H ltac:(discriminate)). lia.
Qed.

Lemma separator_length (indent : option nat) (level : nat) :
  1 <= length (item_separator indent ++ newline_indent indent level).
Proof.
  destruct (separator_form indent level) as (w & -> & _). cbn. lia.
Qed.

(** The fuel [json.loads] starts with covers the weight of the value. *)
Lemma weight_fits (v : pyval) : fits v.
Proof.
  induction v as [| b | z | f | s | l IH | d IH] using pyval_induction;
    intros Hok indent level;
    try (change (weight _) with 1; now apply encode_nonempty).
  - change (weight (PList l)) with (S (items_weight l)).
    destruct l as [|x l]; [cbn; lia|].
    change (value_ok (PList (x :: l))) with (forallb value_ok (x :: l)) in Hok.
    cbn [iterencode]. rewrite !length_append.
    pose proof (items_fit _ indent (S level) (x :: l)
                  (separator_length indent (S level)) IH Hok
                  ltac:(discriminate)) as H.
    cbn [length]. lia.
  - change (weight (PDict d)) with (S (pairs_weight d)).
    destruct d as [|kv d]; [cbn; lia|].
    change (value_ok (PDict (kv :: d))) with
      (keys_unique (map fst (kv :: d)) &&
       forallb (fun kv => match kv with (_, x) => value_ok x end) (kv :: d))
      in Hok.
    apply andb_true_iff in Hok. destruct Hok as [_ Hok].
    cbn [iterencode].
    change (map (fun kv0 => match kv0 with
                            | (k, x) =>
                                encode_basestring_ascii k ++ key_separator ++
                                iterencode indent (S level) x
                            end) (kv :: d))
      with (map (encode_pair indent (S level)) (kv :: d)).
    rewrite !length_append.
    pose proof (pairs_fit _ indent (S level) (kv :: d)
                  (separator_length indent (S level)) IH Hok
                  ltac:(discriminate)) as H.
    cbn [length]. lia.
Qed.

(** [json.loads] gives back every value of the schema from the text the
    encoder wrote, with or without indentation. *)
Lemma loads_encoded (v : pyval) (indent : option nat) (level : nat) :
  value_ok v = true ->
  json_loads (iterencode indent level v) = Ok v.
Proof.
  intros Hok. unfold json_loads.
  pose proof (encode_start v indent level "" Hok) as Hs.
  rewrite append_nil_r in Hs. rewrite (skip_ws_value _ Hs).
  pose proof (all_decode v Hok indent level
                (S (2 * length (iterencode indent level v))) "") as H.
  rewrite append_nil_r in H. rewrite H; [reflexivity| |reflexivity].
  pose proof (weight_fits v Hok indent level). lia.
Qed.

(** ** The decoder never runs out of fuel *)

(** The fuel of [json_loads] is a device of the definition, not the
    recursion limit of the interpreter: it always suffices, so in the file
    [json_loads] yields a value or a [JSONDecodeError], whatever the text.
    What CPython raises besides is described at [within_limits]. *)

Lemma skip_ws_length (s : string) : length (skip_ws s) <= length s.
Proof.
  induction s as [|c s IH]; cbn [skip_ws length]; [lia|].
  destruct (is_ws c); cbn [length]; lia.
Qed.

Lemma head_is_length (c : ascii) (s r : string) :
  head_is c s = Some r -> length s = S (length r).
Proof.
  destruct s as [|c' s]; cbn [head_is]; [discriminate|].
  destruct (Ascii.eqb c c'); [|discriminate]. now intros [= ->].
Qed.

Lemma drop_prefix_length (p s r : string) :
  drop_prefix p s = Some r -> length s = length p + length r.
Proof.
  revert s. induction p as [|a p IH]; intros s; cbn [drop_prefix length].
  - now intros [= ->].
  - destruct s as [|b s]; [discriminate|].
    destruct (Ascii.eqb a b); [|discriminate].
    intros H. cbn [length]. now rewrite (IH s H).
Qed.

Lemma span_digits_length (s d r : string) :
  span_digits s = (d, r) -> length s = length d + length r.
Proof.
  revert d r. induction s as [|c s IH]; intros d r; cbn [span_digits].
  - now intros [= <- <-].
  - destruct (is_digit c).
    + destruct (span_digits s) as [d' r'] eqn:E. intros [= <- <-].
      cbn [length]. now rewrite (IH d' r' eq_refl).
    + now intros [= <- <-].
Qed.

Lemma cons_scanned_inv (c : ascii) (r : scan string) :
  cons_scanned c r <> OutOfFuel \/ r = OutOfFuel.
Proof. destruct r; cbn; auto; left; discriminate. Qed.

Lemma cons_scanned_rest (c : ascii) (r : scan string) (x rest : string) :
  cons_scanned c r = Scanned x rest -> exists x', r = Scanned x' rest.
Proof. destruct r; cbn; try discriminate. intros [= _ ->]. now eexists. Qed.

Lemma scanstring_progress (n : nat) (start s : string) :
  length s <= n ->
  scanstring start s <> OutOfFuel /\
  forall x rest, scanstring start s = Scanned x rest -> length rest < length s.
Proof.
  revert s. induction n as [|n IH]; intros s Hn.
  - destruct s; [|cbn in Hn; lia]. split; cbn; [discriminate|discriminate].
  - destruct s as [|c rest]; [split; cbn; discriminate|].
    cbn [length] in Hn. cbn [scanstring].
    destruct (Ascii.eqb c DQ).
    { split; [discriminate|]. intros x r [= _ <-]. cbn. lia. }
    destruct (Ascii.eqb c BSL).
    + destruct rest as [|e rest']; [split; discriminate|].
      destruct (Ascii.eqb e "u").
      * destruct rest' as [|h1 [|h2 [|h3 [|h4 rest'']]]];
          try (split; discriminate).
        destruct rest'' as [|h5 rest5]; [split; discriminate|].
        set (rest'' := String h5 rest5) in *.
        destruct (hex4 h1 h2 h3 h4) as [k|]; [|split; discriminate].
        destruct (k <? 256)%N; [|split; discriminate].
        cbn [length] in Hn.
        destruct (IH rest'' ltac:(lia)) as [H1 H2]. split.
        -- destruct (cons_scanned_inv (ascii_of_N k) (scanstring start rest''));
             [assumption | contradiction].
        -- intros x r Hx. apply cons_scanned_rest in Hx. destruct Hx as [x' Hx].
           specialize (H2 _ _ Hx). cbn [length]. lia.
      * destruct (backslash e) as [y|]; [|split; discriminate].
        cbn [length] in Hn.
        destruct (IH rest' ltac:(lia)) as [H1 H2]. split.
        -- destruct (cons_scanned_inv y (scanstring start rest'));
             [assumption | contradiction].
        -- intros x r Hx. apply cons_scanned_rest in Hx. destruct Hx as [x' Hx].
           specialize (H2 _ _ Hx). cbn [length]. lia.
    + destruct (code c <? 32)%N; [split; discriminate|].
      destruct (IH rest ltac:(lia)) as [H1 H2]. split.
      * destruct (cons_scanned_inv c (scanstring start rest));
          [assumption | contradiction].
      * intros x r Hx. apply cons_scanned_rest in Hx. destruct Hx as [x' Hx].
        specialize (H2 _ _ Hx). cbn [length]. lia.
Qed.

Lemma match_int_length (s ip r : string) :
  match_int s = Some (ip, r) -> length r < length s.
Proof.
  destruct s as [|c s]; cbn [match_int]; [discriminate|].
  destruct (Ascii.eqb c "0"); [intros [= _ <-]; cbn; lia|].
  destruct (between 49 57 c); [|discriminate].
  destruct (span_digits s) as [d r'] eqn:E. intros [= _ <-].
  apply span_digits_length in E. cbn [length]. lia.
Qed.

Lemma match_frac_length (s d r : string) :
  match_frac s = Some (d, r) -> length r < length s.
Proof.
  unfold match_frac. destruct (head_is "." s) as [s'|] eqn:Eh; [|discriminate].
  apply head_is_length in Eh.
  destruct (span_digits s') as [d' r'] eqn:E. apply span_digits_length in E.
  destruct d'; [discriminate|]. intros [= _ <-]. lia.
Qed.

Lemma exp_digits_length (eneg : bool) (s : string) (e : bool * string)
  (r : string) :
  (let (d, r0) := span_digits s in
   match d with
   | EmptyString => None
   | String _ _ => Some ((eneg, d), r0)
   end) = Some (e, r) ->
  length r <= length s.
Proof.
  destruct (span_digits s) as [d r0] eqn:E. apply span_digits_length in E.
  destruct d; [discriminate|]. intros [= _ <-]. lia.
Qed.

Lemma match_exp_length (s : string) (e : bool * string) (r : string) :
  match_exp s = Some (e, r) -> length r < length s.
Proof.
  destruct s as [|c s]; cbn [match_exp]; [discriminate|].
  destruct (_ || _); [|discriminate].
  destruct (head_is "-" s) as [t|] eqn:E1.
  - apply head_is_length in E1. intros H.
    apply exp_digits_length in H. cbn [length]. lia.
  - destruct (head_is "+" s) as [t|] eqn:E2; intros H;
      apply exp_digits_length in H; cbn [length];
      [apply head_is_length in E2|]; lia.
Qed.

Lemma match_number_length (s : string) (v : pyval) (r : string) :
  match_number s = Some (v, r) -> length r < length s.
Proof.
  unfold match_number.
  assert (H : forall neg s1, length s1 <= length s ->
    match match_int s1 with
    | Some (ip, s2) =>
        let (fr, s3) :=
          match match_frac s2 with
          | Some (d, r0) => (Some d, r0)
          | None => (None, s2)
          end in
        let (ex, s4) :=
          match match_exp s3 with
          | Some (e, r0) => (Some e, r0)
          | None => (None, s3)
          end in
        match fr, ex with
        | None, None => Some (PInt (int_of_digits neg ip), s4)
        | _, _ => Some (PFloat (FLit neg ip fr ex), s4)
        end
    | None => None
    end = Some (v, r) -> length r < length s).
  { intros neg s1 Hl.
    destruct (match_int s1) as [[ip s2]|] eqn:Ei; [|discriminate].
    apply match_int_length in Ei.
    destruct (match_frac s2) as [[d s3]|] eqn:Ef.
    - apply match_frac_length in Ef.
      destruct (match_exp s3) as [[e s4]|] eqn:Ee.
      + apply match_exp_length in Ee. intros [= _ <-]. lia.
      + intros [= _ <-]. lia.
    - destruct (match_exp s2) as [[e s4]|] eqn:Ee.
      + apply match_exp_length in Ee. intros [= _ <-]. lia.
      + intros [= _ <-]. lia. }
  destruct (head_is "-" s) as [t|] eqn:Eh.
  - apply head_is_length in Eh. apply H. lia.
  - apply H. lia.
Qed.

Lemma scan_atom_progress (s : string) :
  scan_atom s <> OutOfFuel /\
  forall v r, scan_atom s = Scanned v r -> length r < length s.
Proof.
  unfold scan_atom, expecting_value.
  repeat match goal with
  | |- context [match drop_prefix ?p s with _ => _ end] =>
      let E := fresh "E" in
      destruct (drop_prefix p s) eqn:E;
      [apply drop_prefix_length in E; cbn [length] in E;
       split; [discriminate | intros ? ? [= _ <-]; lia]|]
  | |- context [match match_number s with _ => _ end] =>
      let E := fresh "E" in
      destruct (match_number s) as [[? ?]|] eqn:E;
      [apply match_number_length in E;
       split; [discriminate | intros ? ? [= _ <-]; lia]|]
  end.
  split; discriminate.
Qed.

(** With more fuel than twice the length of the text, no scan runs out of
    fuel, and a scan that yields a value leaves less text than it was
    given. *)
Lemma scans_progress (fuel : nat) :
  (forall s, 2 * length s < fuel ->
     scan_once fuel s <> OutOfFuel /\
     forall v r, scan_once fuel s = Scanned v r -> length r < length s) /\
  (forall s values, 2 * length s + 1 < fuel ->
     JSONArray_values fuel s values <> OutOfFuel /\
     forall v r, JSONArray_values fuel s values = Scanned v r ->
                 length r < length s) /\
  (forall s pairs, 2 * length s + 1 < fuel ->
     JSONObject_pairs fuel s pairs <> OutOfFuel /\
     forall v r, JSONObject_pairs fuel s pairs = Scanned v r ->
                 length r < length s).
Proof.
  induction fuel as [|fuel (IHs & IHa & IHo)].
  { repeat split; intros; lia. }
  split; [|split].
  - intros s Hf. destruct s as [|c s']; [split; discriminate|].
    cbn [length] in Hf. cbn [scan_once].
    destruct (Ascii.eqb c DQ).
    { destruct (scanstring_progress (length s') (String c s') s' (le_n _))
        as [H1 H2].
      destruct (scanstring (String c s') s') as [x r| |] eqn:E;
        [|split; discriminate|contradiction].
      split; [discriminate|]. intros v r' [= _ <-].
      specialize (H2 _ _ eq_refl). cbn [length]. lia. }
    pose proof (skip_ws_length s') as Hw.
    destruct (Ascii.eqb c "{").
    { destruct (head_is "}" (skip_ws s')) as [r|] eqn:E.
      - apply head_is_length in E. split; [discriminate|].
        intros v r' [= _ <-]. cbn [length]. lia.
      - destruct (IHo (skip_ws s') [] ltac:(lia)) as [H1 H2].
        split; [exact H1|]. intros v r Hv. specialize (H2 _ _ Hv).
        cbn [length]. lia. }
    destruct (Ascii.eqb c "[").
    { destruct (head_is "]" (skip_ws s')) as [r|] eqn:E.
      - apply head_is_length in E. split; [discriminate|].
        intros v r' [= _ <-]. cbn [length]. lia.
      - destruct (IHa (skip_ws s') [] ltac:(lia)) as [H1 H2].
        split; [exact H1|]. intros v r Hv. specialize (H2 _ _ Hv).
        cbn [length]. lia. }
    apply scan_atom_progress.
  - intros s values Hf. cbn [JSONArray_values].
    destruct (IHs s ltac:(lia)) as [H1 H2].
    destruct (scan_once fuel s) as [v rest| |] eqn:E;
      [|split; discriminate|contradiction].
    specialize (H2 _ _ eq_refl). pose proof (skip_ws_length rest) as Hw.
    destruct (head_is "]" (skip_ws rest)) as [r|] eqn:E1.
    { apply head_is_length in E1. split; [discriminate|].
      intros v' r' [= _ <-]. lia. }
    destruct (head_is "," (skip_ws rest)) as [r|] eqn:E2;
      [|split; discriminate].
    apply head_is_length in E2. pose proof (skip_ws_length r) as Hw'.
    destruct (IHa (skip_ws r) (values ++ [v])%list ltac:(lia)) as [H3 H4].
    split; [exact H3|]. intros v' r' Hv. specialize (H4 _ _ Hv). lia.
  - intros s pairs Hf. cbn [JSONObject_pairs].
    destruct s as [|c s']; [split; discriminate|].
    destruct (negb (Ascii.eqb c DQ)); [split; discriminate|].
    destruct (scanstring_progress (length s') (String c s') s' (le_n _))
      as [H1 H2].
    destruct (scanstring (String c s') s') as [key rest| |] eqn:E;
      [|split; discriminate|contradiction].
    specialize (H2 _ _ eq_refl). pose proof (skip_ws_length rest) as Hw.
    destruct (head_is ":" (skip_ws rest)) as [r1|] eqn:E1;
      [|split; discriminate].
    apply head_is_length in E1. pose proof (skip_ws_length r1) as Hw1.
    cbn [length] in Hf.
    destruct (IHs (skip_ws r1) ltac:(lia)) as [H3 H4].
    destruct (scan_once fuel (skip_ws r1)) as [v r2| |] eqn:E2;
      [|split; discriminate|contradiction].
    specialize (H4 _ _ eq_refl). pose proof (skip_ws_length r2) as Hw2.
    destruct (head_is "}" (skip_ws r2)) as [r|] eqn:E3.
    { apply head_is_length in E3. split; [discriminate|].
      intros v' r' [= _ <-]. cbn [length]. lia. }
    destruct (head_is "," (skip_ws r2)) as [r|] eqn:E4;
      [|split; discriminate].
    apply head_is_length in E4. pose proof (skip_ws_length r) as Hw3.
    destruct (IHo (skip_ws r) (pairs ++ [(key, v)])%list ltac:(lia))
      as [H5 H6].
    split; [exact H5|]. intros v' r' Hv. specialize (H6 _ _ Hv).
    cbn [length]. lia.
Qed.

(** [json.loads] yields a value or a [JSONDecodeError], nothing else. *)
Lemma json_loads_total (s : string) :
  (exists v, json_loads s = Ok v) \/
  (exists m, json_loads s = Err (JSONDecodeError m)).
Proof.
  unfold json_loads.
  pose proof (skip_ws_length s) as Hw.
  destruct (proj1 (scans_progress (S (2 * length s))) (skip_ws s) ltac:(lia))
    as [H _].
  destruct (scan_once _ _) as [v rest|m a|]; [| |contradiction].
  - destruct (skip_ws rest); [left|right]; eexists; reflexivity.
  - right. eexists. reflexivity.
Qed.

End JsonText.

(** ** The storage dictionary *)

Lemma task_value_ok (t : Task) :
  task_ok t = true -> value_ok (task_to_py t) = true.
Proof.
  unfold task_ok. intros H.
  apply andb_true_iff in H. destruct H as [H Hts].
  apply andb_true_iff in H. destruct H as [Hd Hp].
  unfold task_to_py. cbn [value_ok forallb]. rewrite Hd, Hp, Hts. reflexivity.
Qed.

Lemma log_value_ok (l : LogEntry) :
  log_ok l = true -> value_ok (log_to_py l) = true.
Proof.
  unfold log_ok. intros H. unfold log_to_py. cbn [value_ok forallb].
  rewrite H. reflexivity.
Qed.

Lemma storage_value_ok (ts : list Task) (ls : list LogEntry) :
  Forall (fun t => task_ok t = true) ts ->
  Forall (fun l => log_ok l = true) ls ->
  value_ok (PDict [("tasks", tasks_py ts); ("logs", logs_py ls)]) = true.
Proof.
  intros Hts Hls.
  assert (H1 : forallb value_ok (map task_to_py ts) = true).
  { apply forallb_forall. intros v Hv. apply in_map_iff in Hv.
    destruct Hv as (t & <- & Ht). apply task_value_ok.
    now apply (proj1 (Forall_forall _ _) Hts). }
  assert (H2 : forallb value_ok (map log_to_py ls) = true).
  { apply forallb_forall. intros v Hv. apply in_map_iff in Hv.
    destruct Hv as (l & <- & Hl). apply log_value_ok.
    now apply (proj1 (Forall_forall _ _) Hls). }
  change (value_ok (PDict [("tasks", tasks_py ts); ("logs", logs_py ls)]))
    with (true && (forallb value_ok (map task_to_py ts) &&
                   (forallb value_ok (map log_to_py ls) && true))).
  now rewrite H1, H2.
Qed.

Lemma task_to_py_inj (t t' : Task) : task_to_py t = task_to_py t' -> t = t'.
Proof.
  destruct t, t'. unfold task_to_py. cbn. intros H. now inversion H.
Qed.

Lemma log_to_py_inj (l l' : LogEntry) : log_to_py l = log_to_py l' -> l = l'.
Proof.
  destruct l, l'. unfold log_to_py. cbn. intros H. now inversion H.
Qed.

Lemma map_inj {A B : Type} (f : A -> B) (l l' : list A) :
  (forall a a', f a = f a' -> a = a') -> map f l = map f l' -> l = l'.
Proof.
  intros Hf. revert l'. induction l as [|a l IH]; intros [|a' l'] H;
    try discriminate H; [reflexivity|].
  cbn in H. inversion H. f_equal; auto.
Qed.

(* ================================================================= *)
(** * The claims *)




(** The slip next to C1: a decoded object with a true [verified] and no
    [feedback] is reported as a parse failure after the task has been
    flipped and the store saved. *)
Example verified_without_feedback :
  let client := scripted_client ("{" ++ dq ++ "verified" ++ dq ++ ": true}") in
  let r := handle_task_verification clock0 "done" client pending_state in
  snd r = Returned /\
  map t_status (tasks (fst r)) = ["verified"] /\
  List.length (logs (fst r)) = 1 /\
  chat_history (fst r) =
    [("assistant",
      "Failed to parse AI verification response: 'feedback'" ++ nl ++ nl ++
      "Raw response:" ++ nl ++ "{" ++ dq ++ "verified" ++ dq ++ ": true}")].
Proof. cbv zeta. repeat split; vm_compute; reflexivity. Qed.

(** C2, as the code has it: [handle_task_generation] has no guard of its own,
    so the invariant is the caller's.  In every state reached from an empty
    task list by calls of the two reducers in which a new task is asked for
    only while no task is pending, at most one task is pending.  From such a
    state a verification either leaves the tasks as they are or turns the one
    pending task, and nothing else, to verified; a generation leaves them as
    they are or appends one pending task. *)
Theorem C2_single_pending (s0 s : state) :
  tasks s0 = [] ->
  disciplined_steps s0 s ->
  count_pending (tasks s) <= 1 /\
  (forall clk user_input client,
     let s' := fst (handle_task_verification clk user_input client s) in
     tasks s' = tasks s \/
     exists before t after,
       tasks s = (before ++ t :: after)%list /\
       t_status t = "pending" /\
       tasks s' = (before ++ verified_copy t :: after)%list /\
       count_pending (tasks s') = 0) /\
  (forall clk client,
     let s' := fst (handle_task_generation clk client s) in
     tasks s' = tasks s \/
     exists t, tasks s' = (tasks s ++ [t])%list /\ t_status t = "pending").
Proof.
  intros H0 Hs.
  pose proof (disciplined_invariant s0 s H0 Hs) as Hinv.
  split; [exact Hinv|]. split.
  - intros clk ui client s'.
    destruct (verification_tasks clk ui client s) as [H|H]; [now left|].
    destruct (current_pending (tasks s)) as [t|] eqn:Hp.
    + right. destruct (mark_verified_split _ _ Hp)
        as (before & after & Hts & _ & Ht & Hm).
      exists before, t, after. subst s'. rewrite H.
      split; [exact Hts|]. split; [now apply String.eqb_eq|].
      split; [exact Hm|]. rewrite mark_verified_count. lia.
    + left. subst s'. unfold handle_task_verification. rewrite Hp. reflexivity.
  - intros clk client s'.
    destruct (generation_tasks clk client s) as [H | (d & p & H)]; [now left|].
    right. exists (generated_task clk s d p). split; [exact H | reflexivity].
Qed.

Lemma C2_witness :
  tasks empty_state = [] /\
  disciplined_steps empty_state
    (fst (handle_task_generation clock0 mock_client empty_state)) /\
  count_pending
    (tasks (fst (handle_task_generation clock0 mock_client empty_state))) <= 1.
Proof.
  assert (H0 : tasks empty_state = []) by reflexivity.
  assert (Hs : disciplined_steps empty_state
                 (fst (handle_task_generation clock0 mock_client empty_state))).
  { eapply dsteps_snoc; [apply dsteps_refl|].
    apply dstep_generate. reflexivity. }
  split; [exact H0|]. split; [exact Hs|].
  exact (proj1 (C2_single_pending empty_state _ H0 Hs)).
Defined.

(** C2 as stated fails: two calls of [handle_task_generation] in a row, from
    the empty state with the mock client, leave two pending tasks. *)
Lemma C2_counterexample :
  exists s,
    reachable s /\
    s = fst (handle_task_generation clock0 mock_client
               (fst (handle_task_generation clock0 mock_client empty_state))) /\
    map t_status (tasks s) = ["pending"; "pending"] /\
    count_pending (tasks s) = 2.
Proof.
  eexists. split; [|split; [reflexivity|]].
  - exists empty_state. split; [reflexivity|].
    eapply steps_snoc; [eapply steps_snoc; [apply steps_refl|]|];
      apply step_generate.
  - split; vm_compute; reflexivity.
Qed.



(** C4: when no task of the list has status pending, [handle_task_verification]
    returns at once: tasks, logs, notification and storage file are as
    before, no effect is recorded (no call of the backend, no write), and the
    chat history gains the fixed message. *)
Theorem C4_nothing_to_verify (clk : clock) (user_input : string)
  (client : GeminiClient) (s : state) :
  (forall t, In t (tasks s) -> t_status t <> "pending") ->
  let r := handle_task_verification clk user_input client s in
  snd r = Returned /\
  tasks (fst r) = tasks s /\
  logs (fst r) = logs s /\
  notification (fst r) = notification s /\
  storage_file (fst r) = storage_file s /\
  effects (fst r) = effects s /\
  chat_history (fst r) =
    (chat_history s ++
     [("assistant", "There are no pending tasks to verify.")])%list.
Proof.
  intros H. unfold handle_task_verification.
  rewrite (current_pending_none _ H). state_simpl. repeat split.
Qed.

Lemma C4_witness :
  (forall t, In t (tasks empty_state) -> t_status t <> "pending") /\
  chat_history (fst (handle_task_verification clock0 "done" mock_client empty_state))
  = [("assistant", "There are no pending tasks to verify.")].
Proof.
  assert (H : forall t, In t (tasks empty_state) -> t_status t <> "pending").
  { cbn. intros t []. }
  split; [exact H|].
  exact (proj2 (proj2 (proj2 (proj2 (proj2 (proj2
    (C4_nothing_to_verify clock0 "done" mock_client empty_state H))))))).
Defined.

(** C5, as the code has it: with the dummy key the constructor makes the mock
    client for any backend library, and [generate_response] is then a function
    of the prompt alone that sends nothing over the network.  A prompt in
    which "generate the next logical task" occurs gets the fixed task JSON;
    otherwise one in which "A task was marked as completed" occurs (with its
    capital A) gets the fixed verification JSON; every other prompt gets the
    generic text.  Both JSON texts decode to the objects with the fixed
    strings. *)
Theorem C5_mock_mode (genai : string -> backend) (prompt : string) :
  GeminiClient_init genai DUMMY_KEY = Ok mock_client /\
  (forall getenv,
     get_gemini_client genai getenv (Some DUMMY_KEY) = Ok mock_client) /\
  (forall c, api_key c = DUMMY_KEY ->
             generate_response c prompt = generate_response mock_client prompt) /\
  snd (generate_response mock_client prompt) = [] /\
  (occurs "generate the next logical task" prompt ->
   response_to mock_client prompt = MOCK_TASK_JSON) /\
  (~ occurs "generate the next logical task" prompt ->
   occurs "A task was marked as completed" prompt ->
   response_to mock_client prompt = MOCK_VERIFIED_JSON) /\
  (~ occurs "generate the next logical task" prompt ->
   ~ occurs "A task was marked as completed" prompt ->
   response_to mock_client prompt = MOCK_GENERIC) /\
  json_loads MOCK_TASK_JSON =
    Ok (PDict
      [("task_description", PStr "Mock task: Implement the user login page.");
       ("coding_prompt",
        PStr "Create a new Streamlit page for user login with username and password fields.")]) /\
  json_loads MOCK_VERIFIED_JSON =
    Ok (PDict [("verified", PBool true);
               ("feedback", PStr "This looks great. Well done.")]).
Proof.
  split; [reflexivity|].
  split; [reflexivity|].
  split.
  { intros c Hc. rewrite (dummy_client_response c prompt Hc).
    symmetry. now apply dummy_client_response. }
  split; [reflexivity|].
  unfold response_to.
  rewrite (dummy_client_response mock_client prompt eq_refl).
  cbn [fst]. unfold _get_mock_response.
  rewrite mock_task_json_eq, mock_verified_json_eq.
  split; [|split; [|split; [|split]]].
  - intros H. apply contains_occurs in H. now rewrite H.
  - intros H1 H2. apply occurs_dec_false in H1. apply contains_occurs in H2.
    now rewrite H1, H2.
  - intros H1 H2. apply occurs_dec_false in H1, H2. now rewrite H1, H2.
  - vm_compute. reflexivity.
  - vm_compute. reflexivity.
Qed.

(** C5 as stated fails: "task was marked as completed" occurs in this
    prompt and "generate the next logical task" does not, yet the mock client
    answers with the generic text, not with the verification payload. *)
Lemma C5_counterexample :
  occurs "task was marked as completed" "The task was marked as completed" /\
  contains "generate the next logical task" "The task was marked as completed"
    = false /\
  generate_response mock_client "The task was marked as completed"
    = (MOCK_GENERIC, []) /\
  MOCK_GENERIC <> MOCK_VERIFIED_JSON.
Proof.
  split; [apply contains_occurs; reflexivity|].
  split; [reflexivity|].
  split; [reflexivity|].
  discriminate.
Qed.

(** C6: for a non-empty chat input and a configured client, [main] records
    the user message and then: when "what's next" occurs in the lower-cased
    input it runs [handle_task_generation]; otherwise, when the lower-cased
    input begins with "done", it runs [handle_task_verification] on the input;
    otherwise it sends one prompt to the client, made of the input verbatim and
    the [repr] of the whole task list, and appends the reply to the chat
    history, leaving tasks, logs and storage as they were. *)
Theorem C6_classification (clk : clock) (client : GeminiClient)
  (user_input : string) (s : state) :
  user_input <> "" ->
  let s0 := append_chat "user" user_input s in
  let r := main_chat clk (Some client) user_input s in
  let gp := generic_prompt user_input (tasks s) in
  (occurs "what's next" (lower user_input) ->
   r = handle_task_generation clk client s0) /\
  (~ occurs "what's next" (lower user_input) ->
   begins_with "done" (lower user_input) ->
   r = handle_task_verification clk user_input client s0) /\
  (~ occurs "what's next" (lower user_input) ->
   ~ begins_with "done" (lower user_input) ->
   snd r = Returned /\
   tasks (fst r) = tasks s /\
   logs (fst r) = logs s /\
   storage_file (fst r) = storage_file s /\
   effects (fst r) = (effects s ++ call_effects client gp)%list /\
   chat_history (fst r) =
     (chat_history s ++
      [("user", user_input); ("assistant", response_to client gp)])%list /\
   gp = "User query: '" ++ user_input ++ "'. Previous context: " ++
        py_repr (tasks_py (tasks s))).
Proof.
  intros Hne s0 r gp. subst r. unfold main_chat.
  rewrite (eqb_false_of_neq _ _ Hne). fold s0.
  split; [|split].
  - intros H. apply contains_occurs in H. now rewrite H.
  - intros H1 H2. apply occurs_dec_false in H1.
    apply startswith_begins in H2. now rewrite H1, H2.
  - intros H1 H2. apply occurs_dec_false in H1. apply begins_dec_false in H2.
    rewrite H1, H2, ask_eq. subst s0 gp. state_simpl.
    rewrite <- app_assoc. repeat split.
Qed.

Lemma C6_witness :
  "done, added login form" <> "" /\
  main_chat clock0 (Some mock_client) "done, added login form" pending_state =
  handle_task_verification clock0 "done, added login form" mock_client
    (append_chat "user" "done, added login form" pending_state).
Proof.
  assert (H : "done, added login form" <> "") by discriminate.
  split; [exact H|].
  apply (proj1 (proj2 (C6_classification clock0 mock_client
                         "done, added login form" pending_state H))).
  - intros Ho. apply contains_occurs in Ho. vm_compute in Ho. discriminate Ho.
  - apply startswith_begins. vm_compute. reflexivity.
Defined.

(** C7, as the code has it: with a pending task (the first of the list with
    status pending), [handle_task_verification] hands the client a prompt in
    which the task's description, its coding prompt and the user's summary
    occur.  The trimmed summary is the input with every occurrence of the
    lower-case text "done" deleted (one left-to-right pass) and the white
    space at both ends stripped; the summary is the fixed placeholder when
    the trimmed summary is empty and the trimmed summary itself otherwise. *)
Theorem C7_verification_prompt (clk : clock) (user_input : string)
  (client : GeminiClient) (s : state) (t : Task) :
  current_pending (tasks s) = Some t ->
  let trimmed := strip (replace "done" "" user_input) in
  let summary := user_summary_of user_input in
  let vp := verification_prompt t summary in
  (exists before after,
     tasks s = (before ++ t :: after)%list /\
     Forall (fun x => is_pending x = false) before /\
     t_status t = "pending") /\
  (exists saved,
     effects (fst (handle_task_verification clk user_input client s)) =
     (effects s ++ call_effects client vp ++ saved)%list) /\
  occurs ("Task Description: " ++ py_str (t_description t)) vp /\
  occurs ("Original Coding Prompt: " ++ py_str (t_prompt t)) vp /\
  occurs ("User's Summary of Work: " ++ summary) vp /\
  (trimmed = "" -> summary = SUMMARY_PLACEHOLDER) /\
  (trimmed <> "" -> summary = trimmed).
Proof.
  intros Hp trimmed summary vp.
  split.
  { destruct (mark_verified_split _ _ Hp) as (before & after & Hts & Hb & Ht & _).
    exists before, after. repeat split; auto. now apply String.eqb_eq. }
  split; [exact (verification_effects clk user_input client s t Hp)|].
  split; [|split; [|split; [|split]]].
  - subst vp. unfold verification_prompt.
    rewrite <- !append_assoc, !append_assoc.
    rewrite <- (append_assoc nl (line _) _), <- (append_assoc _ nl).
    apply occurs_line.
  - subst vp. unfold verification_prompt.
    match goal with
    | |- occurs _ (?a ++ ?b ++ ?c ++ ?d ++ ?e) =>
        replace (a ++ b ++ c ++ d ++ e) with ((a ++ b ++ c ++ d) ++ e)
          by (now rewrite !append_assoc)
    end.
    apply occurs_line.
  - subst vp. unfold verification_prompt.
    match goal with
    | |- occurs _ (?a ++ ?b ++ ?c ++ ?d ++ ?e ++ ?f) =>
        replace (a ++ b ++ c ++ d ++ e ++ f) with ((a ++ b ++ c ++ d ++ e) ++ f)
          by (now rewrite !append_assoc)
    end.
    apply occurs_line.
  - intros H. subst summary. unfold user_summary_of, trimmed_summary.
    fold trimmed. now rewrite H.
  - intros H. subst summary. unfold user_summary_of, trimmed_summary.
    fold trimmed. now rewrite (eqb_false_of_neq _ _ H).
Qed.

Lemma C7_witness :
  current_pending (tasks pending_state) = Some pending_task /\
  occurs ("User's Summary of Work: , added login form")
    (verification_prompt pending_task
       (user_summary_of "done, added login form")).
Proof.
  assert (H : current_pending (tasks pending_state) = Some pending_task)
    by reflexivity.
  split; [exact H|].
  exact (proj1 (proj2 (proj2 (proj2 (proj2
    (C7_verification_prompt clock0 "done, added login form" mock_client
       pending_state pending_task H)))))).
Defined.

(** C7 as stated fails twice.  The summary can be the placeholder although
    the trimmed summary is not empty; and what is deleted is every lower-case
    "done", not the leading word: "Done" stays, and the "done" inside
    "abandoned" goes. *)
Lemma C7_counterexample :
  begins_with "done"
    (lower "done User marked task as dodonene without providing a summary.") /\
  trimmed_summary
    "done User marked task as dodonene without providing a summary."
    = SUMMARY_PLACEHOLDER /\
  SUMMARY_PLACEHOLDER <> "" /\
  user_summary_of
    "done User marked task as dodonene without providing a summary."
    = SUMMARY_PLACEHOLDER /\
  begins_with "done" (lower "Done, added login form") /\
  user_summary_of "Done, added login form" = "Done, added login form" /\
  begins_with "done" (lower "done: abandoned the old form") /\
  user_summary_of "done: abandoned the old form" = ": aband the old form".
Proof.
  split; [apply startswith_begins; reflexivity|].
  split; [vm_compute; reflexivity|].
  split; [discriminate|].
  split; [vm_compute; reflexivity|].
  split; [apply startswith_begins; reflexivity|].
  split; [vm_compute; reflexivity|].
  split; [apply startswith_begins; reflexivity|].
  vm_compute; reflexivity.
Qed.

(** C8, as the code has it: the factory hands one key to the constructor,
    the explicit key when it is given and not empty (whatever the environment
    holds), else the value of the environment variable when that is set and
    not empty.  Construction fails exactly when there is no such key or the
    key is the placeholder [YOUR_GEMINI_API_KEY]; with neither source the
    factory raises its own error, and a client that is built carries the
    selected key. *)
Theorem C8_construction (genai : string -> backend) (getenv key : option string) :
  (failed (get_gemini_client genai getenv key) <->
   selected_key getenv key = None \/
   selected_key getenv key = Some PLACEHOLDER_KEY) /\
  (forall k, key = Some k -> k <> "" ->
     selected_key getenv key = Some k /\
     forall getenv', get_gemini_client genai getenv' key = GeminiClient_init genai k) /\
  (key_given key = None -> selected_key getenv key = key_given getenv) /\
  (key_given key = None -> key_given getenv = None ->
     get_gemini_client genai getenv key =
     Err (ValueError "API Key for Gemini not found or provided.")) /\
  (forall c, get_gemini_client genai getenv key = Ok c ->
     selected_key getenv key = Some (api_key c) /\ usable (api_key c) = true).
Proof.
  rewrite get_client_selected.
  split; [|split; [|split; [|split]]].
  - destruct (selected_key getenv key) as [k|] eqn:E.
    + rewrite init_fails_iff. split.
      * intros [-> | ->]; [|now right].
        unfold selected_key in E.
        destruct (key_given key) eqn:E1.
        -- inversion E; subst. now apply key_given_nonempty in E1.
        -- now apply key_given_nonempty in E.
      * intros [H|H]; [discriminate|]. inversion H. now right.
    + split; [now left | intros _; eexists; reflexivity].
  - intros k -> Hk. unfold selected_key, get_gemini_client, key_given.
    rewrite (eqb_false_of_neq k "" Hk). split; [reflexivity|]. intros; reflexivity.
  - intros H. unfold selected_key. now rewrite H.
  - intros H1 H2. unfold selected_key. now rewrite H1, H2.
  - intros c Hc. destruct (selected_key getenv key) as [k|] eqn:E; [|discriminate].
    pose proof (init_api_key _ _ _ Hc) as Hk. rewrite Hk. split; [reflexivity|].
    assert (Hnf : ~ failed (GeminiClient_init genai k)).
    { intros [e He]. rewrite He in Hc. discriminate. }
    rewrite init_fails_iff in Hnf. unfold usable.
    destruct (String.eqb_spec k ""); [elim Hnf; now left|].
    destruct (String.eqb_spec k PLACEHOLDER_KEY); [elim Hnf; now right|].
    reflexivity.
Qed.

(** C8 as stated fails: the environment holds a usable key, but the explicit
    key is the placeholder, and construction raises. *)
Lemma C8_counterexample :
  usable "a-real-key" = true /\
  get_gemini_client (fun _ _ => inl "") (Some "a-real-key")
    (Some PLACEHOLDER_KEY)
  = Err (ValueError "Gemini API key is not configured.").
Proof. split; reflexivity. Qed.

(** C9: for tasks and logs of the schema (every float a number that equals
    itself, dictionary keys distinct), what [load_json] reads from the file
    that [save_project_data] wrote is the saved dictionary: its [tasks] and
    [logs] are the saved lists, and a task list or log list that reads the
    same is the saved one, element by element and in the same order. *)
Theorem C9_storage_round_trip (s : state) :
  Forall (fun t => task_ok t = true) (tasks s) ->
  Forall (fun l => log_ok l = true) (logs s) ->
  let s' := save_project_data s in
  storage_file s' = Some (json_dump_indent4 (storage_data s)) /\
  exists storage,
    load_json (storage_file s') = Ok storage /\
    storage = storage_data s /\
    storage_get storage "tasks" = tasks_py (tasks s) /\
    storage_get storage "logs" = logs_py (logs s) /\
    (forall ts, tasks_py ts = storage_get storage "tasks" -> ts = tasks s) /\
    (forall ls, logs_py ls = storage_get storage "logs" -> ls = logs s).
Proof.
  intros Hts Hls s'. split; [reflexivity|].
  exists (storage_data s). split.
  - subst s'. unfold save_project_data, save_json, load_json.
    cbn [storage_file]. unfold json_dump_indent4, storage_data.
    now rewrite (loads_encoded _ (Some 4) 0 (storage_value_ok _ _ Hts Hls)).
  - split; [reflexivity|]. split; [reflexivity|]. split; [reflexivity|]. split.
    + intros ts H. cbn in H. unfold tasks_py in H. inversion H as [H'].
      exact (map_inj task_to_py _ _ task_to_py_inj H').
    + intros ls H. cbn in H. unfold logs_py in H. inversion H as [H'].
      exact (map_inj log_to_py _ _ log_to_py_inj H').
Qed.

Lemma C9_witness :
  let s := fst (handle_task_generation clock0 mock_client empty_state) in
  Forall (fun t => task_ok t = true) (tasks s) /\
  Forall (fun l => log_ok l = true) (logs s) /\
  load_json (storage_file (save_project_data s)) = Ok (storage_data s).
Proof.
  cbv zeta.
  assert (Ht : Forall (fun t => task_ok t = true)
                 (tasks (fst (handle_task_generation clock0 mock_client
                                empty_state)))).
  { vm_compute. repeat constructor. }
  assert (Hl : Forall (fun l => log_ok l = true)
                 (logs (fst (handle_task_generation clock0 mock_client
                               empty_state)))).
  { vm_compute. repeat constructor. }
  split; [exact Ht|]. split; [exact Hl|].
  destruct (proj2 (C9_storage_round_trip _ Ht Hl)) as (storage & H & -> & _).
  exact H.
Defined.

(** C10: when "what's next" occurs in the lower-cased input and the
    lower-cased input also begins with "done", [main] runs
    [handle_task_generation]: the only prompt it hands to the client is the
    generation prompt, which is no verification prompt. *)
Theorem C10_whats_next_before_done (clk : clock) (client : GeminiClient)
  (user_input : string) (s : state) :
  occurs "what's next" (lower user_input) ->
  begins_with "done" (lower user_input) ->
  let s0 := append_chat "user" user_input s in
  let r := main_chat clk (Some client) user_input s in
  r = handle_task_generation clk client s0 /\
  exists added,
    effects (fst r) = (effects s ++ added)%list /\
    In (GenerateResponse (generation_prompt (tasks s))) added /\
    forall p, In (GenerateResponse p) added ->
      p = generation_prompt (tasks s) /\
      forall t summary, p <> verification_prompt t summary.
Proof.
  intros Ho Hb s0 r.
  assert (Hne : user_input <> "").
  { apply (occurs_nonempty "what's next"); [discriminate | exact Ho]. }
  assert (Hr : r = handle_task_generation clk client s0).
  { apply (proj1 (dispatch_by_text clk client user_input s Hne)), Ho. }
  split; [exact Hr|].
  destruct (generation_effects clk client s0) as (saved & He & Hs).
  exists (call_effects client (generation_prompt (tasks s)) ++ saved)%list.
  rewrite Hr. split; [exact He|]. split.
  - apply in_or_app. left. left. reflexivity.
  - intros p Hp. apply in_app_or in Hp. destruct Hp as [Hp|Hp].
    + apply call_effects_prompt in Hp. subst p. split; [reflexivity|].
      intros t summary. apply prompts_differ.
    + destruct (Hs _ Hp) as [text Ht]. discriminate Ht.
Qed.

Lemma C10_witness :
  occurs "what's next" (lower "done, what's next") /\
  begins_with "done" (lower "done, what's next") /\
  main_chat clock0 (Some mock_client) "done, what's next" pending_state =
  handle_task_generation clock0 mock_client
    (append_chat "user" "done, what's next" pending_state).
Proof.
  assert (Ho : occurs "what's next" (lower "done, what's next")).
  { apply contains_occurs. vm_compute. reflexivity. }
  assert (Hb : begins_with "done" (lower "done, what's next")).
  { apply startswith_begins. vm_compute. reflexivity. }
  split; [exact Ho|]. split; [exact Hb|].
  exact (proj1 (C10_whats_next_before_done clock0 mock_client
                  "done, what's next" pending_state Ho Hb)).
Defined.

(* ================================================================= *)
(** * The rest of the program *)

(** ** The order of the task list *)

Lemma verified_not_pending (t : Task) :
  t_status t = "verified" -> is_pending t = false.
Proof. unfold is_pending. intros ->. reflexivity. Qed.

Lemma pending_not_verified (t : Task) :
  t_status t = "pending" -> is_verified t = false.
Proof. unfold is_verified. intros ->. reflexivity. Qed.

Lemma current_pending_after_done (done todo : list Task) :
  Forall (fun t => t_status t = "verified") done ->
  Forall (fun t => t_status t = "pending") todo ->
  current_pending (done ++ todo) = hd_error todo.
Proof.
  intros Hd Ht. induction Hd as [|t done H _ IH].
  - destruct Ht as [|t todo H _]; [reflexivity|].
    cbn [Datatypes.app current_pending hd_error]. unfold is_pending. rewrite H. reflexivity.
  - cbn [Datatypes.app current_pending]. rewrite (verified_not_pending t H). exact IH.
Qed.

Lemma find_none_app {A : Type} (p : A -> bool) (l l' : list A) :
  Forall (fun a => p a = false) l -> find p (l ++ l') = find p l'.
Proof.
  intros H. induction H as [|a l Ha _ IH]; [reflexivity|].
  cbn [Datatypes.app find]. rewrite Ha. exact IH.
Qed.

Lemma last_completed_after_done (done todo : list Task) :
  Forall (fun t => t_status t = "verified") done ->
  Forall (fun t => t_status t = "pending") todo ->
  last_completed_task (done ++ todo) = hd_error (List.rev done).
Proof.
  intros Hd Ht. unfold last_completed_task. rewrite rev_app_distr.
  rewrite find_none_app.
  - apply Forall_rev in Hd. destruct Hd as [|t l H _]; [reflexivity|].
    cbn [find hd_error]. unfold is_verified. rewrite H. reflexivity.
  - apply Forall_rev.
    eapply Forall_impl; [|exact Ht]. intros t. apply pending_not_verified.
Qed.

Lemma mark_verified_after_done (done todo : list Task) :
  Forall (fun t => t_status t = "verified") done ->
  mark_verified (done ++ todo) = (done ++ mark_verified todo)%list.
Proof.
  intros Hd. induction Hd as [|t done H _ IH]; [reflexivity|].
  cbn [Datatypes.app mark_verified]. rewrite (verified_not_pending t H), IH. reflexivity.
Qed.

Lemma mark_verified_pending (t : Task) (ts : list Task) :
  t_status t = "pending" -> mark_verified (t :: ts) = verified_copy t :: ts.
Proof.
  intros H. change (mark_verified (t :: ts))
    with (if is_pending t then verified_copy t :: ts
          else t :: mark_verified ts).
  unfold is_pending. rewrite H. reflexivity.
Qed.

Lemma step_keeps_order (s s' : state) (done todo : list Task) :
  reducer_step s s' ->
  tasks s = (done ++ todo)%list ->
  Forall (fun t => t_status t = "verified") done ->
  Forall (fun t => t_status t = "pending") todo ->
  exists done' todo',
    tasks s' = (done' ++ todo')%list /\
    Forall (fun t => t_status t = "verified") done' /\
    Forall (fun t => t_status t = "pending") todo'.
Proof.
  intros Hstep Hs Hd Ht. destruct Hstep as [clk client s | clk ui client s].
  - destruct (generation_tasks clk client s) as [H | (d & p & H)]; rewrite H.
    + now exists done, todo.
    + exists done, (todo ++ [generated_task clk s d p])%list.
      rewrite Hs, <- app_assoc. split; [reflexivity|]. split; [exact Hd|].
      apply Forall_app. split; [exact Ht|]. now constructor.
  - destruct (verification_tasks clk ui client s) as [H | H]; rewrite H.
    + now exists done, todo.
    + rewrite Hs, (mark_verified_after_done _ _ Hd).
      destruct Ht as [|t todo Hp Ht]; [now exists done, []|].
      rewrite (mark_verified_pending _ _ Hp).
      exists (done ++ [verified_copy t])%list, todo.
      rewrite <- app_assoc. split; [reflexivity|]. split; [|exact Ht].
      apply Forall_app. split; [exact Hd|]. now constructor.
Qed.

Lemma steps_keep_order (s s' : state) :
  reducer_steps s s' ->
  tasks s = [] ->
  exists done todo,
    tasks s' = (done ++ todo)%list /\
    Forall (fun t => t_status t = "verified") done /\
    Forall (fun t => t_status t = "pending") todo.
Proof.
  intros Hs H0. induction Hs as [s | s s' s'' _ IH Hstep].
  - exists [], []. rewrite H0. repeat split; constructor.
  - destruct (IH H0) as (done & todo & H & Hd & Ht).
    exact (step_keeps_order _ _ _ _ Hstep H Hd Ht).
Qed.

Lemma ids_from_length (first n : nat) : List.length (ids_from first n) = n.
Proof. unfold ids_from. now rewrite length_map, length_seq. Qed.

Lemma reachable_ids (s : state) :
  reachable s -> map t_id (tasks s) = ids_from 1 (List.length (tasks s)).
Proof.
  intros (s0 & H0 & Hs). destruct (steps_ids _ _ Hs) as [k Hk].
  rewrite H0 in Hk. cbn [map Datatypes.app List.length] in Hk.
  assert (Hl : List.length (tasks s) = k).
  { rewrite <- (length_map t_id), Hk. apply ids_from_length. }
  now rewrite Hl.
Qed.

Lemma ids_from_nth (first n k : nat) :
  k < n -> nth_error (ids_from first n) k = Some (Z.of_nat (first + k)).
Proof.
  intros H. unfold ids_from. rewrite nth_error_map.
  rewrite nth_error_seq. destruct (Nat.ltb_spec k n); [reflexivity | lia].
Qed.

Lemma id_at (ts done todo : list Task) (t : Task) :
  map t_id ts = ids_from 1 (List.length ts) ->
  ts = (done ++ t :: todo)%list ->
  t_id t = Z.of_nat (S (List.length done)).
Proof.
  intros Hi Hs.
  assert (H : nth_error (map t_id ts) (List.length done) = Some (t_id t)).
  { rewrite nth_error_map, Hs, nth_error_app2 by lia.
    now rewrite Nat.sub_diag. }
  rewrite Hi, ids_from_nth in H.
  - now inversion H.
  - rewrite Hs, length_app. cbn [List.length]. lia.
Qed.

Lemma reachable_order (s : state) :
  reachable s ->
  exists done todo,
    tasks s = (done ++ todo)%list /\
    Forall (fun t => t_status t = "verified") done /\
    Forall (fun t => t_status t = "pending") todo.
Proof. intros (s0 & H0 & Hs). exact (steps_keep_order _ _ Hs H0). Qed.

(** ** The storage file follows the store *)

Lemma step_sync (s s' : state) :
  reducer_step s s' ->
  (tasks s' = tasks s /\ logs s' = logs s /\ storage_file s' = storage_file s) \/
  in_sync s'.
Proof.
  intros [clk client s0 | clk ui client s0].
  - rewrite generation_unfold. cbv zeta.
    destruct (task_fields _) as [[d p]|e].
    + right. reflexivity.
    + left. destruct (caught e); repeat split.
  - destruct (current_pending (tasks s0)) as [t|] eqn:Hp.
    + rewrite (verification_unfold _ _ _ _ _ Hp). cbv zeta.
      destruct (json_loads _) as [data|e];
        [|left; destruct (caught e); repeat split].
      destruct (get_method data "verified" PNone) as [verified|e];
        [|left; destruct (caught e); repeat split].
      destruct (truthy verified).
      * right. destruct (getitem data "feedback") as [f|e];
          [reflexivity | destruct (caught e); reflexivity].
      * destruct (get_method data "feedback" _) as [f|e];
          [right; reflexivity | left; destruct (caught e); repeat split].
    + left. unfold handle_task_verification. rewrite Hp. repeat split.
Qed.

Lemma steps_sync (s s' : state) :
  reducer_steps s s' ->
  (tasks s' = tasks s /\ logs s' = logs s /\ storage_file s' = storage_file s) \/
  in_sync s'.
Proof.
  intros Hs. induction Hs as [s | s s' s'' _ IH Hstep].
  - left. repeat split.
  - destruct (step_sync _ _ Hstep) as [(Ht & Hl & Hf) | H]; [|now right].
    destruct IH as [(Ht' & Hl' & Hf') | H'].
    + left. repeat split; congruence.
    + right. unfold in_sync in *. congruence.
Qed.

(** ** A backend that raises *)

Lemma rstrip_head (c : ascii) (s : string) :
  isspace c = false -> exists r, rstrip (String c s) = String c r.
Proof.
  intros H. cbn [rstrip]. destruct (rstrip s) as [|c' r'].
  - rewrite H. now exists "".
  - now exists (String c' r').
Qed.

Lemma strip_head (c : ascii) (s : string) :
  isspace c = false -> exists r, strip (String c s) = String c r.
Proof.
  intros H. unfold strip. cbn [lstrip]. rewrite H. now apply rstrip_head.
Qed.

Lemma transport_error_undecodable (e : string) :
  json_loads (clean_response (TRANSPORT_ERROR ++ e)) =
  Err (JSONDecodeError NO_VALUE).
Proof.
  unfold clean_response, TRANSPORT_ERROR.
  change ("An error occurred while communicating with the Gemini API: " ++ e)
    with (String "A" ("n error occurred while communicating with the Gemini API: " ++ e)).
  destruct (strip_head "A" ("n error occurred while communicating with the Gemini API: " ++ e) eq_refl)
    as [r ->].
  change (replace "```json" "" (String "A" r))
    with (String "A" (replace_from "```json" "" 0 r)).
  set (r' := replace_from "```json" "" 0 r).
  change (replace "```" "" (String "A" r'))
    with (String "A" (replace_from "```" "" 0 r')).
  set (r'' := replace_from "```" "" 0 r').
  unfold json_loads.
  change (skip_ws (String "A" r'')) with (String "A" r'').
  change (scan_once (S (2 * length (String "A" r''))) (String "A" r''))
    with (@ScanError pyval "Expecting value" (String "A" r'')).
  cbv beta iota. rewrite Nat.sub_diag. reflexivity.
Qed.

Lemma failing_backend_response (client : GeminiClient) (b : backend)
  (prompt e : string) :
  api_key client <> DUMMY_KEY ->
  model client = Some b ->
  b prompt = inr e ->
  generate_response client prompt = (TRANSPORT_ERROR ++ e, [prompt]).
Proof.
  intros Hk Hm Hb. unfold generate_response.
  rewrite (eqb_false_of_neq _ _ Hk), Hm, Hb. reflexivity.
Qed.

Lemma generation_undecodable (clk : clock) (client : GeminiClient) (s : state)
  (m : string) :
  let gp := generation_prompt (tasks s) in
  let ai := response_to client gp in
  json_loads (clean_response ai) = Err (JSONDecodeError m) ->
  handle_task_generation clk client s =
  (append_chat "assistant" (generation_error_message (JSONDecodeError m) ai)
     (add_effects (call_effects client gp) s), Returned).
Proof.
  intros gp ai H. rewrite generation_unfold. fold gp ai.
  unfold task_fields. rewrite H. reflexivity.
Qed.

Lemma verification_undecodable (clk : clock) (user_input : string)
  (client : GeminiClient) (s : state) (t : Task) (m : string) :
  current_pending (tasks s) = Some t ->
  let vp := verification_prompt t (user_summary_of user_input) in
  let ai := response_to client vp in
  json_loads (clean_response ai) = Err (JSONDecodeError m) ->
  handle_task_verification clk user_input client s =
  (append_chat "assistant" (verification_error_message (JSONDecodeError m) ai)
     (add_effects (call_effects client vp) s), Returned).
Proof.
  intros Hp vp ai H. rewrite (verification_unfold _ _ _ _ _ Hp). fold vp ai.
  cbv zeta. rewrite H. reflexivity.
Qed.

Lemma chat_after_effects (s : state) (extra : list effect) (message : string) :
  only_chat_added s (append_chat "assistant" message (add_effects extra s))
    extra message.
Proof. repeat split. Qed.

(** ** The mock backend under the reducers *)

Lemma generation_prompt_trigger (ts : list Task) :
  contains GENERATION_TRIGGER (generation_prompt ts) = true.
Proof. lazy. reflexivity. Qed.

Lemma verification_prompt_trigger (t : Task) (summary : string) :
  contains VERIFICATION_TRIGGER (verification_prompt t summary) = true.
Proof. lazy. reflexivity. Qed.

Lemma mock_generation_response (client : GeminiClient) (ts : list Task) :
  api_key client = DUMMY_KEY ->
  generate_response client (generation_prompt ts) = (MOCK_TASK_JSON, []).
Proof.
  intros H. rewrite (dummy_client_response _ _ H). unfold _get_mock_response.
  pose proof (generation_prompt_trigger ts) as Ht.
  unfold GENERATION_TRIGGER in Ht. rewrite Ht. reflexivity.
Qed.

Lemma mock_verification_response (client : GeminiClient) (t : Task)
  (summary : string) :
  api_key client = DUMMY_KEY ->
  generate_response client (verification_prompt t summary) =
  (if contains GENERATION_TRIGGER (verification_prompt t summary)
   then MOCK_TASK_JSON else MOCK_VERIFIED_JSON, []).
Proof.
  intros H. rewrite (dummy_client_response _ _ H). unfold _get_mock_response.
  pose proof (verification_prompt_trigger t summary) as Ht.
  unfold VERIFICATION_TRIGGER in Ht. rewrite Ht. unfold GENERATION_TRIGGER.
  destruct (contains _ _); reflexivity.
Qed.

Lemma mock_task_decodes :
  json_loads (clean_response MOCK_TASK_JSON) =
  Ok (PDict [("task_description", MOCK_DESCRIPTION);
             ("coding_prompt", MOCK_PROMPT)]).
Proof. vm_compute. reflexivity. Qed.

Lemma mock_verified_decodes :
  json_loads (clean_response MOCK_VERIFIED_JSON) =
  Ok (PDict [("verified", PBool true); ("feedback", MOCK_FEEDBACK)]).
Proof. vm_compute. reflexivity. Qed.

(** ** One run of main *)

Lemma main_client_selected (i : inputs) :
  main_client i =
  match selected_key (env_getenv i) (Some (in_api_key i)) with
  | Some k =>
      if String.eqb k PLACEHOLDER_KEY then Ok None
      else Ok (Some (mkClient k
             (if negb (String.eqb k DUMMY_KEY) then Some (env_genai i k)
              else None)))
  | None => Ok None
  end.
Proof.
  unfold main_client. rewrite get_client_selected.
  destruct (selected_key _ _) as [k|] eqn:Hs; [|reflexivity].
  assert (Hk : k <> "").
  { unfold selected_key in Hs.
    destruct (key_given (Some (in_api_key i))) as [k'|] eqn:H1.
    - injection Hs as <-. exact (proj2 (key_given_nonempty _ _ H1)).
    - exact (proj2 (key_given_nonempty _ _ Hs)). }
  unfold GeminiClient_init. rewrite (eqb_false_of_neq _ _ Hk).
  destruct (String.eqb k PLACEHOLDER_KEY) eqn:Hp; [|reflexivity].
  apply String.eqb_eq in Hp. subst k. reflexivity.
Qed.

Lemma main_client_total (i : inputs) : exists gc, main_client i = Ok gc.
Proof.
  rewrite main_client_selected. destruct (selected_key _ _) as [k|].
  - destruct (String.eqb k PLACEHOLDER_KEY); eexists; reflexivity.
  - eexists; reflexivity.
Qed.

(** The ways a run of [main] goes. *)
Lemma main_cases (i : inputs) (x : session) :
  (exists e, load_config x = Err e /\ main i x = (x, Raised e)) \/
  (exists config,
     load_config x = Ok config /\ in_save i = true /\
     main i x = save_configuration config i x) \/
  (exists config gc,
     load_config x = Ok config /\ in_save i = false /\
     main_client i = Ok gc /\
     ((exists event rest,
         repo_event_queue x = event :: rest /\
         main i x = process_repo_events i (setup_monitoring i x) /\
         snd (main i x) = Rerun) \/
      (repo_event_queue x = [] /\
       main i x = chat gc i (show_notification (setup_monitoring i x))))).
Proof.
  unfold main. destruct (load_config x) as [config|e]; [|left; now exists e].
  right. destruct (in_save i); [left; now exists config|].
  right. destruct (main_client_total i) as [gc Hg]. rewrite Hg.
  exists config, gc. split; [reflexivity|]. split; [reflexivity|].
  split; [reflexivity|].
  assert (Hq : repo_event_queue (setup_monitoring i x) = repo_event_queue x).
  { unfold setup_monitoring.
    destruct (_ && _); [|reflexivity].
    destruct (negb _); [|reflexivity].
    destruct (start_monitoring _ _ _) as [[o st]|]; reflexivity. }
  unfold process_repo_events. rewrite Hq.
  destruct (repo_event_queue x) as [|event rest].
  - right. split; reflexivity.
  - left. exists event, rest. repeat split.
Qed.

Ltac setup_cases i x :=
  unfold setup_monitoring;
  destruct (negb (String.eqb (in_repo_path i) "") &&
            env_isdir i (in_repo_path i));
  [destruct (negb (optional_eqb (monitoring_path x) (in_repo_path i)));
   [destruct (start_monitoring (env_can_watch i) (in_repo_path i)
                (stop_monitoring (repo_observer x) (observers x)))
      as [[? ?]|]|]|].

Lemma setup_queue (i : inputs) (x : session) :
  repo_event_queue (setup_monitoring i x) = repo_event_queue x.
Proof. setup_cases i x; reflexivity. Qed.

Lemma setup_config (i : inputs) (x : session) :
  config_file (setup_monitoring i x) = config_file x.
Proof. setup_cases i x; reflexivity. Qed.

Lemma setup_toasts (i : inputs) (x : session) :
  toasts (setup_monitoring i x) = toasts x.
Proof. setup_cases i x; reflexivity. Qed.

(** The setup changes the store by at most its own log entry. *)
Lemma setup_app_state (i : inputs) (x : session) :
  app_state (setup_monitoring i x) = app_state x \/
  app_state (setup_monitoring i x) =
    log_event (at_setup i) "Repo Monitoring Started"
      (PDict [("path", PStr (in_repo_path i))]) (app_state x).
Proof. setup_cases i x; auto. Qed.

Lemma logged_events_app (ls new : list LogEntry) :
  logged_events (ls ++ new) = (logged_events ls ++ logged_events new)%list.
Proof. unfold logged_events. now rewrite filter_app, map_app. Qed.

(** [s'] has the logs of [s] and after them entries that record no
    repository event. *)
Lemma generation_logs (clk : clock) (client : GeminiClient) (s : state) :
  exists new,
    logs (fst (handle_task_generation clk client s)) = (logs s ++ new)%list /\
    logged_events new = [].
Proof.
  rewrite generation_unfold. cbv zeta. destruct (task_fields _) as [[d p]|e].
  - eexists. split; reflexivity.
  - exists []. destruct (caught e); cbn; now rewrite List.app_nil_r.
Qed.

Lemma verification_logs (clk : clock) (user_input : string)
  (client : GeminiClient) (s : state) :
  exists new,
    logs (fst (handle_task_verification clk user_input client s)) =
      (logs s ++ new)%list /\
    logged_events new = [].
Proof.
  assert (Hnil : forall s' : state, logs s' = logs s ->
                 exists new, logs s' = (logs s ++ new)%list /\
                             logged_events new = []).
  { intros s' H. exists []. now rewrite List.app_nil_r. }
  destruct (current_pending (tasks s)) as [t|] eqn:Hp.
  - rewrite (verification_unfold _ _ _ _ _ Hp). cbv zeta.
    destruct (json_loads _) as [data|e];
      [|apply Hnil; destruct (caught e); reflexivity].
    destruct (get_method data "verified" PNone) as [verified|e];
      [|apply Hnil; destruct (caught e); reflexivity].
    destruct (truthy verified).
    + destruct (getitem data "feedback") as [f|e];
        [|destruct (caught e)]; eexists; split; reflexivity.
    + destruct (get_method data "feedback" _) as [f|e];
        [eexists; split; reflexivity
        |apply Hnil; destruct (caught e); reflexivity].
  - unfold handle_task_verification. rewrite Hp. now apply Hnil.
Qed.

Lemma main_chat_logs (clk : clock) (gc : option GeminiClient)
  (user_input : string) (s : state) :
  exists new,
    logs (fst (main_chat clk gc user_input s)) = (logs s ++ new)%list /\
    logged_events new = [].
Proof.
  unfold main_chat. destruct (String.eqb user_input "").
  - exists []. now rewrite List.app_nil_r.
  - destruct gc as [client|].
    + destruct (contains _ _).
      * apply (generation_logs clk client (append_chat "user" user_input s)).
      * destruct (startswith _ _).
        -- apply (verification_logs clk user_input client
                    (append_chat "user" user_input s)).
        -- rewrite ask_eq. exists []. cbn. now rewrite List.app_nil_r.
    + exists []. cbn. now rewrite List.app_nil_r.
Qed.

Lemma show_notification_logs (x : session) :
  logs (app_state (show_notification x)) = logs (app_state x) /\
  repo_event_queue (show_notification x) = repo_event_queue x.
Proof.
  unfold show_notification. destruct (notification (app_state x)) as [n|];
    [destruct (String.eqb n "")|]; split; reflexivity.
Qed.

Lemma chat_queue (gc : option GeminiClient) (i : inputs) (x : session) :
  repo_event_queue (fst (chat gc i x)) = repo_event_queue x /\
  exists new,
    logs (app_state (fst (chat gc i x))) = (logs (app_state x) ++ new)%list /\
    logged_events new = [].
Proof.
  unfold chat. destruct (in_user_input i) as [u|].
  - destruct (main_chat_logs (at_chat i) gc u (app_state x)) as (new & H & Hn).
    destruct (main_chat (at_chat i) gc u (app_state x)) as [a o].
    split; [reflexivity|]. exists new. split; [exact H | exact Hn].
  - split; [reflexivity|]. exists []. split; [now rewrite List.app_nil_r|].
    reflexivity.
Qed.

(** The events of the log and of the queue, in their order. *)
Lemma main_ledger (i : inputs) (x : session) :
  (logged_events (logs (app_state (fst (main i x)))) ++
   map event_to_py (repo_event_queue (fst (main i x))))%list =
  (logged_events (logs (app_state x)) ++
   map event_to_py (repo_event_queue x))%list.
Proof.
  destruct (main_cases i x)
    as [(e & _ & ->) | [(config & _ & _ & ->) |
        (config & gc & _ & _ & _ &
         [(event & rest & Hq & -> & _) | (Hq & ->)])]].
  - reflexivity.
  - unfold save_configuration. destruct (bind _ _); reflexivity.
  - unfold process_repo_events. rewrite setup_queue, Hq.
    cbn [fst app_state repo_event_queue set_notification log_event logs].
    rewrite logged_events_app.
    destruct (setup_app_state i x) as [-> | ->].
    + cbn. now rewrite <- app_assoc.
    + cbn [log_event logs]. rewrite logged_events_app. cbn.
      now rewrite List.app_nil_r, <- app_assoc.
  - destruct (chat_queue gc i (show_notification (setup_monitoring i x)))
      as (-> & new & -> & Hn).
    destruct (show_notification_logs (setup_monitoring i x)) as (-> & ->).
    rewrite setup_queue, logged_events_app, Hn, List.app_nil_r.
    destruct (setup_app_state i x) as [-> | ->]; [reflexivity|].
    cbn [log_event logs]. rewrite logged_events_app. cbn.
    now rewrite List.app_nil_r.
Qed.

Lemma run_cons (a : action) (acts : list action) (x : session) :
  run (a :: acts) x = run acts (act a x).
Proof. reflexivity. Qed.

Lemma run_app (acts acts' : list action) (x : session) :
  run (acts ++ acts') x = run acts' (run acts x).
Proof. unfold run. apply fold_left_app. Qed.

Lemma run_ledger (acts : list action) (x : session) :
  (logged_events (logs (app_state (run acts x))) ++
   map event_to_py (repo_event_queue (run acts x)))%list =
  (logged_events (logs (app_state x)) ++
   map event_to_py (repo_event_queue x ++ put_events acts))%list.
Proof.
  revert x. induction acts as [|a acts IH]; intros x.
  - cbn. now rewrite List.app_nil_r.
  - rewrite run_cons, IH. destruct a as [clk event | i].
    + cbn [act app_state repo_event_queue put_events flat_map on_any_event].
      unfold on_any_event. now rewrite <- !app_assoc.
    + cbn [act put_events flat_map Datatypes.app].
      rewrite !map_app, !app_assoc. f_equal. apply main_ledger.
Qed.

(** ** The observer threads *)

Lemma nth_stop_join (h k : nat) (os : list Observer) (o : Observer) :
  nth_error (stop_join h os) k = Some o ->
  (k = h /\ alive o = false) \/ (k <> h /\ nth_error os k = Some o).
Proof.
  revert h k. induction os as [|o' os IH]; intros h k H.
  - destruct h, k; discriminate H.
  - destruct h as [|h], k as [|k]; cbn in H.
    + left. injection H as <-. split; reflexivity.
    + right. split; [discriminate | exact H].
    + right. split; [discriminate | exact H].
    + destruct (IH _ _ H) as [[-> Ha] | [Hn Ho]].
      * left. split; [reflexivity | exact Ha].
      * right. split; [congruence | exact Ho].
Qed.

Lemma stopped_all_dead (x : session) (k : nat) (o : Observer) :
  monitored x ->
  nth_error (stop_monitoring (repo_observer x) (observers x)) k = Some o ->
  alive o = false.
Proof.
  intros Hm H. unfold stop_monitoring in H.
  destruct (alive o) eqn:Ha; [exfalso | reflexivity].
  destruct (repo_observer x) as [h|] eqn:Hr.
  - destruct (is_alive h (observers x)) eqn:Hl.
    + destruct (nth_stop_join _ _ _ _ H) as [[_ Hd] | [Hn Ho]]; [congruence|].
      destruct (Hm _ _ Ho Ha) as [Hk _]. congruence.
    + destruct (Hm _ _ H Ha) as [Hk _].
      assert (Hh : h = k) by congruence. subst h.
      unfold is_alive in Hl. rewrite H in Hl. congruence.
  - destruct (Hm _ _ H Ha) as [Hk _]. congruence.
Qed.

Lemma setup_monitored (i : inputs) (x : session) :
  monitored x -> monitored (setup_monitoring i x).
Proof.
  intros Hm. pose proof (stopped_all_dead x) as Hdead.
  unfold setup_monitoring.
  destruct (_ && _); [|exact Hm]. destruct (negb _); [|exact Hm].
  unfold start_monitoring. destruct (env_can_watch i (in_repo_path i)).
  - intros h o Ho Ha. cbn [observers repo_observer monitoring_path] in *.
    destruct (Nat.lt_ge_cases h
                (List.length (stop_monitoring (repo_observer x) (observers x))))
      as [Hlt | Hge].
    + rewrite nth_error_app1 in Ho by exact Hlt.
      rewrite (Hdead _ _ Hm Ho) in Ha. discriminate Ha.
    + rewrite nth_error_app2 in Ho by exact Hge.
      destruct (h - _) as [|n] eqn:Hn.
      * injection Ho as <-. split; [f_equal; lia | reflexivity].
      * destruct n; discriminate Ho.
  - intros h o Ho Ha. cbn [observers] in Ho.
    rewrite (Hdead _ _ Hm Ho) in Ha. discriminate Ha.
Qed.

(** The observers and the two session entries of the monitoring after a
    run are those of the setup, or those before the run. *)
Lemma main_watch (i : inputs) (x : session) :
  let x' := fst (main i x) in
  (observers x' = observers x /\ repo_observer x' = repo_observer x /\
   monitoring_path x' = monitoring_path x) \/
  (observers x' = observers (setup_monitoring i x) /\
   repo_observer x' = repo_observer (setup_monitoring i x) /\
   monitoring_path x' = monitoring_path (setup_monitoring i x)).
Proof.
  cbv zeta.
  destruct (main_cases i x)
    as [(e & _ & ->) | [(config & _ & _ & ->) |
        (config & gc & _ & _ & _ &
         [(event & rest & Hq & -> & _) | (Hq & ->)])]].
  - left. repeat split.
  - left. unfold save_configuration. destruct (bind _ _); repeat split.
  - right. unfold process_repo_events.
    destruct (repo_event_queue (setup_monitoring i x)); repeat split.
  - right. unfold chat. destruct (in_user_input i) as [u|].
    + destruct (main_chat _ _ _ _) as [a o]. unfold show_notification.
      destruct (notification _) as [n|]; [destruct (String.eqb n "")|];
        repeat split.
    + unfold show_notification.
      destruct (notification _) as [n|]; [destruct (String.eqb n "")|];
        repeat split.
Qed.

Lemma main_monitored (i : inputs) (x : session) :
  monitored x -> monitored (fst (main i x)).
Proof.
  intros Hm. pose proof (setup_monitored i x Hm) as Hs.
  destruct (main_watch i x) as [(Ho & Hr & Hp) | (Ho & Hr & Hp)];
    unfold monitored in *; rewrite Ho, Hr, Hp; assumption.
Qed.

Lemma run_monitored (acts : list action) (x : session) :
  monitored x -> monitored (run acts x).
Proof.
  revert x. induction acts as [|a acts IH]; intros x Hm; [exact Hm|].
  rewrite run_cons. apply IH. destruct a as [clk event | i].
  - exact Hm.
  - now apply main_monitored.
Qed.

(** Setup and toast leave everything of the store but logs and notification
    as it was. *)
Lemma before_chat_frame (i : inputs) (x : session) :
  let a := app_state (show_notification (setup_monitoring i x)) in
  tasks a = tasks (app_state x) /\
  storage_file a = storage_file (app_state x) /\
  effects a = effects (app_state x) /\
  chat_history a = chat_history (app_state x).
Proof.
  cbv zeta.
  assert (H : forall y : session,
            tasks (app_state (show_notification y)) = tasks (app_state y) /\
            storage_file (app_state (show_notification y)) =
              storage_file (app_state y) /\
            effects (app_state (show_notification y)) =
              effects (app_state y) /\
            chat_history (app_state (show_notification y)) =
              chat_history (app_state y)).
  { intros y. unfold show_notification.
    destruct (notification (app_state y)) as [n|];
      [destruct (String.eqb n "")|]; repeat split. }
  destruct (H (setup_monitoring i x)) as (-> & -> & -> & ->).
  destruct (setup_app_state i x) as [E | E]; rewrite E; repeat split.
Qed.

(** ** The configuration file *)

Lemma dict_get_set_same (k : string) (v : pyval) (d : list (string * pyval)) :
  dict_get k (dict_set k v d) = Some v.
Proof.
  induction d as [|[k' v'] d IH]; cbn [dict_set dict_get].
  - now rewrite String.eqb_refl.
  - destruct (String.eqb k k') eqn:E; cbn [dict_get].
    + now rewrite String.eqb_refl.
    + now rewrite E.
Qed.

Lemma dict_get_set_other (k k' : string) (v : pyval)
  (d : list (string * pyval)) :
  k' <> k -> dict_get k' (dict_set k v d) = dict_get k' d.
Proof.
  intros Hn. induction d as [|[k0 v0] d IH]; cbn [dict_set dict_get].
  - now rewrite (eqb_false_of_neq _ _ Hn).
  - destruct (String.eqb k k0) eqn:E; cbn [dict_get].
    + apply String.eqb_eq in E. subst k0.
      now rewrite (eqb_false_of_neq _ _ Hn).
    + now rewrite IH.
Qed.

Lemma dict_set_keys_other (k k' : string) (v : pyval)
  (d : list (string * pyval)) :
  String.eqb k' k = false ->
  existsb (String.eqb k') (map fst (dict_set k v d)) =
  existsb (String.eqb k') (map fst d).
Proof.
  intros Hn. induction d as [|[k0 v0] d IH]; cbn [dict_set map fst existsb].
  - now rewrite Hn.
  - destruct (String.eqb k k0) eqn:E; cbn [map fst existsb].
    + apply String.eqb_eq in E. subst k0. reflexivity.
    + now rewrite IH.
Qed.

Lemma dict_set_value_ok (k : string) (v : pyval) (d : list (string * pyval)) :
  value_ok (PDict d) = true -> value_ok v = true ->
  value_ok (PDict (dict_set k v d)) = true.
Proof.
  intros Hd Hv. cbn [value_ok] in *. apply andb_true_iff in Hd.
  destruct Hd as [Hk Hf]. apply andb_true_iff.
  induction d as [|[k0 v0] d IH].
  - cbn. now rewrite Hv.
  - cbn [map fst keys_unique forallb] in Hk, Hf.
    apply andb_true_iff in Hk. destruct Hk as [Hk0 Hk].
    apply andb_true_iff in Hf. destruct Hf as [Hv0 Hf].
    cbn [dict_set]. destruct (String.eqb k k0) eqn:E.
    + apply String.eqb_eq in E. subst k0.
      cbn [map fst keys_unique forallb]. now rewrite Hk0, Hk, Hv, Hf.
    + destruct (IH Hk Hf) as [IHk IHf].
      cbn [map fst keys_unique forallb].
      rewrite dict_set_keys_other, Hk0, IHk, Hv0, IHf; [now split|].
      rewrite String.eqb_sym. exact E.
Qed.

Lemma load_config_object (x : session) (d : list (string * pyval)) :
  load_json (config_file x) = Ok (PDict d) -> load_config x = Ok (PDict d).
Proof.
  intros H. unfold load_config. rewrite H. cbn [bind get_method].
  destruct (dict_get "repo_path" d), (dict_get "api_key" d); reflexivity.
Qed.

Lemma load_config_other (x : session) (v : pyval) :
  load_json (config_file x) = Ok v -> (forall d, v <> PDict d) ->
  exists m, load_config x = Err (AttributeError m).
Proof.
  intros H Hv. unfold load_config. rewrite H.
  destruct v; cbn [bind get_method]; try (eexists; reflexivity).
  now destruct (Hv d).
Qed.

Lemma load_saved (v : pyval) :
  value_ok v = true -> load_json (Some (json_dump_indent4 v)) = Ok v.
Proof.
  intros H. unfold load_json, json_dump_indent4.
  now rewrite (loads_encoded v (Some 4) 0 H).
Qed.

(** ** Events, notifications and toasts *)

Lemma load_config_ext (x y : session) :
  config_file x = config_file y -> load_config x = load_config y.
Proof. unfold load_config. now intros ->. Qed.

Lemma main_event (i : inputs) (x : session) (config : pyval)
  (event : EventData) (rest : list EventData) :
  load_config x = Ok config ->
  in_save i = false ->
  repo_event_queue x = event :: rest ->
  main i x =
  (mkSession
     (set_notification (repo_change_text event)
        (log_event (at_event i) "Repo Change Detected" (event_to_py event)
           (app_state (setup_monitoring i x))))
     rest (repo_observer (setup_monitoring i x))
     (monitoring_path (setup_monitoring i x))
     (observers (setup_monitoring i x)) (config_file x) (toasts x),
   Rerun).
Proof.
  intros Hc Hs Hq. unfold main. rewrite Hc, Hs.
  destruct (main_client_total i) as [gc ->].
  unfold process_repo_events.
  now rewrite setup_queue, Hq, setup_config, setup_toasts.
Qed.

Lemma main_idle (i : inputs) (x : session) (config : pyval)
  (gc : option GeminiClient) :
  load_config x = Ok config ->
  in_save i = false ->
  main_client i = Ok gc ->
  repo_event_queue x = [] ->
  main i x = chat gc i (show_notification (setup_monitoring i x)).
Proof.
  intros Hc Hs Hg Hq. unfold main. rewrite Hc, Hs, Hg.
  unfold process_repo_events. now rewrite setup_queue, Hq.
Qed.

Lemma setup_notification (i : inputs) (x : session) :
  notification (app_state (setup_monitoring i x)) =
  notification (app_state x).
Proof. destruct (setup_app_state i x) as [E | E]; now rewrite E. Qed.

Lemma chat_toasts (gc : option GeminiClient) (i : inputs) (x : session) :
  toasts (fst (chat gc i x)) = toasts x /\
  repo_event_queue (fst (chat gc i x)) = repo_event_queue x.
Proof.
  unfold chat. destruct (in_user_input i) as [u|]; [|now split].
  destruct (main_chat _ _ _ _) as [a o]. now split.
Qed.

(** The runs that work off a queue: the last event is the one whose
    notification is left. *)
Lemma run_drain (evs : list EventData) (last : EventData) :
  forall (ins : list inputs) (x : session),
    (exists config, load_config x = Ok config) ->
    repo_event_queue x = (evs ++ [last])%list ->
    List.length ins = S (List.length evs) ->
    Forall (fun i => in_save i = false) ins ->
    let x' := run (map Run ins) x in
    repo_event_queue x' = [] /\
    toasts x' = toasts x /\
    config_file x' = config_file x /\
    notification (app_state x') = Some (repo_change_text last).
Proof.
  induction evs as [|e evs IH]; intros ins x [config Hc] Hq Hl Hs.
  - destruct ins as [|i [|? ?]]; try discriminate Hl.
    inversion Hs as [|? ? Hi _]; subst.
    cbv zeta. cbn [map run fold_left act].
    rewrite (main_event i x config last [] Hc Hi Hq). repeat split.
  - destruct ins as [|i ins]; [discriminate Hl|].
    inversion Hs as [|? ? Hi Hs']; subst.
    cbv zeta. cbn [map]. rewrite run_cons. cbn [act].
    rewrite (main_event i x config e (evs ++ [last]) Hc Hi Hq). cbn [fst].
    match goal with |- context [run _ ?y] => set (x1 := y) end.
    assert (Hc1 : exists c, load_config x1 = Ok c).
    { exists config. rewrite <- Hc. now apply load_config_ext. }
    assert (Hl1 : List.length ins = S (List.length evs)).
    { cbn [List.length] in Hl. lia. }
    destruct (IH ins x1 Hc1 eq_refl Hl1 Hs') as (H1 & H2 & H3 & H4).
    repeat split; assumption.
Qed.

(** ** The store over the runs of a session *)

Lemma main_chat_tasks (clk : clock) (gc : option GeminiClient)
  (user_input : string) (s : state) :
  tasks (fst (main_chat clk gc user_input s)) = tasks s \/
  exists s0,
    tasks s0 = tasks s /\
    reducer_step s0 (fst (main_chat clk gc user_input s)).
Proof.
  unfold main_chat. destruct (String.eqb user_input ""); [now left|].
  destruct gc as [client|]; [|now left].
  destruct (contains _ _).
  - right. exists (append_chat "user" user_input s).
    split; [reflexivity | apply step_generate].
  - destruct (startswith _ _).
    + right. exists (append_chat "user" user_input s).
      split; [reflexivity | apply step_verify].
    + rewrite ask_eq. now left.
Qed.

Lemma main_tasks (i : inputs) (x : session) :
  tasks (app_state (fst (main i x))) = tasks (app_state x) \/
  exists s0,
    tasks s0 = tasks (app_state x) /\
    reducer_step s0 (app_state (fst (main i x))).
Proof.
  destruct (main_cases i x)
    as [(e & _ & ->) | [(config & _ & _ & ->) |
        (config & gc & _ & _ & _ &
         [(event & rest & Hq & -> & _) | (Hq & ->)])]].
  - now left.
  - left. unfold save_configuration. now destruct (bind _ _).
  - left. unfold process_repo_events. rewrite setup_queue, Hq.
    cbn [fst app_state set_notification log_event tasks].
    destruct (setup_app_state i x) as [E | E]; now rewrite E.
  - destruct (before_chat_frame i x) as (Ht & _).
    unfold chat. destruct (in_user_input i) as [u|]; [|now left].
    destruct (main_chat_tasks (at_chat i) gc u
                (app_state (show_notification (setup_monitoring i x))))
      as [H | (s0 & H0 & Hs)].
    + left. destruct (main_chat _ _ _ _) as [a o]. cbn [fst] in *.
      cbn [with_app app_state]. congruence.
    + right. exists s0. split; [congruence|].
      destruct (main_chat _ _ _ _) as [a o]. exact Hs.
Qed.

Lemma step_in_order (s s' : state) :
  reducer_step s s' -> in_order (tasks s) -> in_order (tasks s').
Proof.
  intros Hstep [(done & todo & Hs & Hd & Ht) Hi]. split.
  - exact (step_keeps_order _ _ _ _ Hstep Hs Hd Ht).
  - assert (Hlen : forall ts : list Task,
              List.length ts = List.length (map t_id ts)).
    { intros ts. now rewrite length_map. }
    destruct (step_ids _ _ Hstep) as [H | H].
    + rewrite (Hlen (tasks s')), H, <- Hlen. exact Hi.
    + rewrite (Hlen (tasks s')), H, length_app, <- Hlen. cbn [List.length].
      rewrite Nat.add_1_r, ids_from_snoc, <- Hi. reflexivity.
Qed.

Lemma in_order_ext (ts ts' : list Task) :
  ts' = ts -> in_order ts -> in_order ts'.
Proof. now intros ->. Qed.

Lemma run_in_order (acts : list action) (x : session) :
  in_order (tasks (app_state x)) ->
  in_order (tasks (app_state (run acts x))).
Proof.
  revert x. induction acts as [|a acts IH]; intros x H; [exact H|].
  rewrite run_cons. apply IH. destruct a as [clk event | i]; [exact H|].
  cbn [act]. destruct (main_tasks i x) as [E | (s0 & E & Hstep)].
  - exact (in_order_ext _ _ E H).
  - apply (step_in_order _ _ Hstep). exact (in_order_ext _ _ E H).
Qed.

Lemma extends_refl {A : Type} (l : list A) : extends l l.
Proof. exists []. now rewrite List.app_nil_r. Qed.

Lemma extends_trans {A : Type} (l1 l2 l3 : list A) :
  extends l1 l2 -> extends l2 l3 -> extends l1 l3.
Proof.
  intros [n1 ->] [n2 ->]. exists (n1 ++ n2)%list. now rewrite app_assoc.
Qed.

Lemma extends_same {A : Type} (l l' : list A) : l' = l -> extends l l'.
Proof. intros ->. apply extends_refl. Qed.

Lemma ids_from_app (first k k' : nat) :
  (ids_from first k ++ ids_from (first + k) k')%list = ids_from first (k + k').
Proof. unfold ids_from. now rewrite <- map_app, <- seq_app. Qed.

Lemma ids_from_nil (first : nat) (l : list Z) :
  (l ++ ids_from first 0)%list = l.
Proof. apply List.app_nil_r. Qed.

Lemma state_grows_refl (s s' : state) :
  logs s' = logs s -> chat_history s' = chat_history s ->
  tasks s' = tasks s -> state_grows s s'.
Proof.
  intros Hl Hc Ht. split; [now apply extends_same|].
  split; [now apply extends_same|]. rewrite Ht. split.
  - exists 0. now rewrite ids_from_nil.
  - auto.
Qed.

Lemma state_grows_trans (s1 s2 s3 : state) :
  state_grows s1 s2 -> state_grows s2 s3 -> state_grows s1 s3.
Proof.
  intros (Hl & Hc & [k Hk] & Hv) (Hl' & Hc' & [k' Hk'] & Hv').
  split; [exact (extends_trans _ _ _ Hl Hl')|].
  split; [exact (extends_trans _ _ _ Hc Hc')|]. split.
  - exists (k + k'). rewrite Hk', Hk, <- app_assoc. f_equal.
    rewrite <- ids_from_app. f_equal. f_equal.
    rewrite <- (length_map t_id (tasks s2)), Hk, length_app, ids_from_length.
    rewrite length_map. reflexivity.
  - intros t Ht Hs. apply Hv'; [now apply Hv | exact Hs].
Qed.

Lemma mark_verified_keeps (ts : list Task) (t : Task) :
  In t ts -> t_status t = "verified" -> In t (mark_verified ts).
Proof.
  intros Hin Hs. induction ts as [|u ts IH]; [destruct Hin|].
  cbn [mark_verified]. destruct (is_pending u) eqn:Hu.
  - destruct Hin as [-> | Hin]; [|now right].
    rewrite (verified_not_pending t Hs) in Hu. discriminate Hu.
  - destruct Hin as [-> | Hin]; [now left | right; now apply IH].
Qed.

Lemma generation_chat (clk : clock) (client : GeminiClient) (s : state) :
  extends (chat_history s)
          (chat_history (fst (handle_task_generation clk client s))).
Proof.
  rewrite generation_unfold. cbv zeta. destruct (task_fields _) as [[d p]|e].
  - eexists. reflexivity.
  - destruct (caught e); [eexists; reflexivity | apply extends_refl].
Qed.

Lemma verification_chat (clk : clock) (user_input : string)
  (client : GeminiClient) (s : state) :
  extends (chat_history s)
          (chat_history (fst (handle_task_verification clk user_input client s))).
Proof.
  destruct (current_pending (tasks s)) as [t|] eqn:Hp.
  - rewrite (verification_unfold _ _ _ _ _ Hp). cbv zeta.
    destruct (json_loads _) as [data|e];
      [|destruct (caught e); [eexists; reflexivity | apply extends_refl]].
    destruct (get_method data "verified" PNone) as [verified|e];
      [|destruct (caught e); [eexists; reflexivity | apply extends_refl]].
    destruct (truthy verified).
    + destruct (getitem data "feedback") as [f|e];
        [eexists; reflexivity|].
      destruct (caught e); [eexists; reflexivity | apply extends_refl].
    + destruct (get_method data "feedback" _) as [f|e];
        [eexists; reflexivity|].
      destruct (caught e); [eexists; reflexivity | apply extends_refl].
  - unfold handle_task_verification. rewrite Hp. eexists. reflexivity.
Qed.

Lemma step_grows (s s' : state) : reducer_step s s' -> state_grows s s'.
Proof.
  intros Hstep. split; [|split; [|split]].
  - destruct Hstep as [clk client s | clk ui client s].
    + destruct (generation_logs clk client s) as (new & H & _). now exists new.
    + destruct (verification_logs clk ui client s) as (new & H & _).
      now exists new.
  - destruct Hstep as [clk client s | clk ui client s].
    + apply generation_chat.
    + apply verification_chat.
  - destruct (step_ids _ _ Hstep) as [H | H]; rewrite H.
    + exists 0. now rewrite ids_from_nil.
    + exists 1. reflexivity.
  - intros t Hin Hs. destruct Hstep as [clk client s | clk ui client s].
    + destruct (generation_tasks clk client s) as [H | (d & p & H)];
        rewrite H; [exact Hin | apply in_or_app; now left].
    + destruct (verification_tasks clk ui client s) as [H | H]; rewrite H;
        [exact Hin | now apply mark_verified_keeps].
Qed.

Lemma main_chat_grows (clk : clock) (gc : option GeminiClient)
  (user_input : string) (s : state) :
  state_grows s (fst (main_chat clk gc user_input s)).
Proof.
  assert (Hu : state_grows s (append_chat "user" user_input s)).
  { split; [apply extends_refl|]. split; [eexists; reflexivity|].
    split; [exists 0; now rewrite ids_from_nil | auto]. }
  unfold main_chat. destruct (String.eqb user_input "").
  - now apply state_grows_refl.
  - destruct gc as [client|].
    + destruct (contains _ _).
      * apply (state_grows_trans _ _ _ Hu), step_grows, step_generate.
      * destruct (startswith _ _).
        -- apply (state_grows_trans _ _ _ Hu), step_grows, step_verify.
        -- rewrite ask_eq. split; [apply extends_refl|].
           split; [eexists; cbn; rewrite <- app_assoc; reflexivity|].
           split; [exists 0; now rewrite ids_from_nil | auto].
    + split; [apply extends_refl|].
      split; [eexists; cbn; rewrite <- app_assoc; reflexivity|].
      split; [exists 0; now rewrite ids_from_nil | auto].
Qed.

Lemma log_event_grows (clk : clock) (event_type : string) (details : pyval)
  (s : state) :
  state_grows s (log_event clk event_type details s).
Proof.
  split; [eexists; reflexivity|]. split; [apply extends_refl|].
  split; [exists 0; now rewrite ids_from_nil | auto].
Qed.

Lemma setup_grows (i : inputs) (x : session) :
  state_grows (app_state x) (app_state (setup_monitoring i x)).
Proof.
  destruct (setup_app_state i x) as [E | E]; rewrite E.
  - now apply state_grows_refl.
  - apply log_event_grows.
Qed.

Lemma main_grows (i : inputs) (x : session) :
  state_grows (app_state x) (app_state (fst (main i x))) /\
  extends (toasts x) (toasts (fst (main i x))).
Proof.
  destruct (main_cases i x)
    as [(e & _ & ->) | [(config & _ & _ & ->) |
        (config & gc & _ & _ & _ &
         [(event & rest & Hq & -> & _) | (Hq & ->)])]].
  - split; [now apply state_grows_refl | apply extends_refl].
  - unfold save_configuration. destruct (bind _ _);
      (split; [now apply state_grows_refl | apply extends_refl]).
  - unfold process_repo_events. rewrite setup_queue, Hq. cbn [fst].
    split; [|cbn [toasts]; rewrite setup_toasts; apply extends_refl].
    cbn [app_state].
    apply (state_grows_trans _ _ _ (setup_grows i x)).
    apply (state_grows_trans _ (log_event (at_event i) "Repo Change Detected"
             (event_to_py event) (app_state (setup_monitoring i x))));
      [apply log_event_grows | now apply state_grows_refl].
  - assert (Hshow :
      state_grows (app_state x)
        (app_state (show_notification (setup_monitoring i x))) /\
      extends (toasts x) (toasts (show_notification (setup_monitoring i x)))).
    { unfold show_notification.
      destruct (notification (app_state (setup_monitoring i x))) as [n|];
        [destruct (String.eqb n "")|].
      - split; [apply setup_grows | rewrite setup_toasts; apply extends_refl].
      - split.
        + apply (state_grows_trans _ _ _ (setup_grows i x)).
          now apply state_grows_refl.
        + cbn [toasts]. rewrite setup_toasts. eexists. reflexivity.
      - split; [apply setup_grows | rewrite setup_toasts; apply extends_refl]. }
    destruct Hshow as [Hs Ht].
    destruct (chat_toasts gc i (show_notification (setup_monitoring i x)))
      as (-> & _).
    split; [|exact Ht]. apply (state_grows_trans _ _ _ Hs).
    unfold chat. destruct (in_user_input i) as [u|].
    + pose proof (main_chat_grows (at_chat i) gc u
        (app_state (show_notification (setup_monitoring i x)))) as H.
      destruct (main_chat _ _ _ _) as [a o]. exact H.
    + now apply state_grows_refl.
Qed.

Lemma run_grows (acts : list action) (x : session) :
  state_grows (app_state x) (app_state (run acts x)) /\
  extends (toasts x) (toasts (run acts x)).
Proof.
  revert x. induction acts as [|a acts IH]; intros x.
  - split; [now apply state_grows_refl | apply extends_refl].
  - rewrite run_cons. destruct (IH (act a x)) as [Hs Ht].
    destruct a as [clk event | i].
    + split; [exact Hs | exact Ht].
    + destruct (main_grows i x) as [Hs' Ht']. split.
      * exact (state_grows_trans _ _ _ Hs' Hs).
      * exact (extends_trans _ _ _ Ht' Ht).
Qed.

(** ** A response in a Markdown fence *)

Lemma rstrip_end (s : string) (c : ascii) :
  isspace c = false -> rstrip (s ++ String c "") = s ++ String c "".
Proof.
  intros H. induction s as [|a s IH].
  - cbn [append rstrip]. now rewrite H.
  - cbn [append rstrip]. rewrite IH. now destruct s.
Qed.

Lemma prefix_other_head (a c : ascii) (p s : string) :
  Ascii.eqb c a = false -> prefix (String a p) (String c s) = false.
Proof.
  intros H. cbn [prefix]. destruct (ascii_dec a c) as [E | E]; [|reflexivity].
  subst c. now rewrite Ascii.eqb_refl in H.
Qed.

Lemma replace_skip (p new body tail : string) :
  no_backquote body = true ->
  replace_from (String "`" p) new 0 (body ++ tail) =
  body ++ replace_from (String "`" p) new 0 tail.
Proof.
  intros H. induction body as [|c body IH]; [reflexivity|].
  cbn [no_backquote all_chars] in H. apply andb_true_iff in H.
  destruct H as [Hc Hb]. apply negb_true_iff in Hc.
  cbn [append replace_from]. rewrite (prefix_other_head _ _ _ _ Hc).
  now rewrite (IH Hb).
Qed.

Lemma clean_fenced (text : string) :
  no_backquote text = true -> clean_response (fenced text) = nl ++ text ++ nl.
Proof.
  intros H. unfold clean_response.
  assert (Hs : strip (fenced text) = fenced text).
  { unfold strip. change (lstrip (fenced text)) with (fenced text).
    unfold fenced.
    replace ("```json" ++ nl ++ text ++ nl ++ "```")
      with (("```json" ++ nl ++ text ++ nl ++ "``") ++ String "`" "").
    - now apply rstrip_end.
    - now rewrite !append_assoc. }
  rewrite Hs.
  change (replace "```json" "" (fenced text))
    with (String NL (replace_from "```json" "" 0 (text ++ nl ++ "```"))).
  rewrite (replace_skip _ _ _ _ H).
  change (replace_from "```json" "" 0 (nl ++ "```")) with (nl ++ "```").
  change (replace "```" "" (String NL (text ++ nl ++ "```")))
    with (String NL (replace_from "```" "" 0 (text ++ nl ++ "```"))).
  rewrite (replace_skip _ _ _ _ H). reflexivity.
Qed.

Lemma loads_padded (v : pyval) (indent : option nat) (level : nat) :
  value_ok v = true ->
  json_loads (nl ++ iterencode indent level v ++ nl) = Ok v.
Proof.
  intros Hok. unfold json_loads.
  change (skip_ws (nl ++ iterencode indent level v ++ nl))
    with (skip_ws (iterencode indent level v ++ nl)).
  rewrite (skip_ws_value _ (encode_start v indent level nl Hok)).
  rewrite (all_decode v Hok indent level _ nl); [reflexivity| |reflexivity].
  pose proof (weight_fits v Hok indent level) as Hw.
  rewrite !length_append. lia.
Qed.

(** ** The log accounts for the tasks *)

Lemma count_event_app (e : string) (ls new : list LogEntry) :
  count_event e (ls ++ new) = count_event e ls + count_event e new.
Proof. unfold count_event. now rewrite filter_app, length_app. Qed.

Lemma count_verified_app (ts new : list Task) :
  count_verified (ts ++ new) = count_verified ts + count_verified new.
Proof. unfold count_verified. now rewrite filter_app, length_app. Qed.

Lemma mark_verified_length (ts : list Task) :
  List.length (mark_verified ts) = List.length ts.
Proof.
  rewrite <- (length_map t_id (mark_verified ts)), mark_verified_ids.
  apply length_map.
Qed.

Lemma count_verified_mark (ts : list Task) (t : Task) :
  current_pending ts = Some t ->
  count_verified (mark_verified ts) = S (count_verified ts).
Proof.
  intros Hp. destruct (mark_verified_split ts t Hp)
    as (before & after & -> & _ & Ht & ->).
  rewrite !count_verified_app.
  change (verified_copy t :: after) with ([verified_copy t] ++ after)%list.
  change (t :: after) with ([t] ++ after)%list.
  rewrite !count_verified_app.
  assert (H1 : count_verified [verified_copy t] = 1) by reflexivity.
  assert (H0 : count_verified [t] = 0).
  { unfold count_verified. cbn [filter].
    apply String.eqb_eq in Ht. now rewrite (pending_not_verified t Ht). }
  rewrite H1, H0. lia.
Qed.

Lemma accounted_other_log (ts : list Task) (ls : list LogEntry)
  (l : LogEntry) :
  String.eqb (l_event l) "Task Generated" = false ->
  String.eqb (l_event l) "Task Verified" = false ->
  accounted ts ls -> accounted ts (ls ++ [l]).
Proof.
  intros Hg Hv [H1 H2]. unfold accounted. rewrite !count_event_app.
  unfold count_event at 2 4. cbn [filter]. rewrite Hg, Hv. cbn [List.length].
  split; lia.
Qed.

Lemma step_accounted (s s' : state) :
  reducer_step s s' ->
  accounted (tasks s) (logs s) -> accounted (tasks s') (logs s').
Proof.
  intros Hstep Ha. destruct Hstep as [clk client s | clk ui client s].
  - rewrite generation_unfold. cbv zeta.
    destruct (task_fields _) as [[d p]|e].
    + cbn [fst tasks logs]. destruct Ha as [H1 H2]. unfold accounted.
      rewrite !count_event_app, count_verified_app, length_app.
      cbn. split; lia.
    + destruct (caught e); exact Ha.
  - destruct (current_pending (tasks s)) as [t|] eqn:Hp.
    + rewrite (verification_unfold _ _ _ _ _ Hp). cbv zeta.
      destruct (json_loads _) as [data|e];
        [|destruct (caught e); exact Ha].
      destruct (get_method data "verified" PNone) as [verified|e];
        [|destruct (caught e); exact Ha].
      assert (Hv : accounted (mark_verified (tasks s))
                     (logs s ++ [verified_log clk t (user_summary_of ui)])).
      { destruct Ha as [H1 H2]. unfold accounted.
        rewrite !count_event_app, mark_verified_length,
          (count_verified_mark _ _ Hp).
        cbn. split; lia. }
      destruct (truthy verified).
      * destruct (getitem data "feedback") as [f|e];
          [exact Hv | destruct (caught e); exact Hv].
      * destruct (get_method data "feedback" _) as [f|e];
          [|destruct (caught e); exact Ha].
        cbn [fst tasks logs]. now apply accounted_other_log.
    + unfold handle_task_verification. rewrite Hp. exact Ha.
Qed.

Lemma main_chat_accounted (clk : clock) (gc : option GeminiClient)
  (user_input : string) (s : state) :
  accounted (tasks s) (logs s) ->
  accounted (tasks (fst (main_chat clk gc user_input s)))
            (logs (fst (main_chat clk gc user_input s))).
Proof.
  intros Ha. unfold main_chat. destruct (String.eqb user_input "");
    [exact Ha|].
  destruct gc as [client|]; [|exact Ha].
  destruct (contains _ _).
  - apply (step_accounted (append_chat "user" user_input s));
      [apply step_generate | exact Ha].
  - destruct (startswith _ _).
    + apply (step_accounted (append_chat "user" user_input s));
        [apply step_verify | exact Ha].
    + rewrite ask_eq. exact Ha.
Qed.

Lemma setup_accounted (i : inputs) (x : session) :
  accounted (tasks (app_state x)) (logs (app_state x)) ->
  accounted (tasks (app_state (setup_monitoring i x)))
            (logs (app_state (setup_monitoring i x))).
Proof.
  intros Ha. destruct (setup_app_state i x) as [E | E]; rewrite E;
    [exact Ha|].
  cbn [log_event tasks logs]. now apply accounted_other_log.
Qed.

Lemma main_accounted (i : inputs) (x : session) :
  accounted (tasks (app_state x)) (logs (app_state x)) ->
  accounted (tasks (app_state (fst (main i x))))
            (logs (app_state (fst (main i x)))).
Proof.
  intros Ha. pose proof (setup_accounted i x Ha) as Hs.
  destruct (main_cases i x)
    as [(e & _ & ->) | [(config & _ & _ & ->) |
        (config & gc & _ & _ & _ &
         [(event & rest & Hq & -> & _) | (Hq & ->)])]].
  - exact Ha.
  - unfold save_configuration. destruct (bind _ _); exact Ha.
  - unfold process_repo_events. rewrite setup_queue, Hq.
    cbn [fst app_state set_notification log_event tasks logs].
    now apply accounted_other_log.
  - assert (Hshow :
      accounted
        (tasks (app_state (show_notification (setup_monitoring i x))))
        (logs (app_state (show_notification (setup_monitoring i x))))).
    { unfold show_notification.
      destruct (notification (app_state (setup_monitoring i x))) as [n|];
        [destruct (String.eqb n "")|]; exact Hs. }
    unfold chat. destruct (in_user_input i) as [u|]; [|exact Hshow].
    pose proof (main_chat_accounted (at_chat i) gc u _ Hshow) as H.
    destruct (main_chat _ _ _ _) as [a o]. exact H.
Qed.

Lemma run_accounted (acts : list action) (x : session) :
  accounted (tasks (app_state x)) (logs (app_state x)) ->
  accounted (tasks (app_state (run acts x))) (logs (app_state (run acts x))).
Proof.
  revert x. induction acts as [|a acts IH]; intros x H; [exact H|].
  rewrite run_cons. apply IH. destruct a as [clk event | i]; [exact H|].
  now apply main_accounted.
Qed.

(* ================================================================= *)
(** * Further properties of the program *)

(** X1: in every state reached from an empty task list by calls of the two
    reducers, in any order and with any responses, the task list is a run of
    verified tasks followed by a run of pending tasks, and the ids are 1, 2,
    ... in this order.  So the current task of the dashboard is the first
    task after the verified ones, and its last completed task is the last of
    the verified ones. *)
Theorem X1_verified_before_pending (s : state) :
  reachable s ->
  exists done todo,
    tasks s = (done ++ todo)%list /\
    Forall (fun t => t_status t = "verified") done /\
    Forall (fun t => t_status t = "pending") todo /\
    map t_id (tasks s) = ids_from 1 (List.length (tasks s)) /\
    current_pending (tasks s) = hd_error todo /\
    last_completed_task (tasks s) = hd_error (List.rev done).
Proof.
  intros Hr. destruct (reachable_order s Hr) as (done & todo & Hs & Hd & Ht).
  exists done, todo. split; [exact Hs|]. split; [exact Hd|].
  split; [exact Ht|]. split; [exact (reachable_ids s Hr)|]. rewrite Hs. split.
  - exact (current_pending_after_done _ _ Hd Ht).
  - exact (last_completed_after_done _ _ Hd Ht).
Qed.

Lemma X1_witness :
  let s := fst (handle_task_verification clock0 "done" mock_client
             (fst (handle_task_generation clock0 mock_client empty_state))) in
  reachable s /\
  exists done todo,
    tasks s = (done ++ todo)%list /\
    Forall (fun t => t_status t = "verified") done /\
    Forall (fun t => t_status t = "pending") todo /\
    map t_id (tasks s) = ids_from 1 (List.length (tasks s)) /\
    current_pending (tasks s) = hd_error todo /\
    last_completed_task (tasks s) = hd_error (List.rev done).
Proof.
  cbv zeta.
  assert (Hr : reachable
    (fst (handle_task_verification clock0 "done" mock_client
       (fst (handle_task_generation clock0 mock_client empty_state))))).
  { exists empty_state. split; [reflexivity|].
    eapply steps_snoc; [eapply steps_snoc; [apply steps_refl|]|].
    - apply step_generate.
    - apply step_verify. }
  split; [exact Hr|]. exact (X1_verified_before_pending _ Hr).
Defined.

(** X2: tasks are verified in the order of their ids.  From a state reached
    from an empty task list, a call of [handle_task_verification] either
    leaves the task list as it is or turns to verified the pending task with
    the lowest id, which comes right after the verified ones; this task is
    then the last completed task of the dashboard, and the current task is the
    one after it, if there is one. *)
Theorem X2_verified_in_order (clk : clock) (user_input : string)
  (client : GeminiClient) (s : state) (t : Task) :
  reachable s ->
  current_pending (tasks s) = Some t ->
  let s' := fst (handle_task_verification clk user_input client s) in
  tasks s' = tasks s \/
  exists done todo,
    tasks s = (done ++ t :: todo)%list /\
    tasks s' = (done ++ verified_copy t :: todo)%list /\
    Forall (fun u => t_status u = "verified") done /\
    Forall (fun u => t_status u = "pending") todo /\
    t_id t = Z.of_nat (S (List.length done)) /\
    last_completed_task (tasks s') = Some (verified_copy t) /\
    current_pending (tasks s') = hd_error todo.
Proof.
  intros Hr Hp s'.
  destruct (verification_tasks clk user_input client s) as [H | H];
    [now left | right].
  destruct (reachable_order s Hr) as (done & todo0 & Hs & Hd & Ht0).
  pose proof (current_pending_after_done _ _ Hd Ht0) as Hc.
  rewrite <- Hs, Hp in Hc. destruct todo0 as [|t' todo]; [discriminate|].
  cbn [hd_error] in Hc. injection Hc as <-.
  inversion Ht0 as [|? ? Hpt Ht]; subst.
  exists done, todo. split; [exact Hs|].
  assert (Hs' : tasks s' = (done ++ verified_copy t :: todo)%list).
  { subst s'. rewrite H, Hs, (mark_verified_after_done _ _ Hd).
    now rewrite (mark_verified_pending _ _ Hpt). }
  split; [exact Hs'|]. split; [exact Hd|]. split; [exact Ht|].
  split; [exact (id_at _ _ _ _ (reachable_ids s Hr) Hs)|].
  assert (Hd' : Forall (fun u => t_status u = "verified")
                  (done ++ [verified_copy t])%list).
  { apply Forall_app. split; [exact Hd|]. now constructor. }
  rewrite Hs'.
  change (done ++ verified_copy t :: todo)%list
    with (done ++ [verified_copy t] ++ todo)%list.
  rewrite app_assoc. split.
  - rewrite (last_completed_after_done _ _ Hd' Ht), rev_app_distr. reflexivity.
  - exact (current_pending_after_done _ _ Hd' Ht).
Qed.

Lemma X2_witness :
  reachable (fst (handle_task_generation clock0 mock_client empty_state)) /\
  last_completed_task
    (tasks (fst (handle_task_verification clock0 "done" mock_client
       (fst (handle_task_generation clock0 mock_client empty_state))))) =
  Some (mkTask 1 MOCK_DESCRIPTION MOCK_PROMPT "verified" (time_time clock0)).
Proof.
  assert (Hr : reachable
    (fst (handle_task_generation clock0 mock_client empty_state))).
  { exists empty_state. split; [reflexivity|].
    eapply steps_snoc; [apply steps_refl | apply step_generate]. }
  split; [exact Hr|].
  destruct (X2_verified_in_order clock0 "done" mock_client _
              (mkTask 1 MOCK_DESCRIPTION MOCK_PROMPT "pending"
                 (time_time clock0)) Hr eq_refl)
    as [H | (done & todo & _ & _ & _ & _ & _ & H & _)].
  - vm_compute in H. discriminate H.
  - exact H.
Defined.

(** X3: the storage file follows the store.  Over any sequence of calls of
    the two reducers, either tasks, logs and storage file are all as they
    were at the start, or the storage file holds the dump of the current
    tasks and logs; so once the file agrees with the store it does so after
    every reducer call, however the call ends. *)
Theorem X3_storage_follows_store (s s' : state) :
  reducer_steps s s' ->
  ((tasks s' = tasks s /\ logs s' = logs s /\
    storage_file s' = storage_file s) \/
   in_sync s') /\
  (in_sync s -> in_sync s').
Proof.
  intros Hs. pose proof (steps_sync s s' Hs) as H. split; [exact H|].
  intros H0. destruct H as [(Ht & Hl & Hf) | H]; [|exact H].
  unfold in_sync in *. congruence.
Qed.

Lemma X3_witness :
  let s := fst (handle_task_generation clock0 mock_client empty_state) in
  reducer_steps empty_state s /\
  storage_file s = Some (storage_text (tasks s) (logs s)).
Proof.
  cbv zeta.
  assert (Hs : reducer_steps empty_state
                 (fst (handle_task_generation clock0 mock_client empty_state))).
  { eapply steps_snoc; [apply steps_refl | apply step_generate]. }
  split; [exact Hs|].
  destruct (proj1 (X3_storage_follows_store _ _ Hs)) as [(H & _) | H].
  - vm_compute in H. discriminate H.
  - exact H.
Defined.

(** X4: an exception of the remote model reaches the user as a parse
    failure.  With a real key, when [generate_content] raises,
    [generate_response] returns the text of the exception after a fixed
    prefix; this text is no JSON, so [handle_task_generation] and
    [handle_task_verification] change neither tasks, logs, notification nor
    storage file, and append one chat message: their parse-failure text with
    the decoder's message for position 0 and, as raw response, the text of
    the exception. *)
Theorem X4_backend_exception (clk : clock) (user_input : string)
  (client : GeminiClient) (b : backend) (s : state) :
  api_key client <> DUMMY_KEY ->
  model client = Some b ->
  (forall e,
     let gp := generation_prompt (tasks s) in
     let r := handle_task_generation clk client s in
     b gp = inr e ->
     snd r = Returned /\
     only_chat_added s (fst r) [GenerateResponse gp; NetworkRequest gp]
       ("Failed to parse AI response for task generation: " ++ NO_VALUE ++
        nl ++ nl ++ "Raw response:" ++ nl ++ TRANSPORT_ERROR ++ e)) /\
  (forall t e,
     let vp := verification_prompt t (user_summary_of user_input) in
     let r := handle_task_verification clk user_input client s in
     current_pending (tasks s) = Some t ->
     b vp = inr e ->
     snd r = Returned /\
     only_chat_added s (fst r) [GenerateResponse vp; NetworkRequest vp]
       ("Failed to parse AI verification response: " ++ NO_VALUE ++
        nl ++ nl ++ "Raw response:" ++ nl ++ TRANSPORT_ERROR ++ e)).
Proof.
  intros Hk Hm. split.
  - intros e gp r Hb. subst r.
    pose proof (failing_backend_response _ _ _ _ Hk Hm Hb) as Hg.
    rewrite (generation_undecodable clk client s NO_VALUE).
    + unfold response_to, call_effects. fold gp. rewrite Hg.
      split; [reflexivity | apply chat_after_effects].
    + unfold response_to. fold gp. rewrite Hg.
      apply transport_error_undecodable.
  - intros t e vp r Hp Hb. subst r.
    pose proof (failing_backend_response _ _ _ _ Hk Hm Hb) as Hg.
    rewrite (verification_undecodable clk user_input client s t NO_VALUE Hp).
    + unfold response_to, call_effects. fold vp. rewrite Hg.
      split; [reflexivity | apply chat_after_effects].
    + unfold response_to. fold vp. rewrite Hg.
      apply transport_error_undecodable.
Qed.

Lemma X4_witness :
  let client := mkClient "a-real-key" (Some (fun _ => inr "timed out")) in
  api_key client <> DUMMY_KEY /\
  chat_history (fst (handle_task_generation clock0 client empty_state)) =
  [("assistant",
    "Failed to parse AI response for task generation: " ++ NO_VALUE ++
    nl ++ nl ++ "Raw response:" ++ nl ++ TRANSPORT_ERROR ++ "timed out")].
Proof.
  cbv zeta.
  assert (Hk : api_key (mkClient "a-real-key" (Some (fun _ => inr "timed out")))
               <> DUMMY_KEY) by discriminate.
  split; [exact Hk|].
  destruct (proj1 (X4_backend_exception clock0 "done"
                     (mkClient "a-real-key" (Some (fun _ => inr "timed out")))
                     (fun _ => inr "timed out") empty_state Hk eq_refl)
              "timed out" eq_refl)
    as (_ & _ & _ & _ & _ & _ & H).
  exact H.
Defined.

(** X5: in mock mode a request for the next task always succeeds.  For a
    client with the dummy key and any state, [handle_task_generation] ends
    with a rerun after appending the pending task of the mock payload, with
    the next id; nothing goes over the network, and the storage file holds
    the new tasks and logs. *)
Theorem X5_mock_generation (clk : clock) (client : GeminiClient) (s : state) :
  api_key client = DUMMY_KEY ->
  let gp := generation_prompt (tasks s) in
  let r := handle_task_generation clk client s in
  let t := mkTask (Z.of_nat (List.length (tasks s)) + 1) MOCK_DESCRIPTION
                  MOCK_PROMPT "pending" (time_time clk) in
  snd r = Rerun /\
  tasks (fst r) = (tasks s ++ [t])%list /\
  logs (fst r) = (logs s ++ [generated_log clk t])%list /\
  notification (fst r) = Some "New task generated!" /\
  in_sync (fst r) /\
  effects (fst r) =
    (effects s ++
     [GenerateResponse gp;
      SaveJson STORAGE_PATH (storage_text (tasks (fst r)) (logs (fst r)))])%list.
Proof.
  intros Hk gp r t. subst r gp. rewrite generation_unfold.
  unfold response_to, call_effects.
  rewrite (mock_generation_response client (tasks s) Hk).
  cbn [fst snd map]. unfold task_fields. rewrite mock_task_decodes.
  repeat split.
Qed.

Lemma X5_witness :
  api_key mock_client = DUMMY_KEY /\
  map t_description
    (tasks (fst (handle_task_generation clock0 mock_client pending_state))) =
  [PStr "Implement login page"; MOCK_DESCRIPTION].
Proof.
  split; [reflexivity|].
  pose proof (X5_mock_generation clock0 mock_client pending_state eq_refl)
    as (_ & H & _).
  rewrite H. reflexivity.
Defined.

(** X6: what the mock backend makes of a verification.  The mock looks for
    the phrase of the generation prompt first.  With the dummy key and a
    pending task, when that phrase occurs nowhere in the verification prompt
    (task description, coding prompt and summary included), the task is
    verified with the fixed feedback; when it occurs, the mock answers with
    its task payload, which has no [verified] key, and the verification
    fails with the default feedback: the task stays pending. *)
Theorem X6_mock_verification (clk : clock) (user_input : string)
  (client : GeminiClient) (s : state) (t : Task) :
  api_key client = DUMMY_KEY ->
  current_pending (tasks s) = Some t ->
  let summary := user_summary_of user_input in
  let vp := verification_prompt t summary in
  let r := handle_task_verification clk user_input client s in
  (~ occurs GENERATION_TRIGGER vp ->
   snd r = Rerun /\
   tasks (fst r) = mark_verified (tasks s) /\
   logs (fst r) = (logs s ++ [verified_log clk t summary])%list /\
   chat_history (fst r) =
     (chat_history s ++
      [("assistant",
        "Great job! Task verified: This looks great. Well done.")])%list) /\
  (occurs GENERATION_TRIGGER vp ->
   snd r = Returned /\
   tasks (fst r) = tasks s /\
   logs (fst r) = (logs s ++ [failed_log clk t summary NO_FEEDBACK])%list /\
   chat_history (fst r) =
     (chat_history s ++
      [("assistant", verification_failed_text NO_FEEDBACK)])%list).
Proof.
  intros Hk Hp summary vp r. subst r vp summary.
  rewrite (verification_unfold _ _ _ _ _ Hp).
  unfold response_to, call_effects.
  rewrite (mock_verification_response client t _ Hk).
  cbn [fst snd map]. split; intros Ho.
  - rewrite (occurs_dec_false _ _ Ho). cbv zeta.
    rewrite mock_verified_decodes. repeat split.
  - apply contains_occurs in Ho. rewrite Ho. cbv zeta.
    rewrite mock_task_decodes. repeat split.
Qed.

Lemma X6_witness :
  api_key mock_client = DUMMY_KEY /\
  current_pending (tasks pending_state) = Some pending_task /\
  tasks (fst (handle_task_verification clock0 "done" mock_client pending_state))
  = [verified_copy pending_task].
Proof.
  split; [reflexivity|]. split; [reflexivity|].
  assert (Ho : ~ occurs GENERATION_TRIGGER
                 (verification_prompt pending_task (user_summary_of "done"))).
  { intros H. apply contains_occurs in H. vm_compute in H. discriminate H. }
  destruct (proj1 (X6_mock_verification clock0 "done" mock_client pending_state
                     pending_task eq_refl eq_refl) Ho) as (_ & H & _).
  exact H.
Defined.

(** X7: a session without a usable key.  [main] builds no client exactly
    when the key it would use (the one typed in, else the one of the
    environment) is missing or is the placeholder; building the client
    raises nothing else.  In a run without a client the backend is never
    called, and tasks and storage file stay as they were; when the run gets
    to a chat input that is not empty, the chat history gains the input and
    the fixed reply. *)
Theorem X7_not_configured (i : inputs) (x : session) :
  (exists gc, main_client i = Ok gc) /\
  (main_client i = Ok None <->
   selected_key (env_getenv i) (Some (in_api_key i)) = None \/
   selected_key (env_getenv i) (Some (in_api_key i)) = Some PLACEHOLDER_KEY) /\
  (main_client i = Ok None ->
   let x' := fst (main i x) in
   tasks (app_state x') = tasks (app_state x) /\
   storage_file (app_state x') = storage_file (app_state x) /\
   (forall p, In (GenerateResponse p) (effects (app_state x')) ->
              In (GenerateResponse p) (effects (app_state x))) /\
   (forall p, In (NetworkRequest p) (effects (app_state x')) ->
              In (NetworkRequest p) (effects (app_state x))) /\
   (forall u, in_user_input i = Some u -> u <> "" ->
      snd (main i x) = Returned ->
      chat_history (app_state x') =
        (chat_history (app_state x) ++
         [("user", u); ("assistant", NOT_CONFIGURED)])%list)).
Proof.
  split; [apply main_client_total|]. split.
  - rewrite main_client_selected.
    destruct (selected_key _ _) as [k|]; [|split; auto].
    destruct (String.eqb k PLACEHOLDER_KEY) eqn:Hk.
    + apply String.eqb_eq in Hk. subst k. split; auto.
    + apply String.eqb_neq in Hk. split; [discriminate|].
      intros [H | H]; [discriminate | congruence].
  - intros Hn. cbv zeta.
    destruct (main_cases i x)
      as [(e & _ & ->) | [(config & _ & _ & ->) |
          (config & gc & _ & _ & Hg &
           [(event & rest & Hq & -> & _) | (Hq & ->)])]].
    + repeat split; auto. intros u _ _ H. discriminate H.
    + unfold save_configuration. destruct (bind _ _) as [c|e].
      * cbn [fst snd app_state add_effects tasks storage_file effects].
        repeat split.
        -- intros p H. apply in_app_or in H. destruct H as [H | [H | []]];
             [exact H | discriminate H].
        -- intros p H. apply in_app_or in H. destruct H as [H | [H | []]];
             [exact H | discriminate H].
        -- intros u _ _ H. discriminate H.
      * repeat split; auto. intros u _ _ H. discriminate H.
    + unfold process_repo_events. rewrite setup_queue, Hq.
      cbn [fst snd app_state set_notification log_event tasks storage_file
           effects].
      destruct (setup_app_state i x) as [-> | ->];
        (repeat split; auto; intros u _ _ H; discriminate H).
    + rewrite Hn in Hg. injection Hg as <-.
      destruct (before_chat_frame i x) as (Ht & Hf & He & Hc).
      unfold chat. destruct (in_user_input i) as [u|].
      * unfold main_chat. destruct (String.eqb u "") eqn:Hu.
        -- cbn [fst snd with_app app_state]. rewrite Ht, Hf, He.
           repeat split; auto. intros u' Hu' Hne _. injection Hu' as <-.
           apply String.eqb_eq in Hu. contradiction.
        -- cbn [fst snd with_app app_state append_chat tasks storage_file
                effects chat_history].
           rewrite Ht, Hf, He, Hc. repeat split; auto.
           intros u' Hu' _ _. injection Hu' as <-. now rewrite <- app_assoc.
      * cbn [fst snd]. rewrite Ht, Hf, He. repeat split; auto.
        intros u H. discriminate H.
Qed.

(** X8: every repository event is logged once, in the order of the queue.
    Over any interleaving of events put by the watchdog thread and runs of
    [main] (whatever their inputs and however they end), the details of the
    "Repo Change Detected" entries of the log, followed by the events still
    in the queue, are the events logged or queued at the start followed by
    the events put since, in the order they were put. *)
Theorem X8_events_logged_in_order (acts : list action) (x : session) :
  let x' := run acts x in
  (logged_events (logs (app_state x')) ++
   map event_to_py (repo_event_queue x'))%list =
  (logged_events (logs (app_state x)) ++
   map event_to_py (repo_event_queue x ++ put_events acts))%list.
Proof. exact (run_ledger acts x). Qed.

(** X9: at most one observer thread runs.  After any interleaving of events
    and runs of [main] from the start of a session, with any paths and
    whether or not a path can be watched, an observer that is alive is the
    one kept in the session state, and it watches the path recorded as
    [monitoring_path]; every other observer ever started has been
    stopped. *)
Theorem X9_one_observer (acts : list action) (a : state)
  (config : option string) :
  let x := run acts (fresh_session a config) in
  forall h o,
    nth_error (observers x) h = Some o -> alive o = true ->
    repo_observer x = Some h /\ monitoring_path x = Some (watched_path o).
Proof.
  cbv zeta. apply run_monitored. intros h o H. destruct h; discriminate H.
Qed.

Lemma X9_witness :
  let i := mkInputs "/repo" "" false None None (fun _ _ => inl "")
             (fun _ => true) (fun _ => true) clock0 clock0 clock0 in
  let x := run [Run i] (fresh_session empty_state None) in
  nth_error (observers x) 0 = Some (mkObserver "/repo" true) /\
  repo_observer x = Some 0 /\
  monitoring_path x = Some "/repo".
Proof.
  cbv zeta.
  assert (H : nth_error
    (observers
       (run [Run (mkInputs "/repo" "" false None None (fun _ _ => inl "")
                    (fun _ => true) (fun _ => true) clock0 clock0 clock0)]
          (fresh_session empty_state None))) 0 =
    Some (mkObserver "/repo" true)).
  { vm_compute. reflexivity. }
  split; [exact H|].
  exact (X9_one_observer
    [Run (mkInputs "/repo" "" false None None (fun _ _ => inl "")
            (fun _ => true) (fun _ => true) clock0 clock0 clock0)]
    empty_state None 0 (mkObserver "/repo" true) H eq_refl).
Defined.

(** X10: a switch to a directory that cannot be watched leaves the session
    without an observer.  At the start of a session the setup starts an
    observer on a valid path [p].  When the path is then changed to another
    directory [q] on which [start_monitoring] raises, the observer of [p] has
    been stopped before, and [monitoring_path] still reads [p]; so with the
    path set back to [p] the setup does nothing, whatever the file system
    says: the session records [p] as monitored while no observer runs. *)
Theorem X10_failed_switch (i1 i2 : inputs) (a : state)
  (config : option string) :
  let p := in_repo_path i1 in
  let q := in_repo_path i2 in
  p <> "" -> q <> "" -> p <> q ->
  env_isdir i1 p = true -> env_can_watch i1 p = true ->
  env_isdir i2 q = true -> env_can_watch i2 q = false ->
  let x1 := setup_monitoring i1 (fresh_session a config) in
  let x2 := setup_monitoring i2 x1 in
  observers x1 = [mkObserver p true] /\
  observers x2 = [mkObserver p false] /\
  repo_observer x2 = Some 0 /\
  monitoring_path x2 = Some p /\
  forall i3, in_repo_path i3 = p -> setup_monitoring i3 x2 = x2.
Proof.
  intros p q Hp Hq Hpq Hd1 Hw1 Hd2 Hw2 x1 x2.
  assert (H1 : x1 =
    mkSession (log_event (at_setup i1) "Repo Monitoring Started"
                 (PDict [("path", PStr p)]) a)
              [] (Some 0) (Some p) [mkObserver p true] config []).
  { subst x1. unfold setup_monitoring, start_monitoring. fold p.
    rewrite (eqb_false_of_neq _ _ Hp), Hd1.
    cbn [negb andb fresh_session monitoring_path optional_eqb repo_observer
         observers stop_monitoring].
    rewrite Hw1. reflexivity. }
  assert (H2 : x2 =
    mkSession (log_event (at_setup i1) "Repo Monitoring Started"
                 (PDict [("path", PStr p)]) a)
              [] (Some 0) (Some p) [mkObserver p false] config []).
  { subst x2. rewrite H1. unfold setup_monitoring, start_monitoring. fold q.
    rewrite (eqb_false_of_neq _ _ Hq), Hd2.
    cbn [negb andb monitoring_path optional_eqb repo_observer observers].
    rewrite (eqb_false_of_neq _ _ Hpq), Hw2. reflexivity. }
  rewrite H2. rewrite H1. repeat split.
  intros i3 H3. unfold setup_monitoring. rewrite H3.
  cbn [monitoring_path optional_eqb]. rewrite String.eqb_refl.
  cbn [negb]. now destruct (_ && _).
Qed.

Lemma X10_witness :
  let i1 := mkInputs "/repo" "" false None None (fun _ _ => inl "")
              (fun _ => true) (fun _ => true) clock0 clock0 clock0 in
  let i2 := mkInputs "/other" "" false None None (fun _ _ => inl "")
              (fun _ => true) (fun _ => false) clock0 clock0 clock0 in
  in_repo_path i1 <> in_repo_path i2 /\
  env_can_watch i2 (in_repo_path i2) = false /\
  observers (setup_monitoring i1
     (setup_monitoring i2
        (setup_monitoring i1 (fresh_session empty_state None)))) =
  [mkObserver "/repo" false].
Proof.
  cbv zeta. split; [discriminate|]. split; [reflexivity|].
  assert (Hp : "/repo" <> "") by discriminate.
  assert (Hq : "/other" <> "") by discriminate.
  assert (Hpq : "/repo" <> "/other") by discriminate.
  destruct (X10_failed_switch
    (mkInputs "/repo" "" false None None (fun _ _ => inl "")
       (fun _ => true) (fun _ => true) clock0 clock0 clock0)
    (mkInputs "/other" "" false None None (fun _ _ => inl "")
       (fun _ => true) (fun _ => false) clock0 clock0 clock0)
    empty_state None Hp Hq Hpq eq_refl eq_refl eq_refl eq_refl)
    as (_ & H2 & _ & _ & H3).
  rewrite (H3 _ eq_refl). exact H2.
Defined.

(** X11: Save Configuration writes what was typed, and reads back.  When the
    configuration file holds an object of the schema (or is missing or
    unreadable, which counts as the empty object) and the button is
    clicked, the run ends with a rerun right after the write: the file then
    loads to an object whose [repo_path] and [api_key] are the two text
    inputs, every other key is kept with its value, and nothing else of the
    session changes. *)
Theorem X11_configuration_saved (i : inputs) (x : session)
  (d : list (string * pyval)) :
  load_json (config_file x) = Ok (PDict d) ->
  value_ok (PDict d) = true ->
  in_save i = true ->
  let x' := fst (main i x) in
  snd (main i x) = Rerun /\
  (exists d',
     load_json (config_file x') = Ok (PDict d') /\
     dict_get "repo_path" d' = Some (PStr (in_repo_path i)) /\
     dict_get "api_key" d' = Some (PStr (in_api_key i)) /\
     forall k, k <> "repo_path" -> k <> "api_key" ->
               dict_get k d' = dict_get k d) /\
  (exists text,
     config_file x' = Some text /\
     app_state x' = add_effects [SaveJson CONFIG_PATH text] (app_state x)) /\
  repo_event_queue x' = repo_event_queue x /\
  observers x' = observers x /\
  repo_observer x' = repo_observer x /\
  monitoring_path x' = monitoring_path x /\
  toasts x' = toasts x.
Proof.
  intros Hl Hv Hs. cbv zeta. unfold main.
  rewrite (load_config_object x d Hl), Hs.
  unfold save_configuration. cbn [setitem bind fst snd config_file].
  split; [reflexivity|]. split.
  - eexists. split; [apply load_saved|].
    + apply dict_set_value_ok; [|reflexivity].
      apply dict_set_value_ok; [exact Hv | reflexivity].
    + split; [|split].
      * rewrite dict_get_set_other by discriminate. apply dict_get_set_same.
      * apply dict_get_set_same.
      * intros k H1 H2. now rewrite !dict_get_set_other.
  - split; [eexists; split; reflexivity|]. repeat split.
Qed.

Lemma X11_witness :
  let i := mkInputs "/repo" "a-real-key" true None None (fun _ _ => inl "")
             (fun _ => true) (fun _ => true) clock0 clock0 clock0 in
  let x := fresh_session empty_state None in
  load_json (config_file x) = Ok (PDict []) /\
  in_save i = true /\
  snd (main i x) = Rerun.
Proof.
  cbv zeta. split; [reflexivity|]. split; [reflexivity|].
  exact (proj1 (X11_configuration_saved
    (mkInputs "/repo" "a-real-key" true None None (fun _ _ => inl "")
       (fun _ => true) (fun _ => true) clock0 clock0 clock0)
    (fresh_session empty_state None) [] eq_refl eq_refl eq_refl)).
Defined.

(** X12: a configuration file that is no object stops the program.  In a
    session that exists (its state was initialised by an earlier run), when
    the configuration file decodes to anything but an object (a list, a
    string, a number, [null]), every run of [main] ends in an exception
    raised no later than the first [config.get] (line 63), with the session
    exactly as it was.  So over any interleaving of repository events and
    runs nothing but the event queue changes: no event is logged, no chat
    input is handled, no toast is shown, no observer is started, and the
    Save Configuration button, which comes later in the run, never writes
    the file that would repair it. *)
Theorem X12_configuration_not_an_object (acts : list action) (x : session)
  (v : pyval) :
  load_json (config_file x) = Ok v ->
  (forall d, v <> PDict d) ->
  (forall i, exists e, main i x = (x, Raised e)) /\
  run acts x =
    mkSession (app_state x) (repo_event_queue x ++ put_events acts)%list
              (repo_observer x) (monitoring_path x) (observers x)
              (config_file x) (toasts x).
Proof.
  intros Hl Hv.
  assert (Hmain : forall (y : session) (i : inputs),
            load_json (config_file y) = Ok v ->
            exists e, main i y = (y, Raised e)).
  { intros y i Hy. destruct (load_config_other y v Hy Hv) as [m Hm].
    exists (AttributeError m). unfold main. now rewrite Hm. }
  split; [intros i; now apply Hmain|].
  revert x Hl. induction acts as [|a acts IH]; intros x Hl.
  - cbn [run fold_left put_events flat_map]. rewrite List.app_nil_r.
    now destruct x.
  - rewrite run_cons. destruct a as [clk event | i].
    + rewrite (IH (act (Put clk event) x) Hl).
      cbn [act app_state repo_event_queue repo_observer monitoring_path
           observers config_file toasts put_events flat_map].
      unfold on_any_event. now rewrite <- !app_assoc.
    + destruct (Hmain x i Hl) as [e He]. cbn [act]. rewrite He. cbn [fst].
      exact (IH x Hl).
Qed.

Lemma X12_witness :
  let x := mkSession pending_state [] None None [] (Some "[]") [] in
  let i := mkInputs "/repo" "DUMMY_KEY_FOR_TESTING" true (Some "what's next")
             None (fun _ _ => inl "") (fun _ => true) (fun _ => true)
             clock0 clock0 clock0 in
  load_json (config_file x) = Ok (PList []) /\
  run [Run i; Put clock0 (mkFsEvent "modified" "/repo/a.py" false); Run i] x =
    mkSession pending_state [mkEvent "modified" "/repo/a.py" false
                               (time_time clock0)]
              None None [] (Some "[]") [].
Proof.
  cbv zeta. split; [reflexivity|].
  assert (Hv : forall d, PList [] <> PDict d) by discriminate.
  exact (proj2 (X12_configuration_not_an_object
    [Run (mkInputs "/repo" "DUMMY_KEY_FOR_TESTING" true (Some "what's next")
            None (fun _ _ => inl "") (fun _ => true) (fun _ => true)
            clock0 clock0 clock0);
     Put clock0 (mkFsEvent "modified" "/repo/a.py" false);
     Run (mkInputs "/repo" "DUMMY_KEY_FOR_TESTING" true (Some "what's next")
            None (fun _ _ => inl "") (fun _ => true) (fun _ => true)
            clock0 clock0 clock0)]
    (mkSession pending_state [] None None [] (Some "[]") [])
    (PList []) eq_refl Hv)).
Defined.

(** X13: of a burst of repository events only the last one is shown.  With
    a configuration that loads and no click on Save, each run of [main]
    that finds the queue filled takes one event and reruns before the toast;
    so after as many runs as there are events, and one more, the toasts have
    grown by exactly one, the notification of the last event.  The
    notifications of the events before it, and a notification that was
    waiting when the burst began, are never shown. *)
Theorem X13_last_event_shown (evs : list EventData) (last : EventData)
  (ins : list inputs) (j : inputs) (x : session) :
  (exists config, load_config x = Ok config) ->
  repo_event_queue x = (evs ++ [last])%list ->
  List.length ins = S (List.length evs) ->
  Forall (fun i => in_save i = false) ins ->
  in_save j = false ->
  let x' := run (map Run (ins ++ [j])) x in
  toasts x' = (toasts x ++ [repo_change_text last])%list /\
  repo_event_queue x' = [].
Proof.
  intros Hc Hq Hl Hs Hj. cbv zeta. rewrite map_app, run_app.
  destruct (run_drain evs last ins x Hc Hq Hl Hs) as (H1 & H2 & H3 & H4).
  set (y := run (map Run ins) x) in *.
  cbn [map run fold_left act].
  destruct Hc as [config Hc].
  assert (Hcy : load_config y = Ok config).
  { rewrite <- Hc. now apply load_config_ext. }
  destruct (main_client_total j) as [gc Hg].
  rewrite (main_idle j y config gc Hcy Hj Hg H1).
  destruct (chat_toasts gc j (show_notification (setup_monitoring j y)))
    as (-> & ->).
  unfold show_notification.
  rewrite setup_notification, H4. cbn [String.eqb repo_change_text append].
  cbn [toasts repo_event_queue]. now rewrite setup_toasts, setup_queue, H2.
Qed.

Lemma X13_witness :
  let x := mkSession empty_state [modified_event; created_event] None None
             [] None [] in
  repo_event_queue x = ([modified_event] ++ [created_event])%list /\
  toasts (run (map Run ([idle_inputs; idle_inputs] ++ [idle_inputs])) x) =
  ["Repo change: created on todo.txt"].
Proof.
  cbv zeta. split; [reflexivity|].
  assert (Hs : Forall (fun i => in_save i = false) [idle_inputs; idle_inputs]).
  { constructor; [reflexivity|]. constructor; [reflexivity | constructor]. }
  exact (proj1 (X13_last_event_shown [modified_event] created_event
    [idle_inputs; idle_inputs] idle_inputs
    (mkSession empty_state [modified_event; created_event] None None
       [] None [])
    (ex_intro _ (PDict []) eq_refl) eq_refl eq_refl Hs eq_refl)).
Defined.

(** X14: a queued repository event comes before the chat.  With a
    configuration that loads and no click on Save, a run of [main] that
    finds an event in the queue takes the first one, logs it as "Repo Change
    Detected" with the event as details, replaces the notification by the
    text for this event and reruns: the chat input of this run is not
    handled (no message, no call of the backend), no toast is shown, and the
    storage file is not written, so the new log entry is in the session
    only. *)
Theorem X14_event_before_chat (i : inputs) (x : session) (event : EventData)
  (rest : list EventData) :
  (exists config, load_config x = Ok config) ->
  in_save i = false ->
  repo_event_queue x = event :: rest ->
  let x' := fst (main i x) in
  snd (main i x) = Rerun /\
  repo_event_queue x' = rest /\
  notification (app_state x') =
    Some ("Repo change: " ++ event_type event ++ " on " ++
          basename (src_path event)) /\
  logs (app_state x') =
    (logs (app_state (setup_monitoring i x)) ++
     [mkLog (time_strftime (at_event i)) "Repo Change Detected"
            (event_to_py event)])%list /\
  chat_history (app_state x') = chat_history (app_state x) /\
  tasks (app_state x') = tasks (app_state x) /\
  effects (app_state x') = effects (app_state x) /\
  storage_file (app_state x') = storage_file (app_state x) /\
  toasts x' = toasts x.
Proof.
  intros [config Hc] Hs Hq. cbv zeta.
  rewrite (main_event i x config event rest Hc Hs Hq).
  cbn [fst snd app_state repo_event_queue toasts set_notification log_event
       notification logs chat_history tasks effects storage_file].
  destruct (setup_app_state i x) as [E | E]; rewrite E; repeat split.
Qed.

Lemma X14_witness :
  let x := mkSession pending_state [modified_event] None None [] None [] in
  let i := mkInputs "" "DUMMY_KEY_FOR_TESTING" false (Some "what's next")
             None (fun _ _ => inl "") (fun _ => true) (fun _ => true)
             clock0 clock0 clock0 in
  repo_event_queue x = [modified_event] /\
  in_save i = false /\
  chat_history (app_state (fst (main i x))) = [] /\
  notification (app_state (fst (main i x))) =
    Some "Repo change: modified on app.py".
Proof.
  cbv zeta. split; [reflexivity|]. split; [reflexivity|].
  pose proof (X14_event_before_chat
    (mkInputs "" "DUMMY_KEY_FOR_TESTING" false (Some "what's next")
       None (fun _ _ => inl "") (fun _ => true) (fun _ => true)
       clock0 clock0 clock0)
    (mkSession pending_state [modified_event] None None [] None [])
    modified_event [] (ex_intro _ (PDict []) eq_refl) eq_refl eq_refl)
    as (_ & _ & Hn & _ & Hc & _).
  split; [exact Hc | exact Hn].
Defined.

(** X15: the order of the task list holds for the whole program.  When the
    task list of a session has its verified tasks first, its pending tasks
    after them and the ids 1, 2, ... (as the empty list has), it has them
    after any interleaving of repository events and runs of [main], whatever
    is typed, clicked or answered; so the dashboard always shows as current
    task the first task after the verified ones, and as last completed task
    the last of the verified ones. *)
Theorem X15_session_task_order (acts : list action) (x : session) :
  in_order (tasks (app_state x)) ->
  let ts := tasks (app_state (run acts x)) in
  exists done todo,
    ts = (done ++ todo)%list /\
    Forall (fun t => t_status t = "verified") done /\
    Forall (fun t => t_status t = "pending") todo /\
    map t_id ts = ids_from 1 (List.length ts) /\
    current_pending ts = hd_error todo /\
    last_completed_task ts = hd_error (List.rev done).
Proof.
  intros H. cbv zeta.
  destruct (run_in_order acts x H) as [(done & todo & Hs & Hd & Ht) Hi].
  exists done, todo. split; [exact Hs|]. split; [exact Hd|].
  split; [exact Ht|]. split; [exact Hi|]. rewrite Hs. split.
  - exact (current_pending_after_done _ _ Hd Ht).
  - exact (last_completed_after_done _ _ Hd Ht).
Qed.

Lemma X15_witness :
  let i := mkInputs "" "DUMMY_KEY_FOR_TESTING" false (Some "what's next")
             None (fun _ _ => inl "") (fun _ => true) (fun _ => true)
             clock0 clock0 clock0 in
  let x := fresh_session empty_state None in
  in_order (tasks (app_state x)) /\
  map t_status (tasks (app_state (run [Run i; Run i] x))) =
    ["pending"; "pending"] /\
  exists done todo,
    tasks (app_state (run [Run i; Run i] x)) = (done ++ todo)%list /\
    Forall (fun t => t_status t = "verified") done /\
    Forall (fun t => t_status t = "pending") todo.
Proof.
  cbv zeta.
  assert (H : in_order (tasks (app_state (fresh_session empty_state None)))).
  { split; [|reflexivity]. exists [], []. repeat split; constructor. }
  split; [exact H|]. split; [vm_compute; reflexivity|].
  destruct (X15_session_task_order
    [Run (mkInputs "" "DUMMY_KEY_FOR_TESTING" false (Some "what's next")
            None (fun _ _ => inl "") (fun _ => true) (fun _ => true)
            clock0 clock0 clock0);
     Run (mkInputs "" "DUMMY_KEY_FOR_TESTING" false (Some "what's next")
            None (fun _ _ => inl "") (fun _ => true) (fun _ => true)
            clock0 clock0 clock0)]
    (fresh_session empty_state None) H)
    as (done & todo & Hs & Hd & Ht & _).
  exists done, todo. split; [exact Hs|]. split; [exact Hd | exact Ht].
Defined.

(** X16: the session only grows.  Over any interleaving of repository
    events and runs of [main], the logs, the chat history and the toasts
    keep what they held and gain entries at their end only; the tasks keep
    their ids, and new tasks get the ids that follow; a task that is
    verified stays in the list unchanged.  Nothing is removed, reordered or
    set back to pending. *)
Theorem X16_session_grows (acts : list action) (x : session) :
  let s := app_state x in
  let s' := app_state (run acts x) in
  extends (logs s) (logs s') /\
  extends (chat_history s) (chat_history s') /\
  extends (toasts x) (toasts (run acts x)) /\
  (exists k,
     map t_id (tasks s') =
     (map t_id (tasks s) ++ ids_from (S (List.length (tasks s))) k)%list) /\
  (forall t, In t (tasks s) -> t_status t = "verified" -> In t (tasks s')).
Proof.
  cbv zeta. destruct (run_grows acts x) as [(Hl & Hc & Hk & Hv) Ht].
  split; [exact Hl|]. split; [exact Hc|]. split; [exact Ht|].
  split; [exact Hk | exact Hv].
Qed.

(** X17: a response wrapped in a Markdown fence is read like the bare JSON.
    For a value of the schema printed as [json.dumps] prints it, with any
    indentation, and holding no backquote, the text between an opening
    fence with the word json and a closing fence is cleaned to the printed
    value between two line feeds, and decodes to the value; so
    [handle_task_generation] appends the task of a fenced answer that has
    both keys. *)
Theorem X17_fenced_response (v : pyval) (indent : option nat) :
  let text := iterencode indent 0 v in
  value_ok v = true ->
  no_backquote text = true ->
  clean_response (fenced text) = nl ++ text ++ nl /\
  json_loads (clean_response (fenced text)) = Ok v /\
  forall clk client s data d p,
    response_to client (generation_prompt (tasks s)) = fenced text ->
    v = PDict data ->
    dict_get "task_description" data = Some d ->
    dict_get "coding_prompt" data = Some p ->
    snd (handle_task_generation clk client s) = Rerun /\
    tasks (fst (handle_task_generation clk client s)) =
      (tasks s ++ [generated_task clk s d p])%list.
Proof.
  intros text Hok Hb.
  assert (Hj : json_loads (clean_response (fenced text)) = Ok v).
  { rewrite (clean_fenced text Hb). now apply loads_padded. }
  split; [exact (clean_fenced text Hb)|]. split; [exact Hj|].
  intros clk client s data d p Hr Hv Hd Hp. subst v.
  rewrite generation_unfold. cbv zeta.
  rewrite (task_fields_present _ data d p); [split; reflexivity| |exact Hd|exact Hp].
  now rewrite Hr.
Qed.

Lemma X17_witness :
  let v := PDict [("task_description", PStr "Add a login page");
                  ("coding_prompt", PStr "Create the form.")] in
  value_ok v = true /\
  no_backquote (iterencode (Some 2) 0 v) = true /\
  json_loads (clean_response (fenced (iterencode (Some 2) 0 v))) = Ok v.
Proof.
  cbv zeta. split; [reflexivity|]. split; [reflexivity|].
  exact (proj1 (proj2 (X17_fenced_response
    (PDict [("task_description", PStr "Add a login page");
            ("coding_prompt", PStr "Create the form.")])
    (Some 2) eq_refl eq_refl))).
Defined.

(** X18: a notification is shown once.  With a configuration that loads, no
    click on Save, an empty queue and no chat input, a run of [main] that
    finds a notification shows it as a toast and clears it; the next such
    run shows nothing. *)
Theorem X18_toast_once (i j : inputs) (x : session) (n : string) :
  (exists config, load_config x = Ok config) ->
  in_save i = false -> in_save j = false ->
  in_user_input i = None -> in_user_input j = None ->
  repo_event_queue x = [] ->
  notification (app_state x) = Some n ->
  n <> "" ->
  let x1 := fst (main i x) in
  let x2 := fst (main j x1) in
  toasts x1 = (toasts x ++ [n])%list /\
  notification (app_state x1) = None /\
  toasts x2 = toasts x1 /\
  notification (app_state x2) = None.
Proof.
  intros [config Hc] Hi Hj Hui Huj Hq Hn Hne.
  assert (Hrun : forall (k : inputs) (y : session),
            load_config y = Ok config -> in_save k = false ->
            in_user_input k = None -> repo_event_queue y = [] ->
            fst (main k y) = show_notification (setup_monitoring k y)).
  { intros k y Hcy Hk Huk Hqy. destruct (main_client_total k) as [gc Hg].
    rewrite (main_idle k y config gc Hcy Hk Hg Hqy). unfold chat.
    now rewrite Huk. }
  cbv zeta. rewrite (Hrun i x Hc Hi Hui Hq).
  assert (H1 : show_notification (setup_monitoring i x) =
    mkSession
      (mkState (chat_history (app_state (setup_monitoring i x)))
               (tasks (app_state (setup_monitoring i x)))
               (logs (app_state (setup_monitoring i x))) None
               (storage_file (app_state (setup_monitoring i x)))
               (effects (app_state (setup_monitoring i x))))
      (repo_event_queue x) (repo_observer (setup_monitoring i x))
      (monitoring_path (setup_monitoring i x))
      (observers (setup_monitoring i x)) (config_file x)
      (toasts x ++ [n])%list).
  { unfold show_notification.
    rewrite setup_notification, Hn, (eqb_false_of_neq _ _ Hne).
    now rewrite setup_queue, setup_config, setup_toasts. }
  rewrite H1. set (x1 := mkSession _ _ _ _ _ _ _).
  assert (Hc1 : load_config x1 = Ok config).
  { rewrite <- Hc. now apply load_config_ext. }
  rewrite (Hrun j x1 Hc1 Hj Huj Hq).
  unfold show_notification. rewrite setup_notification.
  cbn [x1 app_state notification toasts]. rewrite setup_notification.
  cbn [x1 app_state notification toasts]. rewrite setup_toasts.
  repeat split.
Qed.

Lemma X18_witness :
  let x := mkSession
             (fst (handle_task_generation clock0 mock_client empty_state))
             [] None None [] None [] in
  notification (app_state x) = Some "New task generated!" /\
  toasts (fst (main idle_inputs (fst (main idle_inputs x)))) =
    ["New task generated!"].
Proof.
  cbv zeta. split; [reflexivity|].
  assert (Hne : "New task generated!" <> "") by discriminate.
  destruct (X18_toast_once idle_inputs idle_inputs
    (mkSession (fst (handle_task_generation clock0 mock_client empty_state))
       [] None None [] None [])
    "New task generated!" (ex_intro _ (PDict []) eq_refl)
    eq_refl eq_refl eq_refl eq_refl eq_refl eq_refl Hne)
    as (H1 & _ & H2 & _).
  rewrite H2. exact H1.
Defined.



(** X20: the log accounts for the tasks.  When the log holds one "Task
    Generated" entry for each task of the list and one "Task Verified" entry
    for each verified task (as an empty log does for an empty list), it
    does so after any interleaving of repository events and runs of [main]:
    no task appears or turns verified without its log entry, and no such
    entry is logged without its task. *)
Theorem X20_log_accounts_for_tasks (acts : list action) (x : session) :
  accounted (tasks (app_state x)) (logs (app_state x)) ->
  let s' := app_state (run acts x) in
  count_event "Task Generated" (logs s') = List.length (tasks s') /\
  count_event "Task Verified" (logs s') = count_verified (tasks s').
Proof. intros H. exact (run_accounted acts x H). Qed.

Lemma X20_witness :
  let i := mkInputs "" "DUMMY_KEY_FOR_TESTING" false (Some "what's next")
             None (fun _ _ => inl "") (fun _ => true) (fun _ => true)
             clock0 clock0 clock0 in
  let j := mkInputs "" "DUMMY_KEY_FOR_TESTING" false (Some "done")
             None (fun _ _ => inl "") (fun _ => true) (fun _ => true)
             clock0 clock0 clock0 in
  let x := fresh_session empty_state None in
  accounted (tasks (app_state x)) (logs (app_state x)) /\
  List.length (tasks (app_state (run [Run i; Run j; Run i] x))) = 2 /\
  count_event "Task Generated" (logs (app_state (run [Run i; Run j; Run i] x)))
    = List.length (tasks (app_state (run [Run i; Run j; Run i] x))).
Proof.
  cbv zeta.
  assert (H : accounted (tasks (app_state (fresh_session empty_state None)))
                        (logs (app_state (fresh_session empty_state None)))).
  { split; reflexivity. }
  split; [exact H|]. split; [vm_compute; reflexivity|].
  exact (proj1 (X20_log_accounts_for_tasks
    [Run (mkInputs "" "DUMMY_KEY_FOR_TESTING" false (Some "what's next")
            None (fun _ _ => inl "") (fun _ => true) (fun _ => true)
            clock0 clock0 clock0);
     Run (mkInputs "" "DUMMY_KEY_FOR_TESTING" false (Some "done")
            None (fun _ _ => inl "") (fun _ => true) (fun _ => true)
            clock0 clock0 clock0);
     Run (mkInputs "" "DUMMY_KEY_FOR_TESTING" false (Some "what's next")
            None (fun _ _ => inl "") (fun _ => true) (fun _ => true)
            clock0 clock0 clock0)]
    (fresh_session empty_state None) H)).
Defined.
